(** * docflu: the Google Drive image uploader (lib/core/gdocs/google-drive-client.js)

    A shallow embedding of [GoogleDriveClient] and the properties of its
    upload cache.  The client is a JavaScript class whose methods await calls
    to the Drive API, the state manager, the file system, the network and the
    optional [sharp] package.  Here each method is a computation in a small
    state-and-exception monad: the state holds the two mutable fields of the
    client and the outside world, every awaited call is one handler of an
    environment record and leaves one event (the request and what came back)
    in the list of events of the invocation. *)

From Stdlib Require Import ZArith Lia Ascii String List Bool.
From stdpp Require Import base option list gmap strings pretty.
Import ListNotations.

Local Open Scope string_scope.
Local Open Scope Z_scope.
Local Open Scope list_scope.

(** ** JavaScript strings

    A JavaScript string is modelled by the sequence of the bytes of its UTF-8
    encoding, which is what [crypto] hashes and what the file system sees. *)

Module Js.

Definition chars (s : string) : list ascii := list_ascii_of_string s.
Definition str (l : list ascii) : string := string_of_list_ascii l.

(** [String.prototype.toLowerCase] on the ASCII letters. *)
Definition lowerChar (c : ascii) : ascii :=
  let n := nat_of_ascii c in
  if (Nat.leb 65 n && Nat.leb n 90)%bool then ascii_of_nat (n + 32) else c.

Definition toLowerCase (s : string) : string := str (map lowerChar (chars s)).

(** [s.slice(a, b)] for [0 <= a] and [0 <= b]. *)
Definition slice (s : list ascii) (a b : Z) : list ascii :=
  take (Z.to_nat (b - a)) (drop (Z.to_nat a) s).

(** A string stands for a JavaScript string by its UTF-8 bytes, and a lone
    surrogate by the three bytes of its code point.  A character of up to
    three bytes is one UTF-16 code unit; a character of four bytes is two, of
    which the first is its high surrogate. *)
Definition byte (ch : ascii) : Z := Z.of_nat (nat_of_ascii ch).
Definition ofByte (b : Z) : ascii := ascii_of_nat (Z.to_nat b).

(** The high surrogate of the character whose first three bytes are given:
    [0xD800 + ((codePoint - 0x10000) >> 10)], as three bytes. *)
Definition highSurrogate (b0 b1 b2 : ascii) : list ascii :=
  let upper := Z.lor (Z.lor (Z.shiftl (Z.land (byte b0) 0x07) 8)
                            (Z.shiftl (Z.land (byte b1) 0x3f) 2))
                     (Z.shiftr (Z.land (byte b2) 0x3f) 4) in
  let unit := 0xd800 + (upper - 0x40) in
  [ ofByte 0xed;
    ofByte (Z.lor 0x80 (Z.land (Z.shiftr unit 6) 0x3f));
    ofByte (Z.lor 0x80 (Z.land unit 0x3f)) ].

(** The first [n] code units of a string; [continuation] counts the bytes
    that still belong to the character begun. *)
Fixpoint takeUnits (n continuation : nat) (bytes : list ascii) : list ascii :=
  match bytes with
  | [] => []
  | b :: rest =>
      match continuation with
      | S more => b :: takeUnits n more rest
      | O =>
          match n with
          | O => []
          | S n' =>
              if byte b <? 0xc0 then b :: takeUnits n' 0 rest
              else if byte b <? 0xe0 then b :: takeUnits n' 1 rest
              else if byte b <? 0xf0 then b :: takeUnits n' 2 rest
              else
                match n' with
                | S n'' => b :: takeUnits n'' 3 rest
                | O =>
                    match rest with
                    | b1 :: b2 :: _ => highSurrogate b b1 b2
                    | _ => []
                    end
                end
          end
      end
  end.

(** [s.substring(0, n)]. *)
Definition substring0 (n : nat) (s : string) : string := str (takeUnits n 0 (chars s)).

(** [s.endsWith(t)]. *)
Definition endsWith (s t : string) : bool :=
  let ls := chars s in let lt := chars t in
  bool_decide (drop (length ls - length lt)%nat ls = lt).

(** Truthiness of a string-or-undefined value: [undefined], [null] and the
    empty string are falsy. *)
Definition truthy (v : option string) : bool :=
  match v with
  | Some s => negb (bool_decide (s = ""))
  | None => false
  end.

(** What a value turns into when it is used as a property key. *)
Definition propertyKey (v : option string) : string :=
  match v with Some s => s | None => "undefined" end.

(** The properties every object literal inherits from [Object.prototype]:
    [table[key]] finds them when [key] is none of the literal's own keys. *)
Definition objectPrototypeNames : list string :=
  [ "constructor"; "__defineGetter__"; "__defineSetter__"; "hasOwnProperty";
    "__lookupGetter__"; "__lookupSetter__"; "isPrototypeOf";
    "propertyIsEnumerable"; "toString"; "valueOf"; "__proto__";
    "toLocaleString" ].

(** The value of [table[key] || fallback] for an object literal whose own
    values are non-empty strings: a string, or a member of
    [Object.prototype] (a function, or the prototype object itself for
    [__proto__]), which is truthy too. *)
Inductive value : Type :=
  | VString (s : string)
  | VInherited (name : string).

Definition ownLookup (table : list (string * string)) (key : string) : option string :=
  snd <$> find (fun kv => bool_decide (fst kv = key)) table.

Definition lookupOr (table : list (string * string)) (key : string) (fallback : string) : value :=
  match ownLookup table key with
  | Some v => if truthy (Some v) then VString v else VString fallback
  | None =>
      if bool_decide (key ∈ objectPrototypeNames) then VInherited key
      else VString fallback
  end.

(** A value inside a template literal: [`${v}`]. *)
Definition toString (v : value) : string :=
  match v with
  | VString s => s
  | VInherited name =>
      if bool_decide (name = "__proto__") then "[object Object]"
      else if bool_decide (name = "constructor") then "function Object() { [native code] }"
      else "function " +:+ name +:+ "() { [native code] }"
  end.

(** [v === s] for a string [s]. *)
Definition strictEq (v : value) (s : string) : bool :=
  match v with
  | VString t => bool_decide (t = s)
  | VInherited _ => false
  end.

End Js.

(** ** [crypto.createHash('sha256').update(data).digest('hex')]

    SHA-256 as in FIPS 180-4, on 32-bit words held in [Z]. *)

Module Sha256.

Definition wrap (x : Z) : Z := x mod 2 ^ 32.
Definition add (x y : Z) : Z := wrap (x + y).
Definition rotr (n x : Z) : Z := Z.lor (Z.shiftr x n) (wrap (Z.shiftl x (32 - n))).
Definition ch (x y z : Z) : Z := Z.lxor (Z.land x y) (Z.land (Z.lxor x 0xffffffff) z).
Definition maj (x y z : Z) : Z :=
  Z.lxor (Z.lxor (Z.land x y) (Z.land x z)) (Z.land y z).
Definition bsig0 (x : Z) : Z := Z.lxor (Z.lxor (rotr 2 x) (rotr 13 x)) (rotr 22 x).
Definition bsig1 (x : Z) : Z := Z.lxor (Z.lxor (rotr 6 x) (rotr 11 x)) (rotr 25 x).
Definition ssig0 (x : Z) : Z := Z.lxor (Z.lxor (rotr 7 x) (rotr 18 x)) (Z.shiftr x 3).
Definition ssig1 (x : Z) : Z := Z.lxor (Z.lxor (rotr 17 x) (rotr 19 x)) (Z.shiftr x 10).

(** The constants: the first 32 bits of the fractional parts of the cube
    roots ([K]) and of the square roots ([H0]) of the first primes. *)
Definition primes : list Z :=
  [ 2; 3; 5; 7; 11; 13; 17; 19; 23; 29; 31; 37; 41; 43; 47; 53; 59; 61; 67; 71;
    73; 79; 83; 89; 97; 101; 103; 107; 109; 113; 127; 131; 137; 139; 149; 151;
    157; 163; 167; 173; 179; 181; 191; 193; 197; 199; 211; 223; 227; 229; 233;
    239; 241; 251; 257; 263; 269; 271; 277; 281; 283; 293; 307; 311 ].

(** The integer cube root, one bit at a time from [2 ^ bits] down. *)
Fixpoint cubeRoot (bits : nat) (n root : Z) : Z :=
  match bits with
  | O => root
  | S bits' =>
      let next := root + 2 ^ Z.of_nat bits' in
      cubeRoot bits' n (if next * next * next <=? n then next else root)
  end.

Definition K : list Z := map (fun p => wrap (cubeRoot 36 (p * 2 ^ 96) 0)) primes.

Definition H0 : list Z := map (fun p => wrap (Z.sqrt (p * 2 ^ 64))) (take 8 primes).

(** The message with its padding: a [1] bit, zeros, and the length in bits
    as a 64-bit big-endian number, up to a multiple of 64 bytes. *)
Definition bigEndian (width : nat) (x : Z) : list Z :=
  map (fun i => Z.land (Z.shiftr x (8 * Z.of_nat i)) 0xff) (rev (seq 0 width)).

Definition pad (msg : list Z) : list Z :=
  let len := Z.of_nat (length msg) in
  msg ++ [0x80] ++ repeat 0 (Z.to_nat ((55 - len) mod 64)) ++ bigEndian 8 (8 * len).

Fixpoint blocks (count : nat) (bytes : list Z) : list (list Z) :=
  match count with
  | O => []
  | S count' => take 64 bytes :: blocks count' (drop 64 bytes)
  end.

Fixpoint words (count : nat) (bytes : list Z) : list Z :=
  match count, bytes with
  | S count', b0 :: b1 :: b2 :: b3 :: rest =>
      (b0 * 2 ^ 24 + b1 * 2 ^ 16 + b2 * 2 ^ 8 + b3) :: words count' rest
  | _, _ => []
  end.

(** The message schedule, newest word first. *)
Fixpoint extend (count : nat) (recent : list Z) : list Z :=
  match count with
  | O => recent
  | S count' =>
      let at_ i := nth i recent 0 in
      extend count'
        (add (add (ssig1 (at_ 1%nat)) (at_ 6%nat)) (add (ssig0 (at_ 14%nat)) (at_ 15%nat))
           :: recent)
  end.

Definition schedule (block : list Z) : list Z := rev (extend 48 (rev (words 16 block))).

Record vars := Vars { va : Z; vb : Z; vc : Z; vd : Z; ve : Z; vf : Z; vg : Z; vh : Z }.

Definition round (v : vars) (kw : Z * Z) : vars :=
  let t1 := add (add (add (vh v) (bsig1 (ve v))) (add (ch (ve v) (vf v) (vg v)) (fst kw))) (snd kw) in
  let t2 := add (bsig0 (va v)) (maj (va v) (vb v) (vc v)) in
  Vars (add t1 t2) (va v) (vb v) (vc v) (add (vd v) t1) (ve v) (vf v) (vg v).

Definition ofList (h : list Z) : vars :=
  let at_ i := nth i h 0 in
  Vars (at_ 0%nat) (at_ 1%nat) (at_ 2%nat) (at_ 3%nat) (at_ 4%nat) (at_ 5%nat) (at_ 6%nat) (at_ 7%nat).

Definition toList (v : vars) : list Z :=
  [va v; vb v; vc v; vd v; ve v; vf v; vg v; vh v].

Definition compress (h : list Z) (block : list Z) : list Z :=
  let v := fold_left round (combine K (schedule block)) (ofList h) in
  map (fun p => add (fst p) (snd p)) (combine h (toList v)).

Definition digest (msg : list Z) : list Z :=
  let padded := pad msg in
  fold_left compress (blocks (length padded / 64)%nat padded) H0.

Definition hexDigit (d : Z) : ascii :=
  ascii_of_nat (Z.to_nat (if d <? 10 then 48 + d else 87 + d)).

Definition hexWord (x : Z) : list ascii :=
  map (fun i => hexDigit (Z.land (Z.shiftr x (4 * Z.of_nat i)) 0xf)) (rev (seq 0 8)).

Definition hex (data : string) : string :=
  Js.str (concat (map hexWord (digest (map (fun c => Z.of_nat (nat_of_ascii c)) (Js.chars data))))).

End Sha256.

(** ** Node's [path] module (POSIX flavour) *)

Module Path.

Definition slash : ascii := "/"%char.
Definition dot : ascii := "."%char.

(** The variables of the loop of [path.extname]; [-1] is "not seen yet". *)
Record scan := Scan {
  startDot : Z;
  startPart : Z;
  end_ : Z;
  matchedSlash : bool;
  preDotState : Z
}.

Definition scanInit : scan := Scan (-1) 0 (-1) true 0.

(** The loop, from the last character to the first: [pending] holds the
    characters at the indices [i], [i - 1], ..., [0]. *)
Fixpoint extnameLoop (pending : list ascii) (i : Z) (v : scan) : scan :=
  match pending with
  | [] => v
  | code :: before =>
      if bool_decide (code = slash) then
        if negb (matchedSlash v)
        then Scan (startDot v) (i + 1) (end_ v) (matchedSlash v) (preDotState v)
        else extnameLoop before (i - 1) v
      else
        let v1 :=
          if end_ v =? -1
          then Scan (startDot v) (startPart v) (i + 1) false (preDotState v)
          else v in
        let v2 :=
          if bool_decide (code = dot) then
            if startDot v1 =? -1
            then Scan i (startPart v1) (end_ v1) (matchedSlash v1) (preDotState v1)
            else if negb (preDotState v1 =? 1)
            then Scan (startDot v1) (startPart v1) (end_ v1) (matchedSlash v1) 1
            else v1
          else if negb (startDot v1 =? -1)
          then Scan (startDot v1) (startPart v1) (end_ v1) (matchedSlash v1) (-1)
          else v1 in
        extnameLoop before (i - 1) v2
  end.

(** [path.extname(p)]: from the last dot of the last component to its end;
    empty when there is no dot, when the component starts with its only dot
    or when it is [..]. *)
Definition extname (p : string) : string :=
  let l := Js.chars p in
  let v := extnameLoop (rev l) (Z.of_nat (length l) - 1) scanInit in
  if ((startDot v =? -1) || (end_ v =? -1) || (preDotState v =? 0)
      || ((preDotState v =? 1) && (startDot v =? end_ v - 1)
          && (startDot v =? startPart v + 1)))%bool
  then ""
  else Js.str (Js.slice l (startDot v) (end_ v)).

(** The last component of a path, trailing slashes left out. *)
Fixpoint dropSlashes (pending : list ascii) : list ascii :=
  match pending with
  | c :: before => if bool_decide (c = slash) then dropSlashes before else pending
  | [] => []
  end.

Fixpoint takeComponent (pending : list ascii) : list ascii :=
  match pending with
  | c :: before => if bool_decide (c = slash) then [] else c :: takeComponent before
  | [] => []
  end.

Definition lastComponent (p : string) : list ascii :=
  rev (takeComponent (dropSlashes (rev (Js.chars p)))).

(** [path.basename(p)]. *)
Definition basename (p : string) : string := Js.str (lastComponent p).

(** [path.basename(p, ext)]: the suffix [ext] is removed from the last
    component when the component ends with it and is longer than it. *)
Definition basenameExt (p ext : string) : string :=
  if bool_decide (ext = "") then basename p
  else if bool_decide (ext = p) then ""
  else
    let name := lastComponent p in
    let e := Js.chars ext in
    if (Js.endsWith (Js.str name) ext && Nat.ltb (length e) (length name))%bool
    then Js.str (take (length name - length e)%nat name)
    else Js.str name.

(** The variables of the loop of [normalizeString]: the result so far, the
    length of its last segment, the characters since the last slash (the
    code keeps the index of that slash and slices the path), and the count
    of dots of a segment made of dots only ([-1] otherwise). *)
Record normal := Normal {
  result : list ascii;
  lastSegmentLength : Z;
  segment : list ascii;
  dots : Z
}.

Definition normalInit : normal := Normal [] 0 [] 0.

(** The characters after the last slash, and those before it. *)
Definition afterLastSlash (l : list ascii) : list ascii := rev (takeComponent (rev l)).

Definition beforeLastSlash (l : list ascii) : list ascii :=
  take (length l - length (afterLastSlash l) - 1)%nat l.

Definition hasSlash (l : list ascii) : bool :=
  Nat.ltb (length (afterLastSlash l)) (length l).

(** [lastSlash = i; dots = 0] *)
Definition nextSegment (out : list ascii) (len : Z) : normal := Normal out len [] 0.

(** One turn of the loop, on the character [code]. *)
Definition normalizeStep (allowAboveRoot : bool) (v : normal) (code : ascii) : normal :=
  let out := result v in
  let len := Z.of_nat (length out) in
  if bool_decide (code = slash) then
    if (bool_decide (segment v = []) || (dots v =? 1))%bool then
      nextSegment out (lastSegmentLength v)
    else if dots v =? 2 then
      let above :=
        if allowAboveRoot
        then nextSegment (if 0 <? len then out ++ [slash; dot; dot] else [dot; dot]) 2
        else nextSegment out (lastSegmentLength v) in
      if ((len <? 2) || negb (lastSegmentLength v =? 2)
          || negb (bool_decide (drop (length out - 2)%nat out = [dot; dot])))%bool then
        if 2 <? len then
          if hasSlash out
          then nextSegment (beforeLastSlash out)
                 (Z.of_nat (length (afterLastSlash (beforeLastSlash out))))
          else nextSegment [] 0
        else if negb (len =? 0) then nextSegment [] 0
        else above
      else above
    else
      nextSegment (if 0 <? len then out ++ slash :: segment v else segment v)
        (Z.of_nat (length (segment v)))
  else if (bool_decide (code = dot) && negb (dots v =? -1))%bool then
    Normal out (lastSegmentLength v) (segment v ++ [code]) (dots v + 1)
  else
    Normal out (lastSegmentLength v) (segment v ++ [code]) (-1).

(** [normalizeString(path, allowAboveRoot, '/', isPosixPathSeparator)]: the
    loop runs over the characters and then over one more slash, which
    changes nothing when the path ends with a slash (where the code
    breaks). *)
Definition normalizeString (allowAboveRoot : bool) (path : list ascii) : list ascii :=
  result (fold_left (normalizeStep allowAboveRoot) (path ++ [slash]) normalInit).

(** [path.normalize(p)]. *)
Definition normalize (p : string) : string :=
  let l := Js.chars p in
  match l with
  | [] => "."
  | first :: _ =>
      let isAbsolute := bool_decide (first = slash) in
      let trailingSeparator := bool_decide (last l = Some slash) in
      match normalizeString (negb isAbsolute) l with
      | [] => if isAbsolute then "/" else if trailingSeparator then "./" else "."
      | body =>
          Js.str ((if isAbsolute then [slash] else [])
                  ++ body ++ (if trailingSeparator then [slash] else []))
      end
  end.

(** [path.join(...args)]: the arguments that are not empty, joined by
    slashes and normalised. *)
Definition joinAll (args : list string) : string :=
  match List.filter (fun arg => negb (bool_decide (arg = ""))) args with
  | [] => "."
  | first :: more =>
      normalize (fold_left (fun joined arg => joined +:+ "/" +:+ arg) more first)
  end.

(** [path.join(a, b)]. *)
Definition join (a b : string) : string := joinAll [a; b].

End Path.

(** ** The MIME tables of the client *)

(** [getMimeType(filePath)]. *)
Definition mimeTypes : list (string * string) :=
  [ (".jpg", "image/jpeg"); (".jpeg", "image/jpeg"); (".png", "image/png");
    (".gif", "image/gif"); (".svg", "image/svg+xml"); (".webp", "image/webp");
    (".bmp", "image/bmp"); (".tiff", "image/tiff") ].

Definition getMimeType (filePath : string) : Js.value :=
  let ext := Js.toLowerCase (Path.extname filePath) in
  Js.lookupOr mimeTypes ext "image/jpeg".

(** [getExtensionFromMimeType(mimeType)]. *)
Definition extensions : list (string * string) :=
  [ ("image/jpeg", ".jpg"); ("image/png", ".png"); ("image/gif", ".gif");
    ("image/svg+xml", ".svg"); ("image/webp", ".webp"); ("image/bmp", ".bmp");
    ("image/tiff", ".tiff") ].

Definition getExtensionFromMimeType (mimeType : option string) : Js.value :=
  Js.lookupOr extensions (Js.propertyKey mimeType) ".jpg".

(** ** Data of the client *)

(** A thrown [Error], identified by its [message]. *)
Definition Exn : Type := string.

Inductive Result (A : Type) : Type :=
  | Ok (a : A)
  | Throw (e : Exn).
Arguments Ok {A} a.
Arguments Throw {A} e.

(** The object recorded per image, in the session cache and in the state
    file; [originalUrl] is only set by [uploadRemoteImage]. *)
Record UploadResult := {
  url : string;
  fileId : string;
  fileName : string;
  originalUrl : option string;
  size : option string;
  hash : string;
  webViewLink : option string;
  uploadedAt : string
}.

(** What [uploadImage] and [uploadRemoteImage] return: the recorded object
    spread together with the [cached] flag. *)
Record UploadReturn := {
  recorded : UploadResult;
  cached : bool
}.

(** The [googleDrive] namespace of the persisted state, and the state. *)
Record GoogleDriveState := {
  st_imageFolderId : option string;
  st_imageFolderName : option string;
  st_createdAt : option string;
  st_uploadedImages : option (gmap string UploadResult)
}.

Record SyncState := { googleDrive : option GoogleDriveState }.

(** [state.googleDrive?.imageFolderId] *)
Definition stateFolderId (state : SyncState) : option string :=
  googleDrive state ≫= st_imageFolderId.

(** [state.googleDrive?.uploadedImages] *)
Definition stateUploadedImages (state : SyncState) : option (gmap string UploadResult) :=
  googleDrive state ≫= st_uploadedImages.

(** The record the state holds under a key: a property of
    [uploadedImages] of its own. *)
Definition stateUploadedImage (state : SyncState) (imageHash : string) : option UploadResult :=
  stateUploadedImages state ≫= (fun images => images !! imageHash).

(** [state.googleDrive?.uploadedImages?.[imageHash]]: [uploadedImages] is a
    plain object, so that a key without a record of its own that names a
    member of [Object.prototype] finds that member: a function, or the
    prototype itself, which is truthy and has no [fileId]. *)
Inductive Recorded : Type :=
  | OwnRecord (uploaded : UploadResult)
  | InheritedMember (name : string).

Definition recordedImage (state : SyncState) (imageHash : string) : option Recorded :=
  match stateUploadedImages state with
  | Some images =>
      match images !! imageHash with
      | Some uploaded => Some (OwnRecord uploaded)
      | None =>
          if bool_decide (imageHash ∈ Js.objectPrototypeNames)
          then Some (InheritedMember imageHash)
          else None
      end
  | None => None
  end.

(** Requests and responses of the Drive API. *)
Record DriveFile := { trashed : bool }.

Record FileMetadata := {
  name : string;
  metaMimeType : option string;
  parents : list (option string)
}.

Record Media := { mimeType : Js.value; body : string }.

Record CreatedFile := {
  id : string;
  createdSize : option string;
  createdWebViewLink : option string
}.

(** The response of [axios.get(url, { responseType: 'stream' })]: the
    [content-type] header and the bytes of the stream. *)
Record HttpResponse := { contentType : option string; data : string }.

Inductive Level := Log | Warn | Error.

(** One event per awaited call (the request and what came back) and per
    console line.  [EvFilesGetNoId] is [files.get] with [fileId: undefined],
    a request that is refused before it is sent. *)
Inductive Event : Type :=
  | EvLoadState (r : Result SyncState)
  | EvUpdateState (partial : GoogleDriveState) (r : Result unit)
  | EvFilesGet (file : string) (r : Result DriveFile)
  | EvFilesCreate (resource : FileMetadata) (media : option Media) (r : Result CreatedFile)
  | EvPermissionsCreate (file role type : string) (r : Result unit)
  | EvRequireSharp (r : Result unit)
  | EvEnsureDir (dir : string) (r : Result unit)
  | EvSharpToFile (source target : string) (r : Result unit)
  | EvPathExists (path : string) (r : bool)
  | EvReadFile (path : string) (r : Result string)
  | EvHttpGet (address : string) (r : Result HttpResponse)
  | EvWriteStream (path : string) (bytes : string) (r : Result unit)
  | EvRemove (path : string) (r : Result unit)
  | EvDateNow (ms : Z)
  | EvToISOString (iso : string)
  | EvConsole (level : Level) (message : string)
  | EvFilesGetNoId (e : Exn).

(** The calls that reach the backend or the state file. *)
Definition isUpload (ev : Event) : bool :=
  match ev with EvFilesCreate _ (Some _) _ => true | _ => false end.

Definition isBackendCall (ev : Event) : bool :=
  match ev with
  | EvLoadState _ | EvUpdateState _ _ | EvFilesGet _ _ | EvFilesCreate _ _ _
  | EvPermissionsCreate _ _ _ _ => true
  | _ => false
  end.

Definition uploadCalls (evs : list Event) : nat := length (List.filter isUpload evs).

(** ** The outside world

    Everything the client awaits, as functions on a world [W] that the
    proofs never look into: any call may answer anything and may throw. *)
Record Env (W : Type) := {
  (* this.stateManager *)
  loadState : W -> W * Result SyncState;
  updateState : GoogleDriveState -> W -> W * Result unit;
  (* this.drive *)
  filesGet : string -> W -> W * Result DriveFile;
  (* files.get({ fileId: undefined, .. }): the Drive client checks the required
     parameters of a request and rejects one without a fileId before anything
     is sent; the world says with which error *)
  filesGetNoId : W -> W * Exn;
  filesCreate : FileMetadata -> option Media -> W -> W * Result CreatedFile;
  permissionsCreate : string -> string -> string -> W -> W * Result unit;
  (* require('sharp') and sharp(source).png(..).resize(..).toFile(target) *)
  requireSharp : W -> W * Result unit;
  sharpToFile : string -> string -> W -> W * Result unit;
  (* fs-extra *)
  ensureDir : string -> W -> W * Result unit;
  pathExists : string -> W -> W * bool;
  readFile : string -> W -> W * Result string;
  writeStream : string -> string -> W -> W * Result unit;
  remove : string -> W -> W * Result unit;
  (* axios *)
  httpGet : string -> W -> W * Result HttpResponse;
  (* Date.now() and new Date().toISOString() *)
  dateNow : W -> W * Z;
  toISOString : W -> W * string;
  (* new URL(address).pathname; None when the constructor throws *)
  urlPathname : string -> option string;
  (* this.formatFileSize, floating-point arithmetic left abstract *)
  formatFileSize : option string -> string
}.

Arguments loadState {W}.
Arguments updateState {W}.
Arguments filesGet {W}.
Arguments filesGetNoId {W}.
Arguments filesCreate {W}.
Arguments permissionsCreate {W}.
Arguments requireSharp {W}.
Arguments sharpToFile {W}.
Arguments ensureDir {W}.
Arguments pathExists {W}.
Arguments readFile {W}.
Arguments writeStream {W}.
Arguments remove {W}.
Arguments httpGet {W}.
Arguments dateNow {W}.
Arguments toISOString {W}.
Arguments urlPathname {W}.
Arguments formatFileSize {W}.

(** The client object: its mutable fields and the world it acts on. *)
Record Client (W : Type) := {
  world : W;
  projectRoot : string;
  imageFolderId : option string;
  uploadedImages : gmap string UploadResult
}.
Arguments world {W}.
Arguments projectRoot {W}.
Arguments imageFolderId {W}.
Arguments uploadedImages {W}.

(** ** The monad of the methods *)

Section Monad.
Context {W : Type}.

Definition M (A : Type) : Type := Client W -> Client W * list Event * Result A.

Definition ret {A} (a : A) : M A := fun c => (c, [], Ok a).

Definition throw {A} (e : Exn) : M A := fun c => (c, [], Throw e).

Definition bind {A B} (m : M A) (k : A -> M B) : M B :=
  fun c =>
    match m c with
    | (c1, evs1, Ok a) =>
        match k a c1 with (c2, evs2, r) => (c2, evs1 ++ evs2, r) end
    | (c1, evs1, Throw e) => (c1, evs1, Throw e)
    end.

(** [try { m } catch (error) { handler error }] *)
Definition tryCatch {A} (m : M A) (handler : Exn -> M A) : M A :=
  fun c =>
    match m c with
    | (c1, evs1, Throw e) =>
        match handler e c1 with (c2, evs2, r) => (c2, evs1 ++ evs2, r) end
    | done => done
    end.

Definition withWorld (w : W) (c : Client W) : Client W :=
  {| world := w; projectRoot := projectRoot c;
     imageFolderId := imageFolderId c; uploadedImages := uploadedImages c |}.

(** An awaited call that may throw, and one that cannot. *)
Definition await {A} (handler : W -> W * Result A) (event : Result A -> Event) : M A :=
  fun c => match handler (world c) with (w, r) => (withWorld w c, [event r], r) end.

Definition ask {A} (handler : W -> W * A) (event : A -> Event) : M A :=
  fun c => match handler (world c) with (w, a) => (withWorld w c, [event a], Ok a) end.

Definition console (level : Level) (message : string) : M unit :=
  fun c => (c, [EvConsole level message], Ok tt).

(** Reads and writes of [this.imageFolderId], [this.uploadedImages] and
    [this.projectRoot]. *)
Definition getImageFolderId : M (option string) := fun c => (c, [], Ok (imageFolderId c)).

Definition setImageFolderId (v : option string) : M unit :=
  fun c => ({| world := world c; projectRoot := projectRoot c;
               imageFolderId := v; uploadedImages := uploadedImages c |}, [], Ok tt).

Definition getUploadedImage (key : string) : M (option UploadResult) :=
  fun c => (c, [], Ok (uploadedImages c !! key)).

Definition setUploadedImage (key : string) (v : UploadResult) : M unit :=
  fun c => ({| world := world c; projectRoot := projectRoot c;
               imageFolderId := imageFolderId c;
               uploadedImages := <[key := v]> (uploadedImages c) |}, [], Ok tt).

Definition getProjectRoot : M string := fun c => (c, [], Ok (projectRoot c)).

End Monad.

Arguments M : clear implicits.

Notation "'let*' x ':=' m 'in' k" := (bind m (fun x => k))
  (at level 10, x name, m at level 100, k at level 200).

(** ** The methods of [GoogleDriveClient] *)

Section GoogleDriveClient.
Context {W : Type} (env : Env W).

Definition publicUrlPrefix : string := "https://drive.google.com/uc?export=download&id=".

(** [path.join(this.projectRoot, '.docusaurus', 'temp')] *)
Definition tempDirOf (root : string) : string :=
  Path.joinAll [root; ".docusaurus"; "temp"].

(** [ensureImageFolder()] *)
Definition ensureImageFolder : M W string :=
  tryCatch
    (let* state := await (loadState env) EvLoadState in
     let* _ := setImageFolderId (stateFolderId state) in
     let* recordedId := getImageFolderId in
     let* live :=
       (if Js.truthy recordedId then
          tryCatch
            (let* folder := await (filesGet env (default "" recordedId))
                                  (EvFilesGet (default "" recordedId)) in
             if negb (trashed folder) then ret recordedId
             else
               let* _ := console Log "⚠️ Existing folder is trashed, creating new one..." in
               let* _ := setImageFolderId None in
               ret None)
            (fun error =>
               let* _ := console Log "⚠️ Existing folder not found, creating new one..." in
               let* _ := setImageFolderId None in
               ret None)
        else ret None) in
     match live with
     | Some folderId => ret folderId
     | None =>
         let* now := ask (dateNow env) EvDateNow in
         let folderName := "docflu-files-" +:+ pretty now in
         let folderMetadata :=
           {| name := folderName;
              metaMimeType := Some "application/vnd.google-apps.folder";
              parents := [Some "root"] |} in
         let* _ := console Log ("📁 Creating files folder: " +:+ folderName) in
         let* folder := await (filesCreate env folderMetadata None)
                              (EvFilesCreate folderMetadata None) in
         let* _ := setImageFolderId (Some (id folder)) in
         let* _ := await (permissionsCreate env (id folder) "reader" "anyone")
                         (EvPermissionsCreate (id folder) "reader" "anyone") in
         let* currentState := await (loadState env) EvLoadState in
         let* iso := ask (toISOString env) EvToISOString in
         let partial :=
           {| st_imageFolderId := Some (id folder);
              st_imageFolderName := Some folderName;
              st_createdAt := Some iso;
              st_uploadedImages := Some (default ∅ (stateUploadedImages currentState)) |} in
         let* _ := await (updateState env partial) (EvUpdateState partial) in
         let* _ := console Log ("✅ Image folder created and saved: " +:+ folderName
                                 +:+ " (" +:+ id folder +:+ ")") in
         ret (id folder)
     end)
    (fun error =>
       let* _ := console Error ("❌ Failed to ensure image folder: " +:+ error) in
       throw error).

(** [convertImageForGoogleDocs(imagePath, contentType = null)] *)
Definition convertImageForGoogleDocs (imagePath : string) (contentType : option string)
  : M W string :=
  let ext := Js.toLowerCase (Path.extname imagePath) in
  let isSvg := (bool_decide (ext = ".svg")
                || bool_decide (contentType = Some "image/svg+xml"))%bool in
  if negb isSvg then ret imagePath
  else
    tryCatch
      (let* sharp :=
         tryCatch
           (let* _ := await (requireSharp env) EvRequireSharp in ret true)
           (fun error =>
              let* _ := console Warn "⚠️ Sharp package not available, uploading SVG as-is (may not display properly in Google Docs)" in
              ret false) in
       if negb sharp then ret imagePath
       else
         let* root := getProjectRoot in
         let tempDir := tempDirOf root in
         let* _ := await (ensureDir env tempDir) (EvEnsureDir tempDir) in
         let baseName := Path.basenameExt imagePath ext in
         let pngPath := Path.join tempDir (baseName +:+ ".png") in
         let* _ := await (sharpToFile env imagePath pngPath) (EvSharpToFile imagePath pngPath) in
         let* present := ask (pathExists env pngPath) (EvPathExists pngPath) in
         if present then ret pngPath
         else throw "PNG conversion failed")
      (fun error =>
         let* _ := console Warn ("⚠️ SVG conversion failed: " +:+ error
                                  +:+ ", uploading original") in
         ret imagePath).

(** The check of a recorded image against Drive, shared in shape by both
    upload methods: [Some] when the recorded file is still live and has
    been put in the session cache, [None] when a new upload is due.  The
    two methods differ in what they print on the way to a new upload. *)
Definition adoptRecorded (imageHash : string) (uploadedImage : option Recorded)
    (onTrashed onError : M W unit) : M W (option UploadResult) :=
  match uploadedImage with
  | Some (OwnRecord uploaded) =>
      tryCatch
        (let* file := await (filesGet env (fileId uploaded)) (EvFilesGet (fileId uploaded)) in
         if negb (trashed file) then
           let* _ := setUploadedImage imageHash uploaded in
           ret (Some uploaded)
         else
           let* _ := onTrashed in
           ret None)
        (fun error => let* _ := onError in ret None)
  | Some (InheritedMember _) =>
      tryCatch
        (let* rejection := ask (filesGetNoId env) EvFilesGetNoId in
         throw rejection)
        (fun error => let* _ := onError in ret None)
  | None => ret None
  end.

(** [{ googleDrive: { ...currentState.googleDrive, imageFolderId:
    this.imageFolderId, uploadedImages: { ...currentState.googleDrive
    ?.uploadedImages, [imageHash]: uploadResult } } }] *)
Definition recordPartial (currentState : SyncState) (folder : option string)
    (imageHash : string) (uploadResult : UploadResult) : GoogleDriveState :=
  {| st_imageFolderId := folder;
     st_imageFolderName := googleDrive currentState ≫= st_imageFolderName;
     st_createdAt := googleDrive currentState ≫= st_createdAt;
     st_uploadedImages :=
       Some (<[imageHash := uploadResult]> (default ∅ (stateUploadedImages currentState))) |}.

(** [uploadImage(imagePath, imageHash = null)] *)
Definition uploadImage (imagePath : string) (imageHash : option string) : M W UploadReturn :=
  tryCatch
    (let* processedImagePath := convertImageForGoogleDocs imagePath None in
     let* imageHash :=
       (if negb (Js.truthy imageHash) then
          let* imageBuffer := await (readFile env processedImagePath)
                                    (EvReadFile processedImagePath) in
          ret (Sha256.hex imageBuffer)
        else ret (default "" imageHash)) in
     let* cachedResult := getUploadedImage imageHash in
     match cachedResult with
     | Some cachedResult => ret {| recorded := cachedResult; cached := true |}
     | None =>
         let* state := await (loadState env) EvLoadState in
         let* adopted :=
           adoptRecorded imageHash (recordedImage state imageHash) (ret tt) (ret tt) in
         match adopted with
         | Some uploadedImage => ret {| recorded := uploadedImage; cached := true |}
         | None =>
             let fileName := Js.substring0 8 imageHash +:+ "-"
                             +:+ Path.basename processedImagePath in
             let mimeType := getMimeType processedImagePath in
             let* folder := getImageFolderId in
             let fileMetadata :=
               {| name := fileName; metaMimeType := None; parents := [folder] |} in
             let media := {| mimeType := mimeType; body := processedImagePath |} in
             let* file := await (filesCreate env fileMetadata (Some media))
                                (EvFilesCreate fileMetadata (Some media)) in
             let* _ := await (permissionsCreate env (id file) "reader" "anyone")
                             (EvPermissionsCreate (id file) "reader" "anyone") in
             let publicUrl := publicUrlPrefix +:+ id file in
             let* iso := ask (toISOString env) EvToISOString in
             let uploadResult :=
               {| url := publicUrl; fileId := id file; fileName := fileName;
                  originalUrl := None; size := createdSize file; hash := imageHash;
                  webViewLink := createdWebViewLink file; uploadedAt := iso |} in
             let* _ := setUploadedImage imageHash uploadResult in
             let* currentState := await (loadState env) EvLoadState in
             let* folder := getImageFolderId in
             let partial := recordPartial currentState folder imageHash uploadResult in
             let* _ := await (updateState env partial) (EvUpdateState partial) in
             ret {| recorded := uploadResult; cached := false |}
         end
     end)
    (fun error => throw error).

(** [new URL(imageUrl).pathname], which throws on an invalid address. *)
Definition pathnameOf (imageUrl : string) : M W string :=
  match urlPathname env imageUrl with
  | Some p => ret p
  | None => throw "Invalid URL"
  end.

Definition valueTruthy (v : Js.value) : bool :=
  match v with
  | Js.VString s => Js.truthy (Some s)
  | Js.VInherited _ => true
  end.

(** The clean-up block of [uploadRemoteImage]. *)
Definition cleanupTempFiles (tempFilePath processedImagePath : string) : M W unit :=
  tryCatch
    (let* present := ask (pathExists env tempFilePath) (EvPathExists tempFilePath) in
     let* _ := (if present
                then await (remove env tempFilePath) (EvRemove tempFilePath)
                else ret tt) in
     if negb (bool_decide (processedImagePath = tempFilePath)) then
       let* converted := ask (pathExists env processedImagePath)
                             (EvPathExists processedImagePath) in
       if converted
       then await (remove env processedImagePath) (EvRemove processedImagePath)
       else ret tt
     else ret tt)
    (fun cleanupError =>
       console Warn ("⚠️ Failed to cleanup temp files: " +:+ cleanupError)).

(** [uploadRemoteImage(imageUrl)] *)
Definition uploadRemoteImage (imageUrl : string) : M W UploadReturn :=
  tryCatch
    (let urlHash := Sha256.hex imageUrl in
     let* cachedResult := getUploadedImage urlHash in
     match cachedResult with
     | Some cachedResult => ret {| recorded := cachedResult; cached := true |}
     | None =>
         let* state := await (loadState env) EvLoadState in
         let* adopted :=
           adoptRecorded urlHash (recordedImage state urlHash)
             (console Log ("⚠️ Cached remote image is trashed, re-uploading: " +:+ imageUrl))
             (console Log ("⚠️ Cached remote image not accessible, re-uploading: " +:+ imageUrl)) in
         match adopted with
         | Some uploadedImage => ret {| recorded := uploadedImage; cached := true |}
         | None =>
             let* _ := console Log ("📥 Downloading remote image: " +:+ imageUrl) in
             let* root := getProjectRoot in
             let tempDir := tempDirOf root in
             let* _ := await (ensureDir env tempDir) (EvEnsureDir tempDir) in
             let* response := await (httpGet env imageUrl) (EvHttpGet imageUrl) in
             let contentType := contentType response in
             let* extension :=
               (let fromType := getExtensionFromMimeType contentType in
                if valueTruthy fromType then ret fromType
                else
                  let* pathname := pathnameOf imageUrl in
                  let fromUrl := Path.extname pathname in
                  if Js.truthy (Some fromUrl) then ret (Js.VString fromUrl)
                  else ret (Js.VString ".jpg")) in
             let tempFileName := "remote-" +:+ Js.substring0 8 urlHash
                                 +:+ Js.toString extension in
             let tempFilePath := Path.join tempDir tempFileName in
             let* _ := await (writeStream env tempFilePath (data response))
                             (EvWriteStream tempFilePath (data response)) in
             let* pathname := pathnameOf imageUrl in
             let urlPath := Js.toLowerCase pathname in
             let isSvgFromUrl := (Js.endsWith urlPath ".svg"
                                  || Js.strictEq extension ".svg")%bool in
             let* processedImagePath :=
               convertImageForGoogleDocs tempFilePath
                 (if isSvgFromUrl then Some "image/svg+xml" else contentType) in
             let finalFileName := "remote-" +:+ Js.substring0 8 urlHash
                                  +:+ Path.extname processedImagePath in
             let finalMimeType := getMimeType processedImagePath in
             let* _ := console Log ("📤 Uploading remote image: " +:+ imageUrl) in
             let* folder := getImageFolderId in
             let fileMetadata :=
               {| name := finalFileName; metaMimeType := None; parents := [folder] |} in
             let media := {| mimeType := finalMimeType; body := processedImagePath |} in
             let* file := await (filesCreate env fileMetadata (Some media))
                                (EvFilesCreate fileMetadata (Some media)) in
             let* _ := await (permissionsCreate env (id file) "reader" "anyone")
                             (EvPermissionsCreate (id file) "reader" "anyone") in
             let publicUrl := publicUrlPrefix +:+ id file in
             let* iso := ask (toISOString env) EvToISOString in
             let uploadResult :=
               {| url := publicUrl; fileId := id file; fileName := finalFileName;
                  originalUrl := Some imageUrl; size := createdSize file; hash := urlHash;
                  webViewLink := createdWebViewLink file; uploadedAt := iso |} in
             let* _ := cleanupTempFiles tempFilePath processedImagePath in
             let* _ := setUploadedImage urlHash uploadResult in
             let* currentState := await (loadState env) EvLoadState in
             let* folder := getImageFolderId in
             let partial := recordPartial currentState folder urlHash uploadResult in
             let* _ := await (updateState env partial) (EvUpdateState partial) in
             let* _ := console Log ("✅ Remote image uploaded and cached: " +:+ finalFileName
                                     +:+ " (" +:+ formatFileSize env (createdSize file) +:+ ")") in
             ret {| recorded := uploadResult; cached := false |}
         end
     end)
    (fun error =>
       let* _ := console Error ("❌ Failed to upload remote image " +:+ imageUrl
                                 +:+ ": " +:+ error) in
       throw error).

End GoogleDriveClient.

(** ** The remaining methods *)

Section Session.
Context {W : Type} (env : Env W).

(** [new GoogleDriveClient(projectRoot)]: no folder, an empty session
    cache. *)
Definition construct (root : string) (w : W) : Client W :=
  {| world := w; projectRoot := root; imageFolderId := None; uploadedImages := ∅ |}.

(** [initialize(oauth2Client, stateManager)]: the two arguments and the
    Drive object built from them are what the environment stands for. *)
Definition initialize : M W bool :=
  tryCatch
    (let* _ := ensureImageFolder env in
     let* _ := console Log "✅ Google Drive client initialized successfully" in
     ret true)
    (fun error =>
       let* _ := console Error ("❌ Failed to initialize Google Drive client: " +:+ error) in
       throw error).

(** [this.uploadedImages.clear()] *)
Definition clearUploadedImages : M W unit :=
  fun c => ({| world := world c; projectRoot := projectRoot c;
               imageFolderId := imageFolderId c; uploadedImages := ∅ |}, [], Ok tt).

(** [cleanup()] *)
Definition cleanup : M W unit :=
  tryCatch clearUploadedImages
    (fun error => console Warn ("⚠️ Google Drive client cleanup warning: " +:+ error)).

End Session.

(** [getUploadStats()].  The objects held by the session cache are the
    upload results and the state entries; [cached] is a property of the
    returned copies only, so that [img.cached] is [undefined] on each of
    them. *)
Record UploadStats := {
  sessionUploads : nat;
  totalCached : nat;
  totalNew : nat
}.

Definition cachedProperty (img : UploadResult) : bool := false.

Definition getUploadStats {W : Type} (c : Client W) : UploadStats :=
  let values := snd <$> map_to_list (uploadedImages c) in
  {| sessionUploads := base.size (uploadedImages c);
     totalCached := length (List.filter cachedProperty values);
     totalNew := length (List.filter (fun img => negb (cachedProperty img)) values) |}.

(** * Vocabulary of the properties *)

Definition backendCalls (evs : list Event) : list Event := List.filter isBackendCall evs.

Definition isWarning (ev : Event) : bool :=
  match ev with EvConsole Warn _ => true | _ => false end.

(** A step of the conversion that did not deliver. *)
Definition isFailedConversionStep (ev : Event) : bool :=
  match ev with
  | EvRequireSharp (Throw _) | EvEnsureDir _ (Throw _) | EvSharpToFile _ _ (Throw _)
  | EvPathExists _ false => true
  | _ => false
  end.

(** ** What a successful upload looks like *)

(** The recorded file turned out to be gone: trashed, or not accessible. *)
Definition gone (answer : Result DriveFile) : Prop :=
  match answer with
  | Ok file => trashed file = true
  | Throw _ => True
  end.

(** The object built after a new upload. *)
Definition isFresh (imageHash : string) (file : CreatedFile) (res : UploadResult) : Prop :=
  url res = publicUrlPrefix +:+ id file
  /\ fileId res = id file
  /\ hash res = imageHash
  /\ size res = createdSize file
  /\ webViewLink res = createdWebViewLink file.

(** The four ways an upload method returns: the backend calls it made, in
    order, the session cache before and after, and the returned object. *)
Inductive Resolved (h : string) (before after : gmap string UploadResult)
  : list Event -> UploadReturn -> Prop :=
  | FromSession (u : UploadResult) :
      before !! h = Some u ->
      after = before ->
      Resolved h before after [] {| recorded := u; cached := true |}
  | FromState (s : SyncState) (u : UploadResult) (f : DriveFile) :
      before !! h = None ->
      stateUploadedImage s h = Some u ->
      trashed f = false ->
      after = <[h := u]> before ->
      Resolved h before after
        [EvLoadState (Ok s); EvFilesGet (fileId u) (Ok f)]
        {| recorded := u; cached := true |}
  | FirstUpload (s s2 : SyncState) (resource : FileMetadata) (media : Media)
      (file : CreatedFile) (folder : option string) (res : UploadResult) :
      before !! h = None ->
      stateUploadedImage s h = None ->
      isFresh h file res ->
      after = <[h := res]> before ->
      Resolved h before after
        [EvLoadState (Ok s);
         EvFilesCreate resource (Some media) (Ok file);
         EvPermissionsCreate (id file) "reader" "anyone" (Ok tt);
         EvLoadState (Ok s2);
         EvUpdateState (recordPartial s2 folder h res) (Ok tt)]
        {| recorded := res; cached := false |}
  | UploadAgain (s s2 : SyncState) (u : UploadResult) (answer : Result DriveFile)
      (resource : FileMetadata) (media : Media)
      (file : CreatedFile) (folder : option string) (res : UploadResult) :
      before !! h = None ->
      stateUploadedImage s h = Some u ->
      gone answer ->
      isFresh h file res ->
      after = <[h := res]> before ->
      Resolved h before after
        [EvLoadState (Ok s);
         EvFilesGet (fileId u) answer;
         EvFilesCreate resource (Some media) (Ok file);
         EvPermissionsCreate (id file) "reader" "anyone" (Ok tt);
         EvLoadState (Ok s2);
         EvUpdateState (recordPartial s2 folder h res) (Ok tt)]
        {| recorded := res; cached := false |}.

(** What [ensureImageFolder] has written into the state for a new folder. *)
Definition isFolderRecord (currentState : SyncState) (folder : CreatedFile)
    (partial : GoogleDriveState) : Prop :=
  st_imageFolderId partial = Some (id folder)
  /\ st_uploadedImages partial = Some (default ∅ (stateUploadedImages currentState)).

(** The three ways [ensureImageFolder] returns: the backend calls it made,
    [this.imageFolderId] afterwards, and the returned id. *)
Inductive Ensured (after : option string) : list Event -> string -> Prop :=
  | FolderKept (s : SyncState) (folderId : string) (f : DriveFile) :
      stateFolderId s = Some folderId ->
      folderId <> "" ->
      trashed f = false ->
      after = Some folderId ->
      Ensured after [EvLoadState (Ok s); EvFilesGet folderId (Ok f)] folderId
  | FolderCreated (s s2 : SyncState) (resource : FileMetadata) (folder : CreatedFile)
      (partial : GoogleDriveState) :
      Js.truthy (stateFolderId s) = false ->
      isFolderRecord s2 folder partial ->
      after = Some (id folder) ->
      Ensured after
        [EvLoadState (Ok s);
         EvFilesCreate resource None (Ok folder);
         EvPermissionsCreate (id folder) "reader" "anyone" (Ok tt);
         EvLoadState (Ok s2);
         EvUpdateState partial (Ok tt)]
        (id folder)
  | FolderReplaced (s s2 : SyncState) (folderId : string) (answer : Result DriveFile)
      (resource : FileMetadata) (folder : CreatedFile) (partial : GoogleDriveState) :
      stateFolderId s = Some folderId ->
      folderId <> "" ->
      gone answer ->
      isFolderRecord s2 folder partial ->
      after = Some (id folder) ->
      Ensured after
        [EvLoadState (Ok s);
         EvFilesGet folderId answer;
         EvFilesCreate resource None (Ok folder);
         EvPermissionsCreate (id folder) "reader" "anyone" (Ok tt);
         EvLoadState (Ok s2);
         EvUpdateState partial (Ok tt)]
        (id folder).

Definition isFilesCreate (ev : Event) : bool :=
  match ev with EvFilesCreate _ _ _ => true | _ => false end.

Section References.
Context {W : Type} (env : Env W).

(** How [uploadImage] comes to the hash it works with. *)
Definition hashedAs (imagePath : string) (given : option string) (c : Client W)
    (h : string) : Prop :=
  exists w evs processed,
    convertImageForGoogleDocs env imagePath None c = (withWorld w c, evs, Ok processed)
    /\ if Js.truthy given then h = default "" given
       else exists w' bytes,
           readFile env processed w = (w', Ok bytes) /\ h = Sha256.hex bytes.

(** The two upload methods as one operation on asset references, and the
    key under which each reference is cached and recorded: the hash handed in
    or else the SHA-256 of the processed file for a local path, the SHA-256
    of the address for a remote image. *)
Inductive AssetRef : Type :=
  | LocalPath (imagePath : string) (imageHash : option string)
  | RemoteUrl (imageUrl : string).

Definition resolve (ref : AssetRef) : M W UploadReturn :=
  match ref with
  | LocalPath imagePath imageHash => uploadImage env imagePath imageHash
  | RemoteUrl imageUrl => uploadRemoteImage env imageUrl
  end.

Definition keyOf (ref : AssetRef) (c : Client W) (h : string) : Prop :=
  match ref with
  | LocalPath imagePath imageHash => hashedAs imagePath imageHash c h
  | RemoteUrl imageUrl => h = Sha256.hex imageUrl
  end.


End References.


(** ** Kinds of events *)

(** The events of [convertImageForGoogleDocs] and of the clean-up block. *)
Definition isConversionEvent (ev : Event) : bool :=
  match ev with
  | EvRequireSharp _ | EvEnsureDir _ _ | EvSharpToFile _ _ _ | EvPathExists _ _
  | EvConsole Warn _ => true
  | _ => false
  end.

Definition isCleanupEvent (ev : Event) : bool :=
  match ev with
  | EvPathExists _ _ | EvRemove _ _ | EvConsole Warn _ => true
  | _ => false
  end.

Definition isHttpGet (ev : Event) : bool :=
  match ev with EvHttpGet _ _ => true | _ => false end.

Definition isWriteStream (ev : Event) : bool :=
  match ev with EvWriteStream _ _ _ => true | _ => false end.

Definition isReadFile (ev : Event) : bool :=
  match ev with EvReadFile _ _ => true | _ => false end.

(** A state write that went through. *)
Definition isStateWritten (ev : Event) : bool :=
  match ev with EvUpdateState _ (Ok _) => true | _ => false end.

(** The error a call ended with. *)
Definition thrownBy (ev : Event) : option Exn :=
  let thrown {A} (r : Result A) := match r with Throw e => Some e | Ok _ => None end in
  match ev with
  | EvLoadState r => thrown r
  | EvUpdateState _ r => thrown r
  | EvFilesGet _ r => thrown r
  | EvFilesCreate _ _ r => thrown r
  | EvPermissionsCreate _ _ _ r => thrown r
  | EvRequireSharp r => thrown r
  | EvEnsureDir _ r => thrown r
  | EvSharpToFile _ _ r => thrown r
  | EvReadFile _ r => thrown r
  | EvHttpGet _ r => thrown r
  | EvWriteStream _ _ r => thrown r
  | EvRemove _ r => thrown r
  | EvFilesGetNoId e => Some e
  | EvPathExists _ _ | EvDateNow _ | EvToISOString _ | EvConsole _ _ => None
  end.

(** The calls whose errors the methods catch and do not pass on. *)
Definition isSwallowed (ev : Event) : bool :=
  match ev with
  | EvFilesGet _ _ | EvFilesGetNoId _ | EvRequireSharp _ | EvSharpToFile _ _ _
  | EvRemove _ _ => true
  | _ => false
  end.

(** A path is at the start of a component when nothing or a slash comes
    before. *)
Definition atComponentStart (before : list ascii) : Prop :=
  before = [] \/ exists dir, before = dir ++ [Path.slash].

(** What the loop keeps true of the dot it has found: it is a dot of the
    path and lies before the end of the component. *)
Definition dotFound (l : list ascii) (v : Path.scan) : Prop :=
  Path.startDot v = -1
  \/ (0 <= Path.startDot v < Path.end_ v
      /\ l !! Z.to_nat (Path.startDot v) = Some Path.dot).

(** What was downloaded, and which local files were uploaded. *)
Definition written (evs : list Event) : list (string * string) :=
  omap (fun ev => match ev with
                  | EvWriteStream path bytes (Ok _) => Some (path, bytes)
                  | _ => None
                  end) evs.



Definition isRemove (ev : Event) : bool :=
  match ev with EvRemove _ _ => true | _ => false end.

(** The tail of the events of a method that throws: the catch block of
    [uploadRemoteImage] prints a line, that of [uploadImage] nothing. *)
Definition catchLine (ref : AssetRef) (e : Exn) : list Event :=
  match ref with
  | LocalPath _ _ => []
  | RemoteUrl imageUrl =>
      [EvConsole Error ("❌ Failed to upload remote image " +:+ imageUrl +:+ ": " +:+ e)]
  end.

(** The name under which an upload method creates the file of a key. *)
Definition uploadName (ref : AssetRef) (h processed : string) : string :=
  match ref with
  | LocalPath _ _ => Js.substring0 8 h +:+ "-" +:+ Path.basename processed
  | RemoteUrl _ => "remote-" +:+ Js.substring0 8 h +:+ Path.extname processed
  end.

(** Two events that come one right after the other. *)
Definition followedBy (a b : Event) (evs : list Event) : Prop :=
  exists pre post, evs = pre ++ a :: b :: post.

(** The events of the clean-up block for two given paths. *)
Definition isCleanupOf (tempFilePath processedImagePath : string) (ev : Event) : bool :=
  match ev with
  | EvPathExists q _ | EvRemove q _ =>
      bool_decide (q = tempFilePath) || bool_decide (q = processedImagePath)
  | EvConsole Warn _ => true
  | _ => false
  end.

(** The path of the PNG that the conversion writes for an image. *)
Definition pngOf (root imagePath : string) : string :=
  Path.join (tempDirOf root)
    (Path.basenameExt imagePath (Js.toLowerCase (Path.extname imagePath)) +:+ ".png").

(** The path of the temporary file of a download. *)
Definition tempFileOf (root imageUrl : string) (extension : Js.value) : string :=
  Path.join (tempDirOf root)
    ("remote-" +:+ Js.substring0 8 (Sha256.hex imageUrl) +:+ Js.toString extension).

(** A character that is neither a slash nor a dot. *)
Definition isPlain (ch : ascii) : Prop := ch <> Path.slash /\ ch <> Path.dot.

(** The digits of a digest, and the bytes that are characters of their
    own. *)
Definition isHexDigit (ch : ascii) : bool :=
  existsb (Ascii.eqb ch) (Js.chars "0123456789abcdef").

Definition isAsciiByte (ch : ascii) : bool := Js.byte ch <? 0x80.

(** The name of a file: not empty, neither [.] nor [..], and without a
    slash. *)
Definition isFileName (name : string) : Prop :=
  name <> "" /\ name <> "." /\ name <> ".."
  /\ Forall (fun ch => ch <> Path.slash) (Js.chars name).

(** The result of [normalizeString] between two segments: segments joined
    by slashes, none of them empty or [.], and [..] only where the loop
    leaves it, at the front of a path that may go above its root; the
    number is the length of the last segment. *)
Definition endsDotDot (out : list ascii) (len : Z) : Prop :=
  (2 <= length out)%nat /\ len = 2
  /\ drop (length out - 2)%nat out = [Path.dot; Path.dot].

Definition pushSegment (out seg : list ascii) : list ascii :=
  match out with
  | [] => seg
  | _ => out ++ Path.slash :: seg
  end.

Inductive Normalised (allowAboveRoot : bool) : list ascii -> Z -> Prop :=
  | NoSegment : Normalised allowAboveRoot [] 0
  | Segment (out : list ascii) (len : Z) (seg : list ascii) :
      Normalised allowAboveRoot out len ->
      seg <> [] ->
      seg <> [Path.dot] ->
      Forall (fun ch => ch <> Path.slash) seg ->
      (seg = [Path.dot; Path.dot] ->
       allowAboveRoot = true /\ (out = [] \/ endsDotDot out len)) ->
      Normalised allowAboveRoot (pushSegment out seg) (Z.of_nat (length seg)).

(** What [dots] holds while the loop reads a segment: the number of its
    characters as long as they are all dots, [-1] otherwise. *)
Definition countsDots (seg : list ascii) (d : Z) : Prop :=
  (d = -1 /\ ~ Forall (fun ch => ch = Path.dot) seg)
  \/ (d = Z.of_nat (length seg) /\ Forall (fun ch => ch = Path.dot) seg).

(** ** A concrete world

    A small Drive, disk and web to run the methods on. *)

Module Mock.

Record World := {
  persisted : SyncState;              (* the snapshot of the state manager *)
  driveFiles : gmap string bool;      (* Drive: file id to its trashed flag *)
  driveCounter : nat;                 (* files created so far *)
  driveUploadsFail : bool;            (* media uploads are rejected *)
  disk : gmap string string;          (* local files: path to bytes *)
  web : gmap string HttpResponse;     (* what each address serves *)
  sharpInstalled : bool;
  clock : Z
}.

Definition setPersisted (s : SyncState) (w : World) : World :=
  {| persisted := s; driveFiles := driveFiles w; driveCounter := driveCounter w;
     driveUploadsFail := driveUploadsFail w; disk := disk w; web := web w;
     sharpInstalled := sharpInstalled w; clock := clock w |}.

Definition setDrive (files : gmap string bool) (counter : nat) (w : World) : World :=
  {| persisted := persisted w; driveFiles := files; driveCounter := counter;
     driveUploadsFail := driveUploadsFail w; disk := disk w; web := web w;
     sharpInstalled := sharpInstalled w; clock := clock w |}.

Definition setDisk (files : gmap string string) (w : World) : World :=
  {| persisted := persisted w; driveFiles := driveFiles w; driveCounter := driveCounter w;
     driveUploadsFail := driveUploadsFail w; disk := files; web := web w;
     sharpInstalled := sharpInstalled w; clock := clock w |}.

Definition orElse {A} (new old : option A) : option A :=
  match new with Some a => Some a | None => old end.

Definition mergeUploadResult (old new : UploadResult) : UploadResult :=
  {| url := url new; fileId := fileId new; fileName := fileName new;
     originalUrl := orElse (originalUrl new) (originalUrl old);
     size := orElse (size new) (size old); hash := hash new;
     webViewLink := orElse (webViewLink new) (webViewLink old);
     uploadedAt := uploadedAt new |}.

Definition mergeImages (old new : option (gmap string UploadResult))
  : option (gmap string UploadResult) :=
  match old, new with
  | Some o, Some n => Some (union_with (fun a b => Some (mergeUploadResult a b)) o n)
  | _, Some n => Some n
  | _, None => old
  end.

(** Modelled from the spec: the state manager (its source is not part of
    the files at hand).  [update(partial)] "performs a deep merge of the
    given partial structure into the persisted state" and rewrites the
    snapshot; [load()] returns the snapshot. *)
Definition deepMerge (old : SyncState) (partial : GoogleDriveState) : SyncState :=
  match googleDrive old with
  | None => {| googleDrive := Some partial |}
  | Some o =>
      {| googleDrive := Some
           {| st_imageFolderId := orElse (st_imageFolderId partial) (st_imageFolderId o);
              st_imageFolderName := orElse (st_imageFolderName partial) (st_imageFolderName o);
              st_createdAt := orElse (st_createdAt partial) (st_createdAt o);
              st_uploadedImages := mergeImages (st_uploadedImages o) (st_uploadedImages partial) |} |}
  end.

(** [new URL(address).pathname] for addresses of the shape
    [scheme://host/path?query#fragment]. *)
Fixpoint skipHost (rest : list ascii) : list ascii :=
  match rest with
  | c :: rest' => if bool_decide (c = "/"%char) then rest else skipHost rest'
  | [] => []
  end.

Fixpoint untilQuery (rest : list ascii) : list ascii :=
  match rest with
  | c :: rest' =>
      if (bool_decide (c = "?"%char) || bool_decide (c = "#"%char))%bool then []
      else c :: untilQuery rest'
  | [] => []
  end.

Definition pathname (address : string) : option string :=
  let l := Js.chars address in
  if bool_decide (take 8 l = Js.chars "https://") then
    match untilQuery (skipHost (drop 8 l)) with
    | [] => Some "/"
    | p => Some (Js.str p)
    end
  else None.

Definition env : Env World := {|
  loadState := fun w => (w, Ok (persisted w));
  updateState := fun partial w => (setPersisted (deepMerge (persisted w) partial) w, Ok tt);
  filesGet := fun file w =>
    match driveFiles w !! file with
    | Some t => (w, Ok {| trashed := t |})
    | None => (w, Throw ("File not found: " +:+ file))
    end;
  filesCreate := fun resource media w =>
    let fresh := "drive-" +:+ pretty (driveCounter w) in
    match media with
    | None => (setDrive (<[fresh := false]> (driveFiles w)) (S (driveCounter w)) w,
               Ok {| id := fresh; createdSize := None; createdWebViewLink := None |})
    | Some m =>
        if driveUploadsFail w then (w, Throw "The user's Drive storage quota has been exceeded.")
        else
          match disk w !! body m with
          | Some bytes =>
              (setDrive (<[fresh := false]> (driveFiles w)) (S (driveCounter w)) w,
               Ok {| id := fresh;
                     createdSize := Some (pretty (String.length bytes));
                     createdWebViewLink :=
                       Some ("https://drive.google.com/file/d/" +:+ fresh +:+ "/view") |})
          | None => (w, Throw ("ENOENT: no such file or directory, open '" +:+ body m +:+ "'"))
          end
    end;
  filesGetNoId := fun w => (w, "Missing required parameters: fileId");
  permissionsCreate := fun file role type w =>
    match driveFiles w !! file with
    | Some _ => (w, Ok tt)
    | None => (w, Throw ("File not found: " +:+ file))
    end;
  requireSharp := fun w =>
    if sharpInstalled w then (w, Ok tt) else (w, Throw "Cannot find module 'sharp'");
  sharpToFile := fun source target w =>
    match disk w !! source with
    | Some bytes => (setDisk (<[target := "PNG of " +:+ bytes]> (disk w)) w, Ok tt)
    | None => (w, Throw "Input file is missing")
    end;
  ensureDir := fun dir w => (w, Ok tt);
  pathExists := fun path w => (w, bool_decide (is_Some (disk w !! path)));
  readFile := fun path w =>
    match disk w !! path with
    | Some bytes => (w, Ok bytes)
    | None => (w, Throw ("ENOENT: no such file or directory, open '" +:+ path +:+ "'"))
    end;
  writeStream := fun path bytes w => (setDisk (<[path := bytes]> (disk w)) w, Ok tt);
  remove := fun path w => (setDisk (delete path (disk w)) w, Ok tt);
  httpGet := fun address w =>
    match web w !! address with
    | Some response => (w, Ok response)
    | None => (w, Throw "Request failed with status code 404")
    end;
  dateNow := fun w => (w, clock w);
  toISOString := fun w => (w, "2025-06-01T12:00:00.000Z");
  urlPathname := pathname;
  formatFileSize := fun size => match size with Some s => s +:+ " B" | None => "0 B" end
|}.

Definition logoBytes : string := "<png bytes of the logo>".

Definition world0 : World := {|
  persisted := {| googleDrive := None |};
  driveFiles := ∅;
  driveCounter := 0;
  driveUploadsFail := false;
  disk := {[ "/site/static/img/logo.png" := logoBytes;
             "/site/docs/img/logo-copy.png" := logoBytes;
             "/site/static/img/diagram.svg" := "<svg/>" ]};
  web := {[ "https://a.example/logo.png" := {| contentType := Some "image/png"; data := logoBytes |};
            "https://b.example/img/logo.png" := {| contentType := Some "image/png"; data := logoBytes |};
            "https://a.example/diagram.svg" := {| contentType := Some "image/svg+xml"; data := "<svg/>" |} ]};
  sharpInstalled := true;
  clock := 1717243200000
|}.

Definition client0 : Client World :=
  {| world := world0; projectRoot := "/site"; imageFolderId := None; uploadedImages := ∅ |}.



Definition exhaustQuota (w : World) : World :=
  {| persisted := persisted w; driveFiles := driveFiles w; driveCounter := driveCounter w;
     driveUploadsFail := true; disk := disk w; web := web w;
     sharpInstalled := sharpInstalled w; clock := clock w |}.

Definition uninstallSharp (w : World) : World :=
  {| persisted := persisted w; driveFiles := driveFiles w; driveCounter := driveCounter w;
     driveUploadsFail := driveUploadsFail w; disk := disk w; web := web w;
     sharpInstalled := false; clock := clock w |}.

End Mock.

(** ** Runs on the concrete world *)

Module Scenario.
Import Mock.

Definition urlA : string := "https://a.example/logo.png".
Definition urlB : string := "https://b.example/img/logo.png".
Definition tempA : string := "/site/.docusaurus/temp/remote-8c399fff.png".

(** A first session: the folder is made, then images are uploaded. *)
Definition folderRun := Eval vm_compute in ensureImageFolder env client0.
Definition clientA : Client World := folderRun.1.1.

Definition folderResource : FileMetadata :=
  {| name := "docflu-files-1717243200000";
     metaMimeType := Some "application/vnd.google-apps.folder";
     parents := [Some "root"] |}.

Definition folderFile : CreatedFile :=
  {| id := "drive-0"; createdSize := None; createdWebViewLink := None |}.

Definition remoteARun := Eval vm_compute in uploadRemoteImage env urlA clientA.
Definition clientB : Client World := remoteARun.1.1.
Definition remoteBRun := Eval vm_compute in uploadRemoteImage env urlB clientB.

Definition resourceA : FileMetadata :=
  {| name := "remote-8c399fff.png"; metaMimeType := None; parents := [Some "drive-0"] |}.

Definition mediaA : Media := {| mimeType := Js.VString "image/png"; body := tempA |}.

Definition fileA : CreatedFile :=
  {| id := "drive-1"; createdSize := Some "23";
     createdWebViewLink := Some "https://drive.google.com/file/d/drive-1/view" |}.

Definition recordedA : UploadResult :=
  {| url := "https://drive.google.com/uc?export=download&id=drive-1";
     fileId := "drive-1";
     fileName := "remote-8c399fff.png";
     originalUrl := Some urlA;
     size := Some "23";
     hash := "8c399ffff145311d0430bd5c51f091c7ccf90f20241c6851adec1c9bfd6c6604";
     webViewLink := Some "https://drive.google.com/file/d/drive-1/view";
     uploadedAt := "2025-06-01T12:00:00.000Z" |}.

Definition returnedA : UploadReturn := {| recorded := recordedA; cached := false |}.





(** No [sharp]: the conversion of an SVG. *)
Definition noSharpRun :=
  Eval vm_compute in
    convertImageForGoogleDocs env "/site/static/img/diagram.svg" None
      (withWorld (uninstallSharp world0) client0).

(** Drive rejects the upload of the download of [urlA]. *)
Definition quotaRun :=
  Eval vm_compute in
    uploadRemoteImage env urlA (withWorld (exhaustQuota (world clientA)) clientA).

End Scenario.

(** ** Runs on a world that fails *)

Module Faults.
Import Mock Scenario.

(** The world of [Mock] with a state file that cannot be written, a Drive
    that refuses to share, or a disk that does not let go of its files. *)
Definition faulty (stateReadOnly sharingDenied diskBusy : bool) : Env World := {|
  loadState := loadState env;
  updateState := fun partial w =>
    if stateReadOnly
    then (w, Throw "EROFS: read-only file system, open '/site/.docusaurus/sync-state.json'")
    else updateState env partial w;
  filesGet := filesGet env;
  filesGetNoId := filesGetNoId env;
  filesCreate := filesCreate env;
  permissionsCreate := fun file role type w =>
    if sharingDenied
    then (w, Throw "The user does not have sufficient permissions for this file.")
    else permissionsCreate env file role type w;
  requireSharp := requireSharp env;
  sharpToFile := sharpToFile env;
  ensureDir := ensureDir env;
  pathExists := pathExists env;
  readFile := readFile env;
  writeStream := writeStream env;
  remove := fun path w =>
    if diskBusy
    then (w, Throw ("EBUSY: resource busy or locked, unlink '" +:+ path +:+ "'"))
    else remove env path w;
  httpGet := httpGet env;
  dateNow := dateNow env;
  toISOString := toISOString env;
  urlPathname := urlPathname env;
  formatFileSize := formatFileSize env
|}.

Definition readOnlyState : Env World := faulty true false false.
Definition noSharing : Env World := faulty false true false.
Definition busyDisk : Env World := faulty false false true.

Definition readOnlyError : Exn :=
  "EROFS: read-only file system, open '/site/.docusaurus/sync-state.json'".
Definition noSharingError : Exn :=
  "The user does not have sufficient permissions for this file.".
Definition quotaError : Exn := "The user's Drive storage quota has been exceeded.".

Definition svgPath : string := "/site/static/img/diagram.svg".
Definition pngPath : string := "/site/.docusaurus/temp/diagram.png".

Definition initializeRun := Eval vm_compute in initialize env client0.
Definition readOnlyFolderRun := Eval vm_compute in ensureImageFolder readOnlyState client0.
Definition readOnlyUploadRun := Eval vm_compute in uploadRemoteImage readOnlyState urlA clientA.
Definition noSharingRun := Eval vm_compute in uploadRemoteImage noSharing urlA clientA.
Definition busyCleanupRun :=
  Eval vm_compute in cleanupTempFiles busyDisk tempA tempA quotaRun.1.1.
Definition convertRun := Eval vm_compute in convertImageForGoogleDocs env svgPath None clientA.
Definition svgRun := Eval vm_compute in uploadImage env svgPath None clientA.
Definition givenRun :=
  Eval vm_compute in uploadImage env "/site/static/img/logo.png" (Some "cafe") clientA.

(** The response to [urlA], and what the upload of [urlA] writes into the
    state. *)
Definition responseA : HttpResponse :=
  {| contentType := Some "image/png"; data := logoBytes |}.

Definition partialA : GoogleDriveState :=
  recordPartial (persisted (world clientA)) (Some "drive-0") (Sha256.hex urlA) recordedA.

End Faults.


(** * Properties *)

(** The proofs never compute a hash, a path or a MIME type of an unknown
    string. *)
Arguments Sha256.hex : simpl never.
Arguments Path.extname : simpl never.
Arguments Path.basename : simpl never.
Arguments Path.basenameExt : simpl never.
Arguments Path.join : simpl never.
Arguments Js.toLowerCase : simpl never.
Arguments Js.substring0 : simpl never.
Arguments Js.endsWith : simpl never.
Arguments Js.toString : simpl never.
Arguments getMimeType : simpl never.
Arguments getExtensionFromMimeType : simpl never.
Arguments String.append : simpl never.
Arguments tempDirOf : simpl never.
Arguments recordPartial : simpl never.

(** ** The library functions on examples *)

Example sha256_constants :
  take 2 Sha256.K = [0x428a2f98; 0x71374491]
  /\ drop 62 Sha256.K = [0xbef9a3f7; 0xc67178f2]
  /\ take 2 Sha256.H0 = [0x6a09e667; 0xbb67ae85]
  /\ drop 6 Sha256.H0 = [0x1f83d9ab; 0x5be0cd19].
Proof. vm_compute. auto. Qed.

Example sha256_abc :
  Sha256.hex "abc" = "ba7816bf8f01cfea414140de5dae2223b00361a396177a9cb410ff61f20015ad".
Proof. vm_compute. reflexivity. Qed.

Example sha256_empty :
  Sha256.hex "" = "e3b0c44298fc1c149afbf4c8996fb92427ae41e4649b934ca495991b7852b855".
Proof. vm_compute. reflexivity. Qed.

Example sha256_two_blocks :
  Sha256.hex "abcdbcdecdefdefgefghfghighijhijkijkljklmklmnlmnomnopnopq"
  = "248d6a61d20638b8e5c026930c3e6039a33ce45964ff2167f6ecedd419db06c1".
Proof. vm_compute. reflexivity. Qed.

Example extname_html : Path.extname "index.html" = ".html".
Proof. reflexivity. Qed.
Example extname_two : Path.extname "index.coffee.md" = ".md".
Proof. reflexivity. Qed.
Example extname_trailing_dot : Path.extname "index." = ".".
Proof. reflexivity. Qed.
Example extname_none : Path.extname "index" = "".
Proof. reflexivity. Qed.
Example extname_dotfile : Path.extname ".index" = "".
Proof. reflexivity. Qed.
Example extname_dotfile_ext : Path.extname ".index.md" = ".md".
Proof. reflexivity. Qed.
Example extname_dotdot : Path.extname "a/.." = "".
Proof. reflexivity. Qed.
Example extname_dir : Path.extname "/tmp/a.b/logo.SVG/" = ".SVG".
Proof. reflexivity. Qed.
Example basename_plain : Path.basename "/tmp/x/logo.svg" = "logo.svg".
Proof. reflexivity. Qed.
Example basename_ext : Path.basenameExt "/tmp/x/logo.svg" ".svg" = "logo".
Proof. reflexivity. Qed.
Example basename_case : Path.basenameExt "/tmp/x/logo.SVG" ".svg" = "logo.SVG".
Proof. reflexivity. Qed.

Example mime_of_file : getMimeType "/tmp/remote-0a1b2c3d.PNG" = Js.VString "image/png".
Proof. reflexivity. Qed.
Example mime_of_bare_extension : getMimeType ".png" = Js.VString "image/jpeg".
Proof. reflexivity. Qed.
Example extension_of_header_with_charset :
  getExtensionFromMimeType (Some "image/svg+xml; charset=utf-8") = Js.VString ".jpg".
Proof. reflexivity. Qed.
Example extension_of_inherited :
  getExtensionFromMimeType (Some "constructor") = Js.VInherited "constructor".
Proof. reflexivity. Qed.

(** ** Running a method step by step *)

Lemma backendCalls_app (a b : list Event) :
  backendCalls (a ++ b) = backendCalls a ++ backendCalls b.
Proof. apply List.filter_app. Qed.


Lemma uploadCalls_backendCalls (evs : list Event) :
  uploadCalls (backendCalls evs) = uploadCalls evs.
Proof.
  unfold uploadCalls, backendCalls.
  induction evs as [|ev evs IH]; [reflexivity|].
  destruct ev as [| | | ? [?|] ?| | | | | | | | | | | | |]; cbn; auto.
Qed.

Lemma withWorld_withWorld {W} (w w' : W) (c : Client W) :
  withWorld w (withWorld w' c) = withWorld w c.
Proof. reflexivity. Qed.

Lemma withWorld_world {W} (c : Client W) : withWorld (world c) c = c.
Proof. now destruct c. Qed.

(** Unfolding of the monad, and case analysis on the next answer of the
    world: the innermost scrutinee that is not yet a constructor. *)
Ltac unfoldMonad :=
  unfold bind, tryCatch, await, ask, console, ret, throw, getImageFolderId,
    setImageFolderId, getUploadedImage, setUploadedImage, getProjectRoot in *.

Ltac scrutinee x k :=
  lazymatch x with
  | context [match ?y with _ => _ end] => scrutinee y k
  | _ => k x
  end.

Ltac caseOn x := scrutinee x ltac:(fun y => destruct y eqn:?).

Ltac nextCase :=
  match goal with
  | |- context [match ?x with _ => _ end] => caseOn x
  | H : context [match ?x with _ => _ end] |- _ => caseOn x
  end.

Ltac runAll := repeat (cbn beta iota zeta in *; try nextCase).

(** ** Digests and records *)

Lemma hexDigit_hex (y : Z) : isHexDigit (Sha256.hexDigit (Z.land y 0xf)) = true.
Proof.
  change 0xf with (Z.ones 4). rewrite Z.land_ones by lia.
  pose proof (Z.mod_pos_bound y (2 ^ 4) eq_refl) as Hd.
  set (d := y mod 2 ^ 4) in *.
  assert (Hcases : In d [0; 1; 2; 3; 4; 5; 6; 7; 8; 9; 10; 11; 12; 13; 14; 15])
    by (cbn; change (2 ^ 4) with 16 in Hd; lia).
  cbn in Hcases.
  repeat (destruct Hcases as [<-|Hcases]; [reflexivity|]).
  contradiction.
Qed.

Lemma hex_digits (data : string) : forallb isHexDigit (Js.chars (Sha256.hex data)) = true.
Proof.
  unfold Sha256.hex, Js.chars, Js.str. rewrite list_ascii_of_string_of_list_ascii.
  apply forallb_forall. intros ch Hch.
  apply in_concat in Hch as (word & Hword & Hch).
  apply in_map_iff in Hword as (x & <- & _).
  unfold Sha256.hexWord in Hch.
  apply in_map_iff in Hch as (i & <- & _). apply hexDigit_hex.
Qed.

(** A digest is never the name of a member of [Object.prototype]. *)
Lemma hex_never_inherited (data : string) : Sha256.hex data ∉ Js.objectPrototypeNames.
Proof.
  intros Hin. pose proof (hex_digits data) as Hd.
  unfold Js.objectPrototypeNames in Hin.
  repeat (apply elem_of_cons in Hin as [Hin|Hin];
          [rewrite Hin in Hd; vm_compute in Hd; discriminate Hd|]).
  now apply elem_of_nil in Hin.
Qed.

Lemma recordedImage_own (s : SyncState) (h : string) (u : UploadResult) :
  recordedImage s h = Some (OwnRecord u) <-> stateUploadedImage s h = Some u.
Proof.
  unfold recordedImage, stateUploadedImage.
  destruct (stateUploadedImages s) as [images|]; cbn; [|split; discriminate].
  destruct (images !! h); [split; congruence|].
  destruct (bool_decide _); split; discriminate.
Qed.

Lemma recordedImage_inherited (s : SyncState) (h name : string) :
  recordedImage s h = Some (InheritedMember name) ->
  stateUploadedImage s h = None /\ h ∈ Js.objectPrototypeNames.
Proof.
  unfold recordedImage, stateUploadedImage.
  destruct (stateUploadedImages s) as [images|]; cbn; [|discriminate].
  destruct (images !! h); [discriminate|].
  case_bool_decide; [auto|discriminate].
Qed.

Lemma recordedImage_none (s : SyncState) (h : string) :
  recordedImage s h = None -> stateUploadedImage s h = None.
Proof.
  unfold recordedImage, stateUploadedImage.
  destruct (stateUploadedImages s) as [images|]; cbn; [|reflexivity].
  destruct (images !! h); [discriminate|reflexivity].
Qed.

Lemma hex_not_an_inherited_record (s : SyncState) (data name : string) :
  recordedImage s (Sha256.hex data) <> Some (InheritedMember name).
Proof.
  intros H. apply recordedImage_inherited in H as [_ H].
  exact (hex_never_inherited _ H).
Qed.

(** What the state holds under the key, in terms of its own records. *)
Ltac records :=
  repeat match goal with
    | H : recordedImage _ (Sha256.hex _) = Some (InheritedMember _) |- _ =>
        exfalso; exact (hex_not_an_inherited_record _ _ _ H)
    | H : recordedImage _ _ = Some (OwnRecord _) |- _ => apply recordedImage_own in H
    | H : recordedImage _ _ = Some (InheritedMember _) |- _ =>
        apply recordedImage_inherited in H as [H _]
    | H : recordedImage _ _ = None |- _ => apply recordedImage_none in H
    end.

Ltac notInherited :=
  try match goal with
      | H : recordedImage _ (Sha256.hex _) = Some (InheritedMember _) |- _ =>
          exfalso; exact (hex_not_an_inherited_record _ _ _ H)
      end.

Section Conversion.
Context {W : Type} (env : Env W).

(** The conversion never throws, leaves the fields of the client alone and
    makes no backend call; when one of its steps fails, it warns and answers
    the path it was given. *)
Lemma convert_total (imagePath : string) (contentType : option string) (c : Client W) :
  exists w evs p,
    convertImageForGoogleDocs env imagePath contentType c = (withWorld w c, evs, Ok p)
    /\ backendCalls evs = []
    /\ (existsb isFailedConversionStep evs = true ->
        p = imagePath /\ existsb isWarning evs = true).
Proof.
  unfold convertImageForGoogleDocs.
  destruct (negb _).
  - exists (world c), [], imagePath. unfoldMonad. rewrite withWorld_world. auto with *.
  - unfoldMonad. runAll; subst; simplify_eq; cbn;
      rewrite ?withWorld_withWorld;
      (do 3 eexists; split; [reflexivity|]; split; [reflexivity|]);
      cbn; intros; (discriminate || auto).
Qed.

End Conversion.

Lemma truthy_Some (v : option string) :
  Js.truthy v = true -> exists s, v = Some s /\ s <> "".
Proof.
  destruct v as [s|]; cbn; [|discriminate].
  intros H. exists s. split; [reflexivity|].
  intros ->. discriminate.
Qed.

Section Uploads.
Context {W : Type} (env : Env W).

Lemma ensureImageFolder_ensured (c c' : Client W) (evs : list Event) (folderId : string) :
  ensureImageFolder env c = (c', evs, Ok folderId) ->
  Ensured (imageFolderId c') (backendCalls evs) folderId.
Proof.
  intros H. unfold ensureImageFolder in H. unfoldMonad.
  repeat (cbn beta iota zeta in H;
          cbn [world projectRoot imageFolderId uploadedImages withWorld] in H;
          try discriminate H;
          lazymatch type of H with context [match ?x with _ => _ end] => caseOn x end).
  all: inversion H; subst; clear H; unfold backendCalls;
    cbn [List.filter isBackendCall app imageFolderId withWorld] in *.
  all: repeat match goal with
         | a : unit |- _ => destruct a
         | H : negb ?b = _ |- _ => destruct b eqn:?; try discriminate H; clear H
         | H : Js.truthy ?v = true |- _ =>
             let s := fresh "s" in
             let Hs := fresh "Hs" in
             destruct (truthy_Some _ H) as (s & Hs & ?); clear H; rewrite ?Hs
         end.
  all: simplify_eq; cbn [imageFolderId withWorld default from_option Datatypes.id] in *.
  all: try solve [econstructor; unfold isFolderRecord, gone; cbn; eauto].
Qed.

Lemma cleanup_total (tempFilePath processedImagePath : string) (c : Client W) :
  exists w evs,
    cleanupTempFiles env tempFilePath processedImagePath c = (withWorld w c, evs, Ok tt)
    /\ backendCalls evs = [].
Proof.
  unfold cleanupTempFiles. unfoldMonad.
  runAll; subst; simplify_eq; cbn; rewrite ?withWorld_withWorld;
    repeat match goal with a : unit |- _ => destruct a end;
    try (do 2 eexists; split; reflexivity).
  all: destruct c; do 2 eexists; split; reflexivity.
Qed.

(** Case analysis as before, with the conversion and the clean-up taken
    as wholes. *)
Ltac nextCall H :=
  lazymatch type of H with
  | context [convertImageForGoogleDocs env ?p ?t ?c] =>
      let Heq := fresh "Hconvert" in
      let Hquiet := fresh "Hquiet" in
      destruct (convert_total env p t c) as (? & ? & ? & Heq & Hquiet & _);
      unfold backendCalls in Hquiet;
      rewrite Heq in H
  | context [cleanupTempFiles env ?p ?t ?c] =>
      let Heq := fresh "Hcleanup" in
      let Hquiet := fresh "Hquiet" in
      destruct (cleanup_total p t c) as (? & ? & Heq & Hquiet);
      unfold backendCalls in Hquiet;
      rewrite Heq in H; clear Heq
  | context [match ?x with _ => _ end] => caseOn x
  end.

Ltac runCalls H :=
  repeat (cbn beta iota zeta in H; try discriminate H; notInherited; nextCall H).

Ltac quiet :=
  unfold backendCalls;
  repeat first
    [ progress cbn [List.filter isBackendCall app]
    | rewrite List.filter_app
    | match goal with H : List.filter isBackendCall _ = [] |- _ => rewrite H end ].

Ltac flags :=
  repeat match goal with
    | a : unit |- _ => destruct a
    | H : negb ?b = _ |- _ => destruct b eqn:?; try discriminate H; clear H
    end.

Ltac resolved :=
  split;
  [ econstructor; unfold isFresh, gone; cbn [url fileId hash size webViewLink]; eauto 10
  | reflexivity ].

Lemma uploadRemoteImage_resolved (imageUrl : string) (c c' : Client W)
    (evs : list Event) (r : UploadReturn) :
  uploadRemoteImage env imageUrl c = (c', evs, Ok r) ->
  Resolved (Sha256.hex imageUrl) (uploadedImages c) (uploadedImages c') (backendCalls evs) r
  /\ imageFolderId c' = imageFolderId c.
Proof.
  intros H. unfold uploadRemoteImage, adoptRecorded, pathnameOf in H. unfoldMonad.
  runCalls H.
  all: inversion H; subst; clear H; quiet; flags; records; try resolved.
Qed.

Lemma uploadImage_resolved (imagePath : string) (given : option string)
    (c c' : Client W) (evs : list Event) (r : UploadReturn) :
  uploadImage env imagePath given c = (c', evs, Ok r) ->
  exists h,
    hashedAs env imagePath given c h
    /\ Resolved h (uploadedImages c) (uploadedImages c') (backendCalls evs) r
    /\ imageFolderId c' = imageFolderId c.
Proof.
  intros H. unfold uploadImage, adoptRecorded in H. unfoldMonad.
  runCalls H.
  all: inversion H; subst; clear H; quiet; flags; records.
  all: eexists; split;
    [ unfold hashedAs; do 3 eexists; split; [eassumption|];
      match goal with H : Js.truthy _ = _ |- _ => rewrite H end; eauto
    | try resolved ].
Qed.



Lemma resolve_resolved (ref : AssetRef) (c c' : Client W) (evs : list Event)
    (r : UploadReturn) :
  resolve env ref c = (c', evs, Ok r) ->
  exists h,
    keyOf env ref c h
    /\ Resolved h (uploadedImages c) (uploadedImages c') (backendCalls evs) r
    /\ imageFolderId c' = imageFolderId c.
Proof.
  destruct ref as [imagePath given|imageUrl]; cbn [resolve keyOf]; intros H.
  - now apply uploadImage_resolved.
  - exists (Sha256.hex imageUrl). split; [reflexivity|].
    now apply uploadRemoteImage_resolved.
Qed.

(** A key that is in the session cache is answered from it. *)
Lemma resolve_hit (ref : AssetRef) (c : Client W) (h : string) (u : UploadResult) :
  keyOf env ref c h ->
  uploadedImages c !! h = Some u ->
  exists w evs,
    resolve env ref c = (withWorld w c, evs, Ok {| recorded := u; cached := true |})
    /\ backendCalls evs = [].
Proof.
  destruct ref as [imagePath given|imageUrl]; cbn [resolve keyOf].
  - intros (w & evs & p & Hc & Hh) Hu.
    pose proof (convert_total env imagePath None c) as (w0 & evs0 & p0 & Hc0 & Hq & _).
    rewrite Hc in Hc0. inversion Hc0; subst evs0 p0. clear Hc0.
    unfold uploadImage. unfoldMonad. rewrite Hc.
    destruct (Js.truthy given) eqn:Ht; cbn [negb world withWorld uploadedImages].
    + subst h. rewrite Hu.
      exists w, (evs ++ [] ++ [] ++ []). split; [reflexivity|].
      rewrite !backendCalls_app, Hq. reflexivity.
    + destruct Hh as (w' & bytes & Hr & ->).
      rewrite Hr. cbn [negb world withWorld uploadedImages].
      rewrite Hu.
      exists w', (evs ++ ([EvReadFile p (Ok bytes)] ++ []) ++ [] ++ []).
      split; [reflexivity|].
      rewrite !backendCalls_app, Hq. reflexivity.
  - intros -> Hu. unfold uploadRemoteImage. unfoldMonad. rewrite Hu.
    exists (world c), []. rewrite withWorld_world. split; reflexivity.
Qed.


Lemma Resolved_uploads (h : string) (before after : gmap string UploadResult)
    (calls : list Event) (r : UploadReturn) :
  Resolved h before after calls r ->
  uploadCalls calls = if cached r then 0%nat else 1%nat.
Proof. intros []; reflexivity. Qed.

End Uploads.

(** ** The claims *)

Lemma In_backendCalls (ev : Event) (evs : list Event) :
  In ev evs -> isBackendCall ev = true -> In ev (backendCalls evs).
Proof. intros. apply List.filter_In. auto. Qed.

Lemma uploadCalls_zero_no_upload (evs : list Event) resource media answer :
  uploadCalls evs = 0%nat -> ~ In (EvFilesCreate resource (Some media) answer) evs.
Proof.
  unfold uploadCalls. intros Hz Hin.
  assert (Hf : In (EvFilesCreate resource (Some media) answer) (List.filter isUpload evs))
    by (apply List.filter_In; auto).
  destruct (List.filter isUpload evs); [inversion Hf | discriminate].
Qed.

(** Membership in a list of events written out: one case per element. *)
Ltac whichEvent H :=
  repeat (destruct H as [H|H]; [try discriminate H; try (inversion H; subst; clear H)|]);
  try contradiction.

Section Claims.
Context {W : Type} (env : Env W).

(** C5. A request whose key is already in the session cache returns the
    cached object, marked [cached], and makes no backend call: no state
    read or write, no existence check, no upload, no permission change.
    For a remote image nothing at all is called. *)
Theorem session_cache_hit_makes_no_backend_call (ref : AssetRef) (c : Client W)
    (h : string) (u : UploadResult) :
  keyOf env ref c h ->
  uploadedImages c !! h = Some u ->
  exists c' evs,
    resolve env ref c = (c', evs, Ok {| recorded := u; cached := true |})
    /\ backendCalls evs = []
    /\ uploadedImages c' = uploadedImages c
    /\ (forall imageUrl, ref = RemoteUrl imageUrl -> evs = [] /\ c' = c).
Proof.
  intros Hkey Hu.
  destruct (resolve_hit env ref c h u Hkey Hu) as (w & evs & Hrun & Hq).
  exists (withWorld w c), evs.
  split; [assumption|]. split; [assumption|]. split; [reflexivity|].
  intros imageUrl ->. cbn [resolve keyOf] in *. subst h.
  unfold uploadRemoteImage in Hrun. unfoldMonad. rewrite Hu in Hrun.
  inversion Hrun as [[Hc He]]. rewrite Hc. auto.
Qed.


(** C10. On every successful return, [cached] is [true] exactly when the
    invocation made no upload call (the object came from the session cache,
    or from the state after Drive confirmed that the file is not trashed),
    and [false] exactly when a new remote file was created, whose id the
    returned object carries. *)
Theorem cached_flag_tells_whether_uploaded (ref : AssetRef) (c c' : Client W)
    (evs : list Event) (r : UploadReturn) :
  resolve env ref c = (c', evs, Ok r) ->
  (cached r = true <-> uploadCalls evs = 0%nat)
  /\ (cached r = false <->
      exists resource media file,
        In (EvFilesCreate resource (Some media) (Ok file)) evs
        /\ fileId (recorded r) = id file)
  /\ (cached r = true ->
      backendCalls evs = []
      \/ exists s f,
           backendCalls evs = [EvLoadState (Ok s); EvFilesGet (fileId (recorded r)) (Ok f)]
           /\ trashed f = false).
Proof.
  intros Hrun.
  destruct (resolve_resolved env _ _ _ _ _ Hrun) as (h & _ & Hres & _).
  pose proof (Resolved_uploads _ _ _ _ _ Hres) as Hcount.
  rewrite uploadCalls_backendCalls in Hcount.
  split; [|split].
  - rewrite Hcount. destruct (cached r); split; congruence.
  - split.
    + intros Hfalse.
      assert (Hin : forall ev, In ev (backendCalls evs) -> In ev evs)
        by (intros ev Hev; now apply List.filter_In in Hev).
      destruct Hres as [| |? ? ? ? file ? ? _ _ (_ & Hid & _) _
                          |? ? ? ? ? ? file ? ? _ _ _ (_ & Hid & _) _];
        try discriminate Hfalse; cbn [recorded];
        do 3 eexists; (split; [apply Hin; cbn; eauto 10 | exact Hid]).
    + intros (resource & media & file & Hin & _).
      destruct (cached r) eqn:Hc; [|reflexivity].
      exfalso. revert Hin. now apply uploadCalls_zero_no_upload.
  - intros Htrue. destruct Hres; try discriminate Htrue; cbn [recorded]; eauto.
Qed.

(** C8. When an upload method returns after creating a remote file, the
    call that follows the creation has made that file readable by anyone
    ([role: 'reader'], [type: 'anyone']), and the returned [url] is the
    direct-download address of the id Drive gave to the new file. *)
Theorem new_upload_is_made_public (ref : AssetRef) (c c' : Client W)
    (evs : list Event) (r : UploadReturn)
    (resource : FileMetadata) (media : option Media) (file : CreatedFile) :
  resolve env ref c = (c', evs, Ok r) ->
  In (EvFilesCreate resource media (Ok file)) evs ->
  url (recorded r) = "https://drive.google.com/uc?export=download&id=" +:+ id file
  /\ fileId (recorded r) = id file
  /\ exists pre post,
       backendCalls evs =
         pre ++ EvFilesCreate resource media (Ok file)
             :: EvPermissionsCreate (id file) "reader" "anyone" (Ok tt) :: post.
Proof.
  intros Hrun Hin.
  destruct (resolve_resolved env _ _ _ _ _ Hrun) as (h & _ & Hres & _).
  apply In_backendCalls in Hin; [|reflexivity].
  destruct Hres as [| |? ? ? ? ? ? ? _ _ (Hurl & Hid & _) _
                      |? ? ? ? ? ? ? ? ? _ _ _ (Hurl & Hid & _) _];
    cbn [recorded] in *; whichEvent Hin.
  - repeat split; auto. exists [EvLoadState (Ok s)]. eexists. reflexivity.
  - repeat split; auto.
    exists [EvLoadState (Ok s); EvFilesGet (fileId u) answer]. eexists. reflexivity.
Qed.

(** C4. Each of the three operations that create a remote resource writes
    the id of what it created into the state before it returns: when the
    operation returns, its last backend call is an [updateState] that
    succeeded, made after the creation, whose argument carries the new id
    (as [imageFolderId] for the folder, in the entry of the image's key for
    an upload). *)
Theorem created_ids_are_persisted (c c' : Client W) (evs : list Event)
    (resource : FileMetadata) (media : option Media) (file : CreatedFile) :
  In (EvFilesCreate resource media (Ok file)) evs ->
  (forall folderId,
      ensureImageFolder env c = (c', evs, Ok folderId) ->
      exists pre partial,
        backendCalls evs = pre ++ [EvUpdateState partial (Ok tt)]
        /\ In (EvFilesCreate resource media (Ok file)) pre
        /\ st_imageFolderId partial = Some (id file)
        /\ folderId = id file)
  /\ (forall ref r,
      resolve env ref c = (c', evs, Ok r) ->
      exists pre partial h,
        backendCalls evs = pre ++ [EvUpdateState partial (Ok tt)]
        /\ In (EvFilesCreate resource media (Ok file)) pre
        /\ st_uploadedImages partial ≫= (fun images => images !! h) = Some (recorded r)
        /\ fileId (recorded r) = id file).
Proof.
  intros Hin. apply In_backendCalls in Hin; [|reflexivity]. split.
  - intros folderId Hrun.
    pose proof (ensureImageFolder_ensured env _ _ _ _ Hrun) as Hens.
    destruct Hens as [|? ? ? ? ? _ (Hid & _) _|? ? ? ? ? ? ? _ _ _ (Hid & _) _];
      whichEvent Hin.
    + refine (ex_intro _ [_; _; _; _] _). eexists.
      split; [reflexivity|]. cbn. auto 10.
    + refine (ex_intro _ [_; _; _; _; _] _). eexists.
      split; [reflexivity|]. cbn. auto 10.
  - intros ref r Hrun.
    destruct (resolve_resolved env _ _ _ _ _ Hrun) as (h & _ & Hres & _).
    destruct Hres as [| |? ? ? ? ? ? ? _ _ (_ & Hid & _) _
                        |? ? ? ? ? ? ? ? ? _ _ _ (_ & Hid & _) _];
      cbn [recorded] in *; whichEvent Hin.
    + refine (ex_intro _ [_; _; _; _] _). do 2 eexists.
      split; [reflexivity|]. split; [cbn; auto 10|].
      split; [|exact Hid]. cbn. apply lookup_insert_eq.
    + refine (ex_intro _ [_; _; _; _; _] _). do 2 eexists.
      split; [reflexivity|]. split; [cbn; auto 10|].
      split; [|exact Hid]. cbn. apply lookup_insert_eq.
Qed.




(** C7. [convertImageForGoogleDocs] never throws.  When one of the steps of
    the conversion fails ([sharp] cannot be loaded, the temporary directory
    cannot be made, the conversion throws, the PNG is not there afterwards),
    it warns on the console and answers the path of the original file,
    so that the caller goes on with the original. *)
Theorem conversion_failure_falls_back (imagePath : string) (contentType : option string)
    (c c' : Client W) (evs : list Event) (r : Result string) :
  convertImageForGoogleDocs env imagePath contentType c = (c', evs, r) ->
  (exists processed, r = Ok processed)
  /\ (existsb isFailedConversionStep evs = true ->
      r = Ok imagePath /\ existsb isWarning evs = true)
  /\ backendCalls evs = []
  /\ uploadedImages c' = uploadedImages c.
Proof.
  intros Hrun.
  destruct (convert_total env imagePath contentType c) as (w & evs0 & p & Heq & Hq & Hfail).
  rewrite Heq in Hrun. inversion Hrun; subst. clear Hrun.
  split; [eauto|]. split; [|split; [assumption|reflexivity]].
  intros Hf. destruct (Hfail Hf) as [-> Hw]. auto.
Qed.

End Claims.

(** ** Extensions and MIME types *)

Section Extname.

Lemma chars_str (l : list ascii) : Js.chars (Js.str l) = l.
Proof. apply list_ascii_of_string_of_list_ascii. Qed.

Lemma str_chars (s : string) : Js.str (Js.chars s) = s.
Proof. apply string_of_list_ascii_of_string. Qed.

(** The loop over the characters of an extension that holds neither a dot
    nor a slash: once the end of the component is known, nothing changes. *)
Lemma extnameLoop_extension (xs rest : list ascii) (i n : Z) :
  n <> -1 ->
  Forall (fun c => c <> Path.slash /\ c <> Path.dot) xs ->
  Path.extnameLoop (xs ++ rest) i (Path.Scan (-1) 0 n false 0)
  = Path.extnameLoop rest (i - Z.of_nat (length xs)) (Path.Scan (-1) 0 n false 0).
Proof.
  intros Hn Hxs. revert i.
  induction Hxs as [|x xs [Hs Hd] _ IH]; intros i.
  - cbn. f_equal. lia.
  - cbn [app Path.extnameLoop length].
    rewrite !bool_decide_eq_false_2 by assumption.
    cbn [Path.end_ Path.startDot negb].
    destruct (n =? -1) eqn:E; [apply Z.eqb_eq in E; contradiction|].
    cbn [Path.startDot Z.eqb negb]. rewrite IH. f_equal. lia.
Qed.

(** The loop over the characters before the last dot, up to the start of
    the component: only [preDotState] moves, and away from [0]. *)
Lemma extnameLoop_stem (xs rest : list ascii) (i d n p : Z) :
  d <> -1 -> n <> -1 ->
  Forall (fun c => c <> Path.slash) xs ->
  exists p',
    Path.extnameLoop (xs ++ rest) i (Path.Scan d 0 n false p)
    = Path.extnameLoop rest (i - Z.of_nat (length xs)) (Path.Scan d 0 n false p')
    /\ (p <> 0 -> p' <> 0)
    /\ (xs <> [] -> p' <> 0).
Proof.
  intros Hd Hn Hxs. revert i p.
  induction Hxs as [|x xs Hs _ IH]; intros i p.
  - exists p. cbn. split; [f_equal; lia|]. split; [auto|congruence].
  - cbn [app Path.extnameLoop length].
    rewrite (bool_decide_eq_false_2 _ Hs).
    cbn [Path.end_ Path.startDot Path.preDotState Path.startPart Path.matchedSlash].
    destruct (n =? -1) eqn:En; [apply Z.eqb_eq in En; contradiction|].
    destruct (d =? -1) eqn:Ed; [apply Z.eqb_eq in Ed; contradiction|].
    cbn [Path.end_ Path.startDot Path.preDotState Path.startPart Path.matchedSlash negb].
    rewrite Ed. cbn [negb].
    destruct (bool_decide (x = Path.dot)).
    + destruct (p =? 1) eqn:Ep; cbn [negb].
      * apply Z.eqb_eq in Ep. subst p.
        destruct (IH (i - 1) 1) as (p' & Heq & Hp & _).
        exists p'. split; [rewrite Heq; f_equal; lia|]. split; intros _; apply Hp; lia.
      * destruct (IH (i - 1) 1) as (p' & Heq & Hp & _).
        exists p'. split; [rewrite Heq; f_equal; lia|]. split; intros _; apply Hp; lia.
    + destruct (IH (i - 1) (-1)) as (p' & Heq & Hp & _).
      exists p'. split; [rewrite Heq; f_equal; lia|]. split; intros _; apply Hp; lia.
Qed.

Lemma extnameLoop_last_char (x : ascii) (rest : list ascii) (i : Z) :
  x <> Path.slash -> x <> Path.dot ->
  Path.extnameLoop (x :: rest) i Path.scanInit
  = Path.extnameLoop rest (i - 1) (Path.Scan (-1) 0 (i + 1) false 0).
Proof.
  intros Hs Hd. cbn [Path.extnameLoop].
  rewrite !bool_decide_eq_false_2 by assumption. reflexivity.
Qed.

Lemma extnameLoop_first_dot (rest : list ascii) (i n : Z) :
  n <> -1 ->
  Path.extnameLoop (Path.dot :: rest) i (Path.Scan (-1) 0 n false 0)
  = Path.extnameLoop rest (i - 1) (Path.Scan i 0 n false 0).
Proof.
  intros Hn. cbn [Path.extnameLoop].
  rewrite bool_decide_eq_false_2 by discriminate.
  rewrite bool_decide_eq_true_2 by reflexivity.
  cbn [Path.end_]. destruct (n =? -1) eqn:En; [apply Z.eqb_eq in En; contradiction|].
  reflexivity.
Qed.

Lemma extnameLoop_break (rest : list ascii) (i d sp n p : Z) :
  Path.extnameLoop (Path.slash :: rest) i (Path.Scan d sp n false p)
  = Path.Scan d (i + 1) n false p.
Proof.
  cbn [Path.extnameLoop]. rewrite bool_decide_eq_true_2 by reflexivity. reflexivity.
Qed.

(** [path.extname] of a file name made of a non-empty stem, a dot and an
    extension without dots. *)
Lemma extname_of_file_name (before stem e : list ascii) :
  atComponentStart before ->
  stem <> [] ->
  Forall (fun c => c <> Path.slash) stem ->
  e <> [] ->
  Forall (fun c => c <> Path.slash /\ c <> Path.dot) e ->
  Path.extname (Js.str (before ++ stem ++ Path.dot :: e)) = Js.str (Path.dot :: e).
Proof.
  intros Hstart Hstem Hstem_ok He He_ok.
  unfold Path.extname. rewrite chars_str.
  set (l := before ++ stem ++ Path.dot :: e).
  set (n := Z.of_nat (length l)).
  set (d := Z.of_nat (length (before ++ stem))).
  assert (Hlen : n = d + 1 + Z.of_nat (length e)).
  { unfold n, d, l. repeat rewrite length_app. cbn [length]. lia. }
  assert (Hrev : rev l = rev e ++ Path.dot :: rev stem ++ rev before).
  { unfold l. rewrite !rev_app_distr. cbn [rev].
    now rewrite <- !app_assoc. }
  assert (He1 : exists x xs, rev e = x :: xs).
  { destruct (rev e) as [|x xs] eqn:E; [|eauto].
    apply (f_equal (@rev ascii)) in E. rewrite rev_involutive in E. now subst. }
  destruct He1 as (x & xs & Hx).
  assert (Hxs_ok : Forall (fun c => c <> Path.slash /\ c <> Path.dot) (x :: xs)).
  { rewrite <- Hx. apply List.Forall_forall. intros c Hc.
    apply in_rev in Hc. revert c Hc. now apply List.Forall_forall. }
  inversion Hxs_ok as [|? ? [Hxs Hxd] Hxs_ok']; subst.
  assert (Hd0 : 0 <= d) by (unfold d; lia).
  assert (Hstem_len : (0 < length stem)%nat) by (destruct stem; [congruence|cbn; lia]).
  assert (Hloop : exists sp p',
             Path.extnameLoop (rev l) (n - 1) Path.scanInit = Path.Scan d sp n false p'
             /\ p' <> 0).
  { rewrite Hrev, Hx. cbn [app].
    rewrite extnameLoop_last_char by assumption.
    replace (n - 1 + 1) with n by lia.
    rewrite extnameLoop_extension by (assumption || lia).
    rewrite extnameLoop_first_dot by lia.
    assert (Hi : n - 1 - 1 - Z.of_nat (length xs) = d).
    { assert (length e = S (length xs))
        by (rewrite <- length_rev, Hx; reflexivity). lia. }
    rewrite Hi.
    destruct (extnameLoop_stem (rev stem) (rev before) (d - 1) d n 0) as (p' & Heq & _ & Hp).
    { lia. } { lia. }
    { apply List.Forall_forall. intros c Hc. apply in_rev in Hc. revert c Hc.
      now apply List.Forall_forall. }
    rewrite Heq.
    assert (Hp' : p' <> 0).
    { apply Hp. intros E. apply (f_equal (@length ascii)) in E.
      rewrite length_rev in E. cbn in E. lia. }
    destruct Hstart as [->|(dir & ->)].
    - cbn [rev Path.extnameLoop]. eauto.
    - rewrite rev_app_distr. cbn [rev app].
      rewrite extnameLoop_break. eauto. }
  destruct Hloop as (sp & p' & -> & Hp').
  cbn [Path.startDot Path.end_ Path.preDotState Path.startPart].
  destruct (d =? -1) eqn:Ed; [apply Z.eqb_eq in Ed; lia|].
  destruct (n =? -1) eqn:En; [apply Z.eqb_eq in En; lia|].
  destruct (p' =? 0) eqn:Ep; [apply Z.eqb_eq in Ep; lia|].
  destruct (d =? n - 1) eqn:Edn; [apply Z.eqb_eq in Edn; destruct e; [congruence|cbn in Hlen; lia]|].
  rewrite andb_false_r. cbn [orb andb].
  f_equal. unfold Js.slice.
  replace (Z.to_nat d) with (length (before ++ stem)) by (unfold d; lia).
  unfold l. rewrite app_assoc, drop_app_length.
  apply take_ge. cbn [length]. lia.
Qed.

Lemma extnameLoop_dotFound (l pending suffix : list ascii) (i : Z) (v : Path.scan) :
  l = rev pending ++ suffix ->
  i = Z.of_nat (length pending) - 1 ->
  dotFound l v ->
  (Path.end_ v = -1 \/ i < Path.end_ v) ->
  dotFound l (Path.extnameLoop pending i v).
Proof.
  revert suffix i v.
  induction pending as [|code before IH]; intros suffix i v Hl Hi Hv Hend; [exact Hv|].
  cbn [rev] in Hl. rewrite <- app_assoc in Hl. cbn [app] in Hl.
  cbn [length] in Hi.
  assert (Hcode : l !! Z.to_nat i = Some code).
  { subst l. replace (Z.to_nat i) with (length (rev before)) by (rewrite length_rev; lia).
    now rewrite list_lookup_middle. }
  cbn [Path.extnameLoop].
  destruct (bool_decide (code = Path.slash)).
  - destruct (negb (Path.matchedSlash v)).
    + exact Hv.
    + apply (IH (code :: suffix)); [assumption|lia|assumption|lia].
  - set (v1 := if Path.end_ v =? -1 then _ else v).
    assert (Hv1 : dotFound l v1 /\ i < Path.end_ v1 /\ Path.end_ v1 <> -1).
    { unfold v1. destruct (Path.end_ v =? -1) eqn:E.
      - apply Z.eqb_eq in E. cbn. split; [|lia].
        destruct Hv as [Hv|[Hv _]]; [now left|lia].
      - apply Z.eqb_neq in E. split; [assumption|]. lia. }
    destruct Hv1 as (Hv1 & Hend1 & Hne1).
    match goal with |- dotFound l (Path.extnameLoop _ _ ?x) => set (v2 := x) end.
    assert (Hv2 : dotFound l v2 /\ Path.end_ v2 = Path.end_ v1).
    { unfold v2. destruct (bool_decide (code = Path.dot)) eqn:Hdot.
      - apply bool_decide_eq_true_1 in Hdot. subst code.
        destruct (Path.startDot v1 =? -1) eqn:E.
        + split; [|reflexivity]. right. cbn. split; [lia|assumption].
        + destruct (negb (Path.preDotState v1 =? 1)); split; auto.
      - destruct (negb (Path.startDot v1 =? -1)); split; auto. }
    destruct Hv2 as (Hv2 & Hend2).
    apply (IH (code :: suffix)); [assumption|lia|assumption|lia].
Qed.

(** [path.extname] answers the empty string or a string that starts with a
    dot. *)
Lemma extname_shape (p : string) :
  Path.extname p = "" \/ exists rest, Path.extname p = String Path.dot rest.
Proof.
  unfold Path.extname.
  set (l := Js.chars p).
  set (v := Path.extnameLoop (rev l) (Z.of_nat (length l) - 1) Path.scanInit).
  assert (Hv : dotFound l v).
  { apply (extnameLoop_dotFound l (rev l) []).
    - now rewrite rev_involutive, app_nil_r.
    - now rewrite length_rev.
    - now left.
    - now left. }
  destruct (Path.startDot v =? -1) eqn:E; [now left|]. apply Z.eqb_neq in E.
  cbn [orb]. destruct (_ || _)%bool; [now left|]. right.
  destruct Hv as [Hv|[Hrange Hdot]]; [contradiction|].
  unfold Js.slice.
  destruct (Z.to_nat (Path.end_ v - Path.startDot v)) as [|k] eqn:Ek; [lia|].
  rewrite (drop_S _ _ _ Hdot). cbn [take]. eexists. reflexivity.
Qed.

Lemma chars_append (a b : string) : Js.chars (a +:+ b) = Js.chars a ++ Js.chars b.
Proof.
  induction a as [|c a IH]; [reflexivity|].
  change (String c a +:+ b) with (String c (a +:+ b)).
  unfold Js.chars in *. cbn [list_ascii_of_string app]. now rewrite IH.
Qed.

Lemma toLowerCase_dot (rest : string) :
  Js.toLowerCase (String Path.dot rest) = String Path.dot (Js.toLowerCase rest).
Proof. reflexivity. Qed.

Lemma dotted_not_inherited (rest : string) :
  String Path.dot rest ∉ Js.objectPrototypeNames.
Proof.
  unfold Js.objectPrototypeNames. intros H.
  repeat (apply elem_of_cons in H as [H|H]; [discriminate H|]).
  now apply elem_of_nil in H.
Qed.

(** [getMimeType] always answers a string: an extension is empty or starts
    with a dot, so that no inherited property is ever found. *)
Lemma getMimeType_string (filePath : string) :
  exists t,
    getMimeType filePath = Js.VString t
    /\ (Js.ownLookup mimeTypes (Js.toLowerCase (Path.extname filePath)) = None ->
        t = "image/jpeg").
Proof.
  unfold getMimeType, Js.lookupOr.
  destruct (Js.ownLookup mimeTypes _) as [v|] eqn:Hown.
  - destruct (Js.truthy (Some v)); eexists; (split; [reflexivity|discriminate]).
  - exists "image/jpeg". split; [|reflexivity].
    destruct (extname_shape filePath) as [->|(rest & ->)].
    + reflexivity.
    + rewrite toLowerCase_dot.
      now rewrite (bool_decide_eq_false_2 _ (dotted_not_inherited _)).
Qed.

End Extname.

(** C9 (as amended). For every MIME type of the table,
    [getExtensionFromMimeType] answers its extension, and [getMimeType]
    maps every file name that ends with this extension after a non-empty
    stem back to the MIME type; the bare extension itself is a name that
    starts with its only dot, has no extension for [path.extname], and is
    mapped to the default.  Outside the tables [getMimeType] answers
    ['image/jpeg'], and [getExtensionFromMimeType] answers ['.jpg'] for
    every key that does not name a property inherited from
    [Object.prototype]. *)
Theorem mime_type_round_trip_through_file_names (m ext : string) :
  In (m, ext) extensions ->
  getExtensionFromMimeType (Some m) = Js.VString ext
  /\ (forall dir stem,
        (dir = "" \/ exists d, dir = d +:+ "/") ->
        stem <> "" ->
        Forall (fun c => c <> "/"%char) (Js.chars stem) ->
        getMimeType (dir +:+ stem +:+ ext) = Js.VString m)
  /\ getMimeType ext = Js.VString "image/jpeg"
  /\ (forall filePath, exists t,
        getMimeType filePath = Js.VString t
        /\ (Js.ownLookup mimeTypes (Js.toLowerCase (Path.extname filePath)) = None ->
            t = "image/jpeg"))
  /\ (forall mimeType,
        Js.ownLookup extensions (Js.propertyKey mimeType) = None ->
        Js.propertyKey mimeType ∉ Js.objectPrototypeNames ->
        getExtensionFromMimeType mimeType = Js.VString ".jpg").
Proof.
  intros Hin.
  assert (Hfile : forall dir stem e,
             (dir = "" \/ exists d, dir = d +:+ "/") ->
             stem <> "" ->
             Forall (fun c => c <> "/"%char) (Js.chars stem) ->
             e <> [] ->
             Forall (fun c => c <> Path.slash /\ c <> Path.dot) e ->
             Path.extname (dir +:+ stem +:+ Js.str (Path.dot :: e)) = Js.str (Path.dot :: e)).
  { intros dir stem e Hdir Hstem Hok He Heok.
    rewrite <- (str_chars (dir +:+ stem +:+ Js.str (Path.dot :: e))).
    rewrite !chars_append, chars_str.
    apply extname_of_file_name; auto.
    - destruct Hdir as [->|(d & ->)]; [now left|right].
      exists (Js.chars d). now rewrite chars_append.
    - intros E. apply Hstem. rewrite <- (str_chars stem), E. reflexivity. }
  split; [|split; [|split; [|split]]].
  - cbn in Hin. repeat (destruct Hin as [Hin|Hin]; [inversion Hin; reflexivity|]).
    contradiction.
  - intros dir stem Hdir Hstem Hok.
    assert (Hname : forall e t,
               e <> [] ->
               Forall (fun c => c <> Path.slash /\ c <> Path.dot) e ->
               Js.lookupOr mimeTypes (Js.toLowerCase (Js.str (Path.dot :: e))) "image/jpeg"
               = Js.VString t ->
               getMimeType (dir +:+ stem +:+ Js.str (Path.dot :: e)) = Js.VString t).
    { intros e t He Heok Ht. unfold getMimeType. now rewrite Hfile. }
    cbn in Hin.
    destruct Hin as [Hin|[Hin|[Hin|[Hin|[Hin|[Hin|[Hin|[]]]]]]]];
      inversion Hin; subst m ext.
    + apply (Hname (Js.chars "jpg")); [discriminate| |reflexivity].
      repeat (apply List.Forall_cons; [split; discriminate|]). apply List.Forall_nil.
    + apply (Hname (Js.chars "png")); [discriminate| |reflexivity].
      repeat (apply List.Forall_cons; [split; discriminate|]). apply List.Forall_nil.
    + apply (Hname (Js.chars "gif")); [discriminate| |reflexivity].
      repeat (apply List.Forall_cons; [split; discriminate|]). apply List.Forall_nil.
    + apply (Hname (Js.chars "svg")); [discriminate| |reflexivity].
      repeat (apply List.Forall_cons; [split; discriminate|]). apply List.Forall_nil.
    + apply (Hname (Js.chars "webp")); [discriminate| |reflexivity].
      repeat (apply List.Forall_cons; [split; discriminate|]). apply List.Forall_nil.
    + apply (Hname (Js.chars "bmp")); [discriminate| |reflexivity].
      repeat (apply List.Forall_cons; [split; discriminate|]). apply List.Forall_nil.
    + apply (Hname (Js.chars "tiff")); [discriminate| |reflexivity].
      repeat (apply List.Forall_cons; [split; discriminate|]). apply List.Forall_nil.
  - cbn in Hin. repeat (destruct Hin as [Hin|Hin]; [inversion Hin; reflexivity|]).
    contradiction.
  - apply getMimeType_string.
  - intros mimeType Hown Hproto.
    unfold getExtensionFromMimeType, Js.lookupOr. rewrite Hown.
    now rewrite (bool_decide_eq_false_2 _ Hproto).
Qed.

(** C9, the claim as it is written fails: the extension of ['image/png'] is
    ['.png'], and [getMimeType('.png')] is ['image/jpeg']; and
    [getExtensionFromMimeType('constructor')], a key outside the table, is
    not ['.jpg'] but the inherited [Object]. *)
Lemma bare_extension_is_not_mapped_back :
  getExtensionFromMimeType (Some "image/png") = Js.VString ".png"
  /\ getMimeType ".png" = Js.VString "image/jpeg"
  /\ getMimeType (Js.toString (getExtensionFromMimeType (Some "image/png")))
     <> Js.VString "image/png"
  /\ Js.ownLookup extensions "constructor" = None
  /\ getExtensionFromMimeType (Some "constructor") <> Js.VString ".jpg".
Proof.
  split; [reflexivity|]. split; [reflexivity|].
  split; [vm_compute; intros H; discriminate H|].
  split; [reflexivity|]. vm_compute. intros H. discriminate H.
Qed.

Lemma mime_type_round_trip_witness :
  getMimeType ("/site/.docusaurus/temp/" +:+ "remote-8c399fff" +:+ ".png")
  = Js.VString "image/png".
Proof.
  refine (proj1 (proj2 (mime_type_round_trip_through_file_names "image/png" ".png" _))
            "/site/.docusaurus/temp/" "remote-8c399fff" _ _ _).
  - simpl. auto.
  - right. exists "/site/.docusaurus/temp". reflexivity.
  - discriminate.
  - repeat (apply List.Forall_cons; [discriminate|]). apply List.Forall_nil.
Defined.

(** ** The claims on the concrete world *)

Section Cases.
Import Mock Scenario.




(** C5 at work: the address uploaded a moment ago. *)
Lemma session_cache_hit_witness :
  exists c' evs,
    resolve env (RemoteUrl urlA) clientB
    = (c', evs, Ok {| recorded := recordedA; cached := true |})
    /\ backendCalls evs = []
    /\ uploadedImages c' = uploadedImages clientB
    /\ (forall imageUrl, RemoteUrl urlA = RemoteUrl imageUrl -> evs = [] /\ c' = clientB).
Proof.
  apply (session_cache_hit_makes_no_backend_call env (RemoteUrl urlA) clientB
           (Sha256.hex urlA) recordedA).
  - reflexivity.
  - vm_compute. reflexivity.
Defined.

(** C10 and C8 at work on the first upload of [urlA]. *)
Lemma cached_flag_witness :
  cached returnedA = true <-> uploadCalls remoteARun.1.2 = 0%nat.
Proof.
  apply (cached_flag_tells_whether_uploaded env (RemoteUrl urlA) clientA clientB
           remoteARun.1.2 returnedA).
  vm_compute. reflexivity.
Defined.

Lemma new_upload_witness :
  url (recorded returnedA) = "https://drive.google.com/uc?export=download&id=" +:+ id fileA.
Proof.
  apply (new_upload_is_made_public env (RemoteUrl urlA) clientA clientB
           remoteARun.1.2 returnedA resourceA (Some mediaA) fileA).
  - vm_compute. reflexivity.
  - apply (nth_error_In _ 6). reflexivity.
Defined.

(** C4 at work on the creation of the folder. *)
Lemma created_ids_witness :
  exists pre partial,
    backendCalls folderRun.1.2 = pre ++ [EvUpdateState partial (Ok tt)]
    /\ In (EvFilesCreate folderResource None (Ok folderFile)) pre
    /\ st_imageFolderId partial = Some (id folderFile)
    /\ "drive-0" = id folderFile.
Proof.
  refine (proj1 (created_ids_are_persisted env client0 clientA folderRun.1.2
                   folderResource None folderFile _) "drive-0" _).
  - apply (nth_error_In _ 3). reflexivity.
  - vm_compute. reflexivity.
Defined.


(** C7 at work: no [sharp], the SVG goes up as it is. *)
Lemma conversion_failure_witness :
  noSharpRun.2 = Ok "/site/static/img/diagram.svg"
  /\ existsb isWarning noSharpRun.1.2 = true.
Proof.
  refine (proj1 (proj2 (conversion_failure_falls_back env
                          "/site/static/img/diagram.svg" None
                          (withWorld (uninstallSharp world0) client0)
                          noSharpRun.1.1 noSharpRun.1.2 noSharpRun.2 _)) _).
  - vm_compute. reflexivity.
  - vm_compute. reflexivity.
Defined.

(** C3, what the code does: the download of [urlA] is written to the
    temporary file, Drive rejects the upload, the method throws, and
    nothing has been removed: the temporary file stays on the disk.  The
    same download followed by a successful upload removes it. *)
Theorem temp_file_is_left_behind_when_upload_fails :
  quotaRun.2 = Throw "The user's Drive storage quota has been exceeded."
  /\ written quotaRun.1.2 = [(tempA, logoBytes)]
  /\ existsb isRemove quotaRun.1.2 = false
  /\ disk (world quotaRun.1.1) !! tempA = Some logoBytes
  /\ disk (world clientA) !! tempA = None
  /\ written remoteARun.1.2 = [(tempA, logoBytes)]
  /\ existsb isRemove remoteARun.1.2 = true
  /\ disk (world remoteARun.1.1) !! tempA = None.
Proof. repeat split; vm_compute; reflexivity. Qed.


End Cases.

(** * The runs of the methods, case by case *)

Lemma filter_none (f g : Event -> bool) (l : list Event) :
  (forall ev, g ev = true -> f ev = false) ->
  forallb g l = true ->
  List.filter f l = [].
Proof.
  intros Hfg. induction l as [|ev l IH]; [reflexivity|].
  cbn. intros H. apply andb_true_iff in H as [Hg Hl].
  rewrite (Hfg _ Hg). auto.
Qed.

Section Shapes.
Context {W : Type} (env : Env W).

(** The conversion as a whole: what it calls, and the two ways it ends. *)
Lemma convert_shape (imagePath : string) (contentType : option string) (c : Client W) :
  exists w evs p,
    convertImageForGoogleDocs env imagePath contentType c = (withWorld w c, evs, Ok p)
    /\ forallb isConversionEvent evs = true
    /\ (p = imagePath
        \/ let target :=
             Path.join (tempDirOf (projectRoot c))
               (Path.basenameExt imagePath (Js.toLowerCase (Path.extname imagePath))
                +:+ ".png") in
           p = target
           /\ evs = [EvRequireSharp (Ok tt); EvEnsureDir (tempDirOf (projectRoot c)) (Ok tt);
                     EvSharpToFile imagePath target (Ok tt); EvPathExists target true]).
Proof.
  unfold convertImageForGoogleDocs.
  destruct (negb _).
  - exists (world c), [], imagePath. unfoldMonad. rewrite withWorld_world. auto.
  - unfoldMonad. runAll; subst; simplify_eq; cbn;
      rewrite ?withWorld_withWorld;
      repeat match goal with a : unit |- _ => destruct a end;
      (do 3 eexists; split; [reflexivity|]; split; [reflexivity|]); auto.
Qed.

Lemma cleanup_shape (tempFilePath processedImagePath : string) (c : Client W) :
  exists w evs,
    cleanupTempFiles env tempFilePath processedImagePath c = (withWorld w c, evs, Ok tt)
    /\ forallb isCleanupEvent evs = true.
Proof.
  unfold cleanupTempFiles. unfoldMonad.
  runAll; subst; simplify_eq; cbn; rewrite ?withWorld_withWorld;
    repeat match goal with a : unit |- _ => destruct a end;
    try (do 2 eexists; split; reflexivity).
  all: destruct c; do 2 eexists; split; reflexivity.
Qed.

End Shapes.

(** Case analysis on the next answer of the world, the conversion and the
    clean-up taken as wholes. *)
Ltac nextStep env H :=
  lazymatch type of H with
  | context [convertImageForGoogleDocs env ?p ?t ?c] =>
      let Heq := fresh "Hconvert" in
      let Hkind := fresh "Hkind" in
      destruct (convert_shape env p t c) as (? & ? & ? & Heq & Hkind & _);
      rewrite Heq in H
  | context [cleanupTempFiles env ?p ?t ?c] =>
      let Heq := fresh "Hcleanup" in
      let Hkind := fresh "Hkind" in
      destruct (cleanup_shape env p t c) as (? & ? & Heq & Hkind);
      rewrite Heq in H; clear Heq
  | context [match ?x with _ => _ end] => caseOn x
  end.

(** ** Helper lemmas *)

Lemma ends_with_two {A} (l rest : list A) (x y : A) :
  rev l = y :: x :: rest -> l = rev rest ++ [x; y].
Proof.
  intros H. apply (f_equal (@rev A)) in H. rewrite rev_involutive in H.
  rewrite H. cbn. now rewrite <- app_assoc.
Qed.

Lemma ends_with_one {A} (l rest : list A) (x : A) :
  rev l = x :: rest -> l = rev rest ++ [x].
Proof.
  intros H. apply (f_equal (@rev A)) in H. rewrite rev_involutive in H.
  now rewrite H.
Qed.

Lemma lookup_kept (m : gmap string UploadResult) (h k : string) (v u : UploadResult) :
  m !! h = None -> m !! k = Some u -> <[h := v]> m !! k = Some u.
Proof.
  intros Hh Hk. rewrite lookup_insert_ne; [assumption|]. congruence.
Qed.

Lemma followedBy_here (a b : Event) (l : list Event) : followedBy a b (a :: b :: l).
Proof. now exists [], l. Qed.

Lemma followedBy_cons (a b x : Event) (l : list Event) :
  followedBy a b l -> followedBy a b (x :: l).
Proof. intros (pre & post & ->). now exists (x :: pre), post. Qed.

Lemma followedBy_app (a b : Event) (l0 l : list Event) :
  followedBy a b l -> followedBy a b (l0 ++ l).
Proof.
  intros (pre & post & ->). exists (l0 ++ pre), post. now rewrite <- app_assoc.
Qed.

(** [extensions[mimeType] || '.jpg'] is never falsy: the alternatives that
    follow it in [uploadRemoteImage] are never looked at. *)
Lemma extension_is_truthy (mimeType : option string) :
  valueTruthy (getExtensionFromMimeType mimeType) = true.
Proof.
  unfold getExtensionFromMimeType, Js.lookupOr, Js.ownLookup, extensions.
  cbn [find fst snd fmap option_fmap option_map].
  repeat (case_bool_decide; [reflexivity|]).
  cbn. repeat case_bool_decide; try reflexivity; discriminate.
Qed.

(** The extensions [getExtensionFromMimeType] can answer. *)
Lemma extension_values (mimeType : option string) (e : string) :
  getExtensionFromMimeType mimeType = Js.VString e ->
  In e [".jpg"; ".png"; ".gif"; ".svg"; ".webp"; ".bmp"; ".tiff"].
Proof.
  unfold getExtensionFromMimeType, Js.lookupOr, Js.ownLookup, extensions.
  cbn [find fst snd fmap option_fmap option_map].
  repeat (case_bool_decide;
          [intros Hrun; vm_compute in Hrun; inversion Hrun; cbn [In]; auto 10|]).
  intros Hrun; vm_compute in Hrun; inversion Hrun; cbn [In]; auto.
Qed.

Lemma recordPartial_others (s : SyncState) (folder : option string) (h k : string)
    (res : UploadResult) :
  k <> h ->
  st_uploadedImages (recordPartial s folder h res) ≫= (fun images => images !! k)
  = stateUploadedImage s k.
Proof.
  intros Hk. unfold recordPartial, stateUploadedImage. cbn.
  rewrite lookup_insert_ne by congruence.
  destruct (stateUploadedImages s); reflexivity.
Qed.

Lemma filter_partition {A} (f : A -> bool) (l : list A) :
  (length (List.filter f l) + length (List.filter (fun a => negb (f a)) l))%nat = length l.
Proof.
  induction l as [|a l IH]; [reflexivity|].
  cbn. destruct (f a); cbn; lia.
Qed.

Lemma sessionUploads_values {W} (c : Client W) :
  sessionUploads (getUploadStats c) = length (snd <$> map_to_list (uploadedImages c)).
Proof. rewrite length_fmap, length_map_to_list. reflexivity. Qed.

(** ** Strings and paths *)

(** On bytes that are characters of their own, code units are bytes. *)
Lemma takeUnits_ascii (l : list ascii) (n : nat) :
  forallb isAsciiByte l = true -> Js.takeUnits n 0 l = take n l.
Proof.
  revert n. induction l as [|b l IH]; intros n Hl; [now destruct n|].
  cbn [forallb] in Hl. apply andb_true_iff in Hl as [Hb Hl].
  destruct n as [|n]; [reflexivity|]. cbn [Js.takeUnits take].
  unfold isAsciiByte in Hb. apply Z.ltb_lt in Hb.
  destruct (Z.ltb_spec (Js.byte b) 0xc0) as [_|Hge]; [|lia].
  now rewrite IH.
Qed.

Lemma hexDigit_ascii (ch : ascii) : isHexDigit ch = true -> isAsciiByte ch = true.
Proof.
  unfold isHexDigit. cbn [Js.chars list_ascii_of_string existsb].
  rewrite !orb_true_iff.
  intros H. repeat (destruct H as [H|H]; [apply Ascii.eqb_eq in H; subst ch; reflexivity|]).
  discriminate H.
Qed.

Lemma hex_ascii (data : string) : forallb isAsciiByte (Js.chars (Sha256.hex data)) = true.
Proof.
  apply forallb_forall. intros ch Hch.
  apply hexDigit_ascii. exact (proj1 (forallb_forall _ _) (hex_digits data) ch Hch).
Qed.

Lemma substring0_hex (n : nat) (data : string) :
  Js.substring0 n (Sha256.hex data) = Js.str (take n (Js.chars (Sha256.hex data))).
Proof. unfold Js.substring0. now rewrite takeUnits_ascii by apply hex_ascii. Qed.

Lemma hexDigit_no_slash (ch : ascii) : isHexDigit ch = true -> ch <> Path.slash /\ ch <> Path.dot.
Proof.
  unfold isHexDigit. cbn [Js.chars list_ascii_of_string existsb].
  rewrite !orb_true_iff.
  intros H. repeat (destruct H as [H|H]; [apply Ascii.eqb_eq in H; subst ch; split; discriminate|]).
  discriminate H.
Qed.

(** The loop of [normalizeString] on the characters of one segment: they
    are collected, and [dots] counts them as long as they are all dots. *)
Lemma normalizeStep_segment (allowAboveRoot : bool) (out : list ascii) (len : Z)
    (l seg : list ascii) (d : Z) :
  Forall (fun ch => ch <> Path.slash) l ->
  d = -1 \/ (d = Z.of_nat (length seg) /\ Forall (fun ch => ch = Path.dot) seg) ->
  exists d',
    fold_left (Path.normalizeStep allowAboveRoot) l (Path.Normal out len seg d)
    = Path.Normal out len (seg ++ l) d'
    /\ (d' = -1
        \/ (d' = Z.of_nat (length (seg ++ l))
            /\ Forall (fun ch => ch = Path.dot) (seg ++ l))).
Proof.
  intros Hl. revert seg d. induction Hl as [|ch l Hch Hl IH]; intros seg d Hd.
  - exists d. rewrite List.app_nil_r. auto.
  - cbn [fold_left]. unfold Path.normalizeStep at 2.
    cbn [Path.result Path.lastSegmentLength Path.segment Path.dots].
    rewrite (bool_decide_eq_false_2 _ Hch).
    replace (seg ++ ch :: l) with ((seg ++ [ch]) ++ l) by now rewrite <- List.app_assoc.
    destruct (bool_decide (ch = Path.dot)) eqn:Hdot; cbn [andb].
    + apply bool_decide_eq_true in Hdot.
      destruct (Z.eqb_spec d (-1)) as [->|Hne]; cbn [negb].
      * apply IH. now left.
      * apply IH. right. destruct Hd as [?|[-> Hseg]]; [contradiction|].
        rewrite List.length_app. cbn [length]. split; [lia|].
        apply Forall_app. split; [exact Hseg|]. now constructor.
    + apply IH. now left.
Qed.

(** A path that ends with the name of a file is normalised to a path that
    ends with that name. *)
Lemma normalizeString_file_name (allowAboveRoot : bool) (prefix l : list ascii) :
  atComponentStart prefix ->
  l <> [] -> l <> [Path.dot] -> l <> [Path.dot; Path.dot] ->
  Forall (fun ch => ch <> Path.slash) l ->
  exists dir,
    Path.normalizeString allowAboveRoot (prefix ++ l) = dir ++ l
    /\ atComponentStart dir.
Proof.
  intros Hstart Hl Hdot Hdots Hplain.
  unfold Path.normalizeString. rewrite <- List.app_assoc, !fold_left_app.
  assert (Hpre : exists out len,
             fold_left (Path.normalizeStep allowAboveRoot) prefix Path.normalInit
             = Path.Normal out len [] 0).
  { destruct Hstart as [->|(dir & ->)]; [now exists [], 0|].
    rewrite fold_left_app. cbn [fold_left].
    set (v := fold_left _ dir _). unfold Path.normalizeStep.
    rewrite (bool_decide_eq_true_2 _ eq_refl).
    repeat match goal with |- context [if ?b then _ else _] => destruct b end;
      unfold Path.nextSegment; eauto. }
  destruct Hpre as (out & len & ->).
  destruct (normalizeStep_segment allowAboveRoot out len l [] 0 Hplain) as (d & -> & Hd).
  { right. split; [reflexivity|constructor]. }
  cbn [app fold_left] in *. unfold Path.normalizeStep.
  cbn [Path.result Path.lastSegmentLength Path.segment Path.dots].
  rewrite (bool_decide_eq_true_2 _ eq_refl), (bool_decide_eq_false_2 _ Hl).
  assert (Hone : (d =? 1) = false).
  { apply Z.eqb_neq. intros ->. destruct Hd as [?|[Hlen Hall]]; [lia|].
    destruct l as [|a [|b l']]; cbn in Hlen; try lia.
    inversion Hall; subst. now apply Hdot. }
  assert (Htwo : (d =? 2) = false).
  { apply Z.eqb_neq. intros ->. destruct Hd as [?|[Hlen Hall]]; [lia|].
    destruct l as [|a [|b [|c l']]]; cbn in Hlen; try lia.
    inversion Hall as [|? ? Ha Hall']; subst. inversion Hall' as [|? ? Hb _]; subst.
    now apply Hdots. }
  rewrite Hone, Htwo. cbn [orb Path.nextSegment Path.result].
  destruct (0 <? Z.of_nat (length out)).
  - exists (out ++ [Path.slash]). split; [now rewrite <- List.app_assoc|].
    right. now exists out.
  - exists []. split; [reflexivity|now left].
Qed.

Lemma normalize_file_name (prefix : list ascii) (name : string) :
  atComponentStart prefix ->
  isFileName name ->
  exists dir,
    Path.normalize (Js.str (prefix ++ Js.chars name)) = Js.str (dir ++ Js.chars name)
    /\ atComponentStart dir.
Proof.
  intros Hstart (Hne & Hdot & Hdots & Hplain).
  set (l := Js.chars name) in *.
  assert (Hl : l <> []).
  { intros Hl. apply Hne. rewrite <- (str_chars name). fold l. now rewrite Hl. }
  assert (Hl1 : l <> [Path.dot]).
  { intros Hl1. apply Hdot. rewrite <- (str_chars name). fold l. now rewrite Hl1. }
  assert (Hl2 : l <> [Path.dot; Path.dot]).
  { intros Hl2. apply Hdots. rewrite <- (str_chars name). fold l. now rewrite Hl2. }
  assert (Hlast : last (prefix ++ l) <> Some Path.slash).
  { destruct (exists_last Hl) as (l0 & ch & Heq). rewrite Heq in *.
    rewrite List.app_assoc, last_snoc. intros Hs. inversion Hs; subst ch.
    apply Forall_app in Hplain as [_ Hch]. inversion Hch; subst. contradiction. }
  unfold Path.normalize. rewrite chars_str.
  destruct (prefix ++ l) as [|first rest] eqn:Hwhole.
  { apply app_eq_nil in Hwhole as [_ ?]. contradiction. }
  rewrite (bool_decide_eq_false_2 _ Hlast).
  destruct (normalizeString_file_name (negb (bool_decide (first = Path.slash)))
              prefix l Hstart Hl Hl1 Hl2 Hplain) as (dir & Hn & Hdir).
  rewrite Hwhole in Hn. rewrite Hn.
  destruct (dir ++ l) eqn:Hbody.
  { apply app_eq_nil in Hbody as [_ ?]. contradiction. }
  rewrite <- Hbody, List.app_nil_r.
  exists ((if bool_decide (first = Path.slash) then [Path.slash] else []) ++ dir).
  split; [now rewrite <- List.app_assoc|].
  destruct Hdir as [->|(dir0 & ->)].
  - rewrite List.app_nil_r. destruct (bool_decide _); [right; now exists []|now left].
  - right. eexists. now rewrite List.app_assoc.
Qed.

Lemma join_file_name (a name : string) :
  isFileName name ->
  exists dir,
    Path.join a name = Js.str (dir ++ Js.chars name) /\ atComponentStart dir.
Proof.
  intros Hname. pose proof Hname as (Hne & _).
  unfold Path.join, Path.joinAll. cbn [List.filter].
  rewrite (bool_decide_eq_false_2 _ Hne). cbn [negb].
  case_bool_decide as Ha; cbn [negb fold_left].
  - pose proof (normalize_file_name [] name (or_introl eq_refl) Hname) as Hnormal.
    cbn [app] in Hnormal. rewrite str_chars in Hnormal. exact Hnormal.
  - rewrite <- (str_chars (_ +:+ _)), !chars_append, List.app_assoc.
    apply normalize_file_name; [|exact Hname].
    right. now exists (Js.chars a).
Qed.

(** *** A normalised path is normalised to itself *)

Lemma takeComponent_whole (a : list ascii) :
  Forall (fun ch => ch <> Path.slash) a -> Path.takeComponent a = a.
Proof.
  induction 1 as [|ch a Hch _ IH]; [reflexivity|].
  cbn [Path.takeComponent]. rewrite (bool_decide_eq_false_2 _ Hch). now rewrite IH.
Qed.

Lemma takeComponent_app (a b : list ascii) :
  Forall (fun ch => ch <> Path.slash) a ->
  Path.takeComponent (a ++ Path.slash :: b) = a.
Proof.
  induction 1 as [|ch a Hch _ IH]; cbn [app Path.takeComponent].
  - now rewrite (bool_decide_eq_true_2 _ eq_refl).
  - rewrite (bool_decide_eq_false_2 _ Hch). now rewrite IH.
Qed.

Lemma afterLastSlash_segment (seg : list ascii) :
  Forall (fun ch => ch <> Path.slash) seg -> Path.afterLastSlash seg = seg.
Proof.
  intros Hseg. unfold Path.afterLastSlash.
  rewrite takeComponent_whole by now apply Forall_rev. apply rev_involutive.
Qed.

Lemma afterLastSlash_push (out seg : list ascii) :
  Forall (fun ch => ch <> Path.slash) seg ->
  Path.afterLastSlash (out ++ Path.slash :: seg) = seg.
Proof.
  intros Hseg. unfold Path.afterLastSlash.
  rewrite rev_app_distr. cbn [rev]. rewrite <- List.app_assoc. cbn [app].
  rewrite takeComponent_app by now apply Forall_rev. apply rev_involutive.
Qed.

Lemma afterLastSlash_pushSegment (out seg : list ascii) :
  Forall (fun ch => ch <> Path.slash) seg ->
  Path.afterLastSlash (pushSegment out seg) = seg.
Proof.
  intros Hseg. destruct out; [now apply afterLastSlash_segment|].
  now apply afterLastSlash_push.
Qed.

Lemma beforeLastSlash_push (out seg : list ascii) :
  Forall (fun ch => ch <> Path.slash) seg ->
  Path.beforeLastSlash (out ++ Path.slash :: seg) = out.
Proof.
  intros Hseg. unfold Path.beforeLastSlash. rewrite afterLastSlash_push by assumption.
  rewrite List.length_app. cbn [length].
  replace (length out + S (length seg) - length seg - 1)%nat with (length out) by lia.
  now rewrite take_app_length.
Qed.

Lemma Normalised_length (allowAboveRoot : bool) (out : list ascii) (len : Z) :
  Normalised allowAboveRoot out len ->
  len = Z.of_nat (length (Path.afterLastSlash out)).
Proof.
  destruct 1 as [|out len seg _ _ _ Hseg _]; [reflexivity|].
  now rewrite afterLastSlash_pushSegment.
Qed.

Lemma Normalised_empty (allowAboveRoot : bool) (len : Z) :
  Normalised allowAboveRoot [] len -> len = 0.
Proof. intros H. now apply Normalised_length in H. Qed.

Lemma Normalised_head (allowAboveRoot : bool) (out : list ascii) (len : Z) :
  Normalised allowAboveRoot out len -> head out <> Some Path.slash.
Proof.
  induction 1 as [|out len seg _ IH Hne _ Hseg _]; [discriminate|].
  destruct out as [|first rest]; cbn [pushSegment].
  - destruct Hseg as [|ch seg Hch _]; [contradiction|].
    cbn. intros Heq. inversion Heq. contradiction.
  - exact IH.
Qed.

Lemma countsDots_one (seg : list ascii) : countsDots seg 1 -> seg = [Path.dot].
Proof.
  intros [[? _]|[Hlen Hall]]; [lia|].
  destruct seg as [|a [|b seg]]; cbn in Hlen; try lia.
  inversion Hall; subst. reflexivity.
Qed.

Lemma countsDots_two (seg : list ascii) : countsDots seg 2 -> seg = [Path.dot; Path.dot].
Proof.
  intros [[? _]|[Hlen Hall]]; [lia|].
  destruct seg as [|a [|b [|c seg]]]; cbn in Hlen; try lia.
  inversion Hall as [|? ? Ha Hall']; subst. inversion Hall'; subst. reflexivity.
Qed.

Lemma countsDots_dotdot (d : Z) : countsDots [Path.dot; Path.dot] d -> d = 2.
Proof.
  intros [[_ Hno]|[Hlen _]]; [|exact Hlen].
  exfalso. apply Hno. repeat constructor.
Qed.

(** The loop on the characters of one segment. *)
Lemma normalizeStep_counts (allowAboveRoot : bool) (out : list ascii) (len : Z)
    (l seg : list ascii) (d : Z) :
  Forall (fun ch => ch <> Path.slash) l ->
  countsDots seg d ->
  exists d',
    fold_left (Path.normalizeStep allowAboveRoot) l (Path.Normal out len seg d)
    = Path.Normal out len (seg ++ l) d'
    /\ countsDots (seg ++ l) d'.
Proof.
  intros Hl. revert seg d. induction Hl as [|ch l Hch Hl IH]; intros seg d Hd.
  - exists d. rewrite List.app_nil_r. auto.
  - cbn [fold_left]. unfold Path.normalizeStep at 2.
    cbn [Path.result Path.lastSegmentLength Path.segment Path.dots].
    rewrite (bool_decide_eq_false_2 _ Hch).
    replace (seg ++ ch :: l) with ((seg ++ [ch]) ++ l) by now rewrite <- List.app_assoc.
    destruct (bool_decide (ch = Path.dot)) eqn:Hdot; cbn [andb].
    + apply bool_decide_eq_true in Hdot.
      destruct (Z.eqb_spec d (-1)) as [->|Hne]; cbn [negb].
      * apply IH. left. split; [reflexivity|].
        destruct Hd as [[_ Hno]|[Hlen _]]; [|lia].
        intros Hall. apply Forall_app in Hall as [Hall _]. contradiction.
      * apply IH. right. destruct Hd as [[? _]|[-> Hseg]]; [contradiction|].
        rewrite List.length_app. cbn [length]. split; [lia|].
        apply Forall_app. split; [exact Hseg|]. now constructor.
    + apply bool_decide_eq_false in Hdot. apply IH. left. split; [reflexivity|].
      intros Hall. apply Forall_app in Hall as [_ Hall]. inversion Hall. contradiction.
Qed.

(** The slash after a segment that stays. *)
Lemma normalizeStep_push (allowAboveRoot : bool) (out : list ascii) (len : Z)
    (seg : list ascii) (d : Z) :
  Normalised allowAboveRoot out len ->
  countsDots seg d ->
  seg <> [] ->
  seg <> [Path.dot] ->
  (seg = [Path.dot; Path.dot] ->
   allowAboveRoot = true /\ (out = [] \/ endsDotDot out len)) ->
  Path.normalizeStep allowAboveRoot (Path.Normal out len seg d) Path.slash
  = Path.Normal (pushSegment out seg) (Z.of_nat (length seg)) [] 0.
Proof.
  intros Hout Hd Hne Hdot Hdots. unfold Path.normalizeStep.
  cbn [Path.result Path.lastSegmentLength Path.segment Path.dots].
  rewrite (bool_decide_eq_true_2 _ eq_refl), (bool_decide_eq_false_2 _ Hne).
  destruct (Z.eqb_spec d 1) as [->|_]; [now apply countsDots_one in Hd|].
  cbn [orb].
  destruct (Z.eqb_spec d 2) as [->|Htwo].
  - apply countsDots_two in Hd. subst seg.
    destruct (Hdots eq_refl) as [-> [->|(Hlen & -> & Hend)]].
    + reflexivity.
    + rewrite Hend, (bool_decide_eq_true_2 _ eq_refl).
      destruct (Z.ltb_spec (Z.of_nat (length out)) 2) as [|_]; [lia|].
      cbn [orb negb Z.eqb Pos.eqb].
      destruct (Z.ltb_spec 0 (Z.of_nat (length out))) as [_|]; [|lia].
      destruct out; [cbn in Hlen; lia|reflexivity].
  - destruct out; reflexivity.
Qed.

(** The slash after any segment. *)
Lemma normalizeStep_slash (allowAboveRoot : bool) (out : list ascii) (len : Z)
    (seg : list ascii) (d : Z) :
  Normalised allowAboveRoot out len ->
  Forall (fun ch => ch <> Path.slash) seg ->
  countsDots seg d ->
  exists out' len',
    Path.normalizeStep allowAboveRoot (Path.Normal out len seg d) Path.slash
    = Path.Normal out' len' [] 0
    /\ Normalised allowAboveRoot out' len'.
Proof.
  intros Hout Hseg Hd.
  destruct (decide (seg = [])) as [->|Hne].
  { exists out, len. split; [|exact Hout]. unfold Path.normalizeStep.
    cbn [Path.result Path.lastSegmentLength Path.segment Path.dots].
    now rewrite !(bool_decide_eq_true_2 _ eq_refl). }
  destruct (decide (seg = [Path.dot])) as [->|Hdot].
  { exists out, len. split; [|exact Hout]. unfold Path.normalizeStep.
    cbn [Path.result Path.lastSegmentLength Path.segment Path.dots].
    rewrite (bool_decide_eq_true_2 _ eq_refl).
    destruct Hd as [[_ Hno]|[-> _]]; [exfalso; apply Hno; repeat constructor|].
    rewrite bool_decide_eq_false_2 by discriminate. reflexivity. }
  destruct (decide (seg = [Path.dot; Path.dot])) as [->|Hdots].
  2: { exists (pushSegment out seg), (Z.of_nat (length seg)).
       split; [apply normalizeStep_push; auto; contradiction|].
       apply (Segment allowAboveRoot out len seg); auto. contradiction. }
  apply countsDots_dotdot in Hd as Htwo. subst d.
  assert (Habove :
    exists out' len',
      (if allowAboveRoot
       then Path.nextSegment
              (if 0 <? Z.of_nat (length out)
               then out ++ [Path.slash; Path.dot; Path.dot] else [Path.dot; Path.dot]) 2
       else Path.nextSegment out len) = Path.Normal out' len' [] 0
      /\ (out = [] \/ endsDotDot out len -> Normalised allowAboveRoot out' len')).
  { destruct allowAboveRoot.
    - exists (pushSegment out [Path.dot; Path.dot]), 2. split.
      + destruct out; reflexivity.
      + intros Hwhere. apply (Segment true out len [Path.dot; Path.dot]); auto;
          discriminate.
    - exists out, len. split; [reflexivity|]. intros _. exact Hout. }
  destruct Habove as (above & alen & Habove & Hgood).
  unfold Path.normalizeStep.
  cbn [Path.result Path.lastSegmentLength Path.segment Path.dots].
  rewrite (bool_decide_eq_true_2 _ eq_refl), (bool_decide_eq_false_2 _ Hne).
  cbn [orb Z.eqb Pos.eqb]. rewrite Habove.
  destruct ((Z.of_nat (length out) <? 2) || negb (len =? 2)
            || negb (bool_decide (drop (length out - 2)%nat out = [Path.dot; Path.dot])))%bool
    eqn:Hpop.
  - destruct (Z.ltb_spec 2 (Z.of_nat (length out))) as [Hlong|Hshort].
    + destruct (Path.hasSlash out) eqn:Hslash.
      * inversion Hout as [|out0 len0 seg0 Hout0 Hne0 _ Hseg0 _ Heq Hlen]; subst.
        { cbn in Hlong. lia. }
        destruct out0 as [|first rest].
        { cbn [pushSegment] in Hslash. unfold Path.hasSlash in Hslash.
          rewrite afterLastSlash_segment in Hslash by assumption.
          apply Nat.ltb_lt in Hslash. lia. }
        cbn [pushSegment]. rewrite beforeLastSlash_push by assumption.
        do 2 eexists. split; [reflexivity|].
        rewrite <- (Normalised_length _ _ _ Hout0). exact Hout0.
      * exists [], 0. split; [reflexivity|constructor].
    + destruct (Z.eqb_spec (Z.of_nat (length out)) 0) as [Hzero|_]; cbn [negb].
      * exists above, alen. split; [reflexivity|]. apply Hgood. left.
        destruct out; [reflexivity|cbn in Hzero; lia].
      * exists [], 0. split; [reflexivity|constructor].
  - exists above, alen. split; [reflexivity|]. apply Hgood. right.
    apply orb_false_iff in Hpop as [Hpop Hend].
    apply orb_false_iff in Hpop as [Hlen Hlast].
    apply Z.ltb_ge in Hlen. apply negb_false_iff, Z.eqb_eq in Hlast.
    apply negb_false_iff, bool_decide_eq_true in Hend.
    split; [lia|]. split; assumption.
Qed.

(** What the loop has read is normalised after every slash. *)
Lemma normalizeString_run (allowAboveRoot : bool) (input : list ascii) :
  forall out len seg d,
    Normalised allowAboveRoot out len ->
    Forall (fun ch => ch <> Path.slash) seg ->
    countsDots seg d ->
    exists out' len',
      fold_left (Path.normalizeStep allowAboveRoot) (input ++ [Path.slash])
        (Path.Normal out len seg d)
      = Path.Normal out' len' [] 0
      /\ Normalised allowAboveRoot out' len'.
Proof.
  induction input as [|ch input IH]; intros out len seg d Hout Hseg Hd.
  - cbn [app fold_left]. now apply normalizeStep_slash.
  - cbn [app fold_left].
    destruct (decide (ch = Path.slash)) as [->|Hch].
    + destruct (normalizeStep_slash allowAboveRoot out len seg d Hout Hseg Hd)
        as (out1 & len1 & -> & Hout1).
      apply IH; [exact Hout1|constructor|]. right. split; [reflexivity|constructor].
    + destruct (normalizeStep_counts allowAboveRoot out len [ch] seg d) as (d' & Hstep & Hd');
        [now constructor|exact Hd|].
      cbn [fold_left] in Hstep. rewrite Hstep.
      apply IH; [exact Hout| |exact Hd'].
      apply Forall_app. split; [exact Hseg|now constructor].
Qed.

Lemma countsDots_nil : countsDots [] 0.
Proof. right. split; [reflexivity|constructor]. Qed.

Lemma normalizeString_normalised (allowAboveRoot : bool) (path : list ascii) :
  exists len, Normalised allowAboveRoot (Path.normalizeString allowAboveRoot path) len.
Proof.
  unfold Path.normalizeString. change Path.normalInit with (Path.Normal [] 0 [] 0).
  destruct (normalizeString_run allowAboveRoot path [] 0 [] 0) as (out & len & -> & Hout);
    [constructor|constructor|apply countsDots_nil|].
  now exists len.
Qed.

(** A normalised path is read back as it is. *)
Lemma normalizeString_again (allowAboveRoot : bool) (out : list ascii) (len : Z) :
  Normalised allowAboveRoot out len ->
  fold_left (Path.normalizeStep allowAboveRoot) (out ++ [Path.slash]) Path.normalInit
  = Path.Normal out len [] 0.
Proof.
  induction 1 as [|out len seg Hout IH Hne Hdot Hseg Hdots].
  - cbn. unfold Path.normalizeStep. cbn. reflexivity.
  - assert (Hbefore : exists pre,
               pushSegment out seg ++ [Path.slash] = pre ++ seg ++ [Path.slash]
               /\ fold_left (Path.normalizeStep allowAboveRoot) pre Path.normalInit
                  = Path.Normal out len [] 0).
    { destruct out as [|first rest] eqn:Hshape.
      - exists []. split; [reflexivity|]. now rewrite (Normalised_empty _ _ Hout).
      - exists ((first :: rest) ++ [Path.slash]). split; [|exact IH].
        cbn [pushSegment]. now rewrite <- !List.app_assoc. }
    destruct Hbefore as (pre & -> & Hpre).
    rewrite !fold_left_app, Hpre.
    destruct (normalizeStep_counts allowAboveRoot out len seg [] 0 Hseg countsDots_nil)
      as (d & -> & Hd).
    cbn [app fold_left]. now apply normalizeStep_push.
Qed.

(** A file name joined to a normalised path that ends with a file name
    goes below it. *)
Lemma join_below (prefix : list ascii) (final name : string) :
  atComponentStart prefix ->
  isFileName final ->
  isFileName name ->
  let dir := Path.normalize (Js.str (prefix ++ Js.chars final)) in
  Path.join dir name = dir +:+ "/" +:+ name.
Proof.
  intros Hstart Hlast Hname dir.
  pose proof Hlast as (Hl0 & Hl1 & Hl2 & Hlplain).
  pose proof Hname as (Hn0 & Hn1 & Hn2 & Hnplain).
  assert (Hchars : forall (s : string) (l : list ascii), Js.chars s = l -> s = Js.str l).
  { intros s l <-. now rewrite str_chars. }
  assert (Hlast0 : Js.chars final <> []) by (intros H; apply Hl0; now apply Hchars in H).
  assert (Hlast1 : Js.chars final <> [Path.dot]) by (intros H; apply Hl1; now apply Hchars in H).
  assert (Hlast2 : Js.chars final <> [Path.dot; Path.dot])
    by (intros H; apply Hl2; now apply Hchars in H).
  assert (Hname0 : Js.chars name <> []) by (intros H; apply Hn0; now apply Hchars in H).
  assert (Hname1 : Js.chars name <> [Path.dot]) by (intros H; apply Hn1; now apply Hchars in H).
  assert (Hname2 : Js.chars name <> [Path.dot; Path.dot])
    by (intros H; apply Hn2; now apply Hchars in H).
  (* the directory *)
  assert (Hdir : exists (absolute : bool) body len,
             dir = Js.str ((if absolute then [Path.slash] else []) ++ body)
             /\ body <> []
             /\ Normalised (negb absolute) body len).
  { subst dir. unfold Path.normalize. rewrite chars_str.
    destruct (prefix ++ Js.chars final) as [|first rest] eqn:Hwhole.
    { apply app_eq_nil in Hwhole as [_ ?]. contradiction. }
    assert (Hend : last (first :: rest) <> Some Path.slash).
    { rewrite <- Hwhole. destruct (exists_last Hlast0) as (l0 & ch & Heq).
      rewrite Heq in *. rewrite List.app_assoc, last_snoc. intros Hs. inversion Hs; subst ch.
      apply Forall_app in Hlplain as [_ Hch]. inversion Hch; subst. contradiction. }
    rewrite (bool_decide_eq_false_2 _ Hend).
    set (absolute := bool_decide (first = Path.slash)).
    destruct (normalizeString_file_name (negb absolute) prefix (Js.chars final)
                Hstart Hlast0 Hlast1 Hlast2 Hlplain) as (d0 & Hn & _).
    destruct (normalizeString_normalised (negb absolute) (prefix ++ Js.chars final))
      as (len & Hnormal).
    rewrite Hwhole in Hn, Hnormal. rewrite Hn in *.
    destruct (d0 ++ Js.chars final) as [|b body] eqn:Hbody.
    { apply app_eq_nil in Hbody as [_ ?]. contradiction. }
    exists absolute, (b :: body), len. rewrite List.app_nil_r.
    split; [reflexivity|]. split; [discriminate|exact Hnormal]. }
  destruct Hdir as (absolute & body & len & Hdir & Hbody & Hnormal).
  rewrite Hdir.
  unfold Path.join, Path.joinAll. cbn [List.filter].
  rewrite (bool_decide_eq_false_2 _ Hn0). cbn [negb].
  rewrite bool_decide_eq_false_2.
  2: { intros Hempty. apply (f_equal Js.chars) in Hempty. rewrite chars_str in Hempty.
       apply app_eq_nil in Hempty as [_ ?]. contradiction. }
  cbn [negb fold_left].
  unfold Path.normalize. rewrite !chars_append, chars_str.
  change (Js.chars "/") with [Path.slash].
  set (whole := ((if absolute then [Path.slash] else []) ++ body)
                ++ [Path.slash] ++ Js.chars name).
  assert (Hfirst : exists first rest,
             whole = first :: rest /\ bool_decide (first = Path.slash) = absolute).
  { subst whole. destruct absolute.
    - do 2 eexists. split; [reflexivity|]. now apply bool_decide_eq_true_2.
    - destruct body as [|b body]; [contradiction|]. do 2 eexists.
      split; [reflexivity|]. apply bool_decide_eq_false_2.
      intros ->. now apply (Normalised_head _ _ _ Hnormal). }
  destruct Hfirst as (first & rest & Hwhole & Habs).
  assert (Hend : last whole <> Some Path.slash).
  { subst whole. destruct (exists_last Hname0) as (l0 & ch & Heq).
    rewrite Heq in *. rewrite !List.app_assoc, last_snoc. intros Hs. inversion Hs; subst ch.
    apply Forall_app in Hnplain as [_ Hch]. inversion Hch; subst. contradiction. }
  assert (Hresult : Path.normalizeString (negb absolute) whole
                    = body ++ Path.slash :: Js.chars name).
  { unfold Path.normalizeString. subst whole.
    replace ((((if absolute then [Path.slash] else []) ++ body)
              ++ [Path.slash] ++ Js.chars name) ++ [Path.slash])
      with ((if absolute then [Path.slash] else [])
            ++ (body ++ [Path.slash]) ++ Js.chars name ++ [Path.slash])
      by now rewrite <- !List.app_assoc.
    rewrite fold_left_app.
    assert (Hroot : fold_left (Path.normalizeStep (negb absolute))
                      (if absolute then [Path.slash] else []) Path.normalInit
                    = Path.normalInit) by now destruct absolute.
    rewrite Hroot, fold_left_app, (normalizeString_again _ _ _ Hnormal), fold_left_app.
    destruct (normalizeStep_counts (negb absolute) body len (Js.chars name) [] 0
                Hnplain countsDots_nil) as (d & -> & Hd).
    cbn [app fold_left].
    rewrite (normalizeStep_push (negb absolute) body len (Js.chars name) d);
      auto; [|contradiction].
    cbn [Path.result]. destruct body; [contradiction|reflexivity]. }
  rewrite Hwhole in *. rewrite Habs, Hresult, (bool_decide_eq_false_2 _ Hend).
  destruct (body ++ Path.slash :: Js.chars name) eqn:Hjoined.
  { apply app_eq_nil in Hjoined as [_ ?]. discriminate. }
  rewrite <- Hjoined, List.app_nil_r.
  rewrite <- (str_chars (_ +:+ _)), !chars_append, chars_str.
  now rewrite <- !List.app_assoc.
Qed.

(** The files of the temporary directory. *)
Lemma join_tempDir (root name : string) :
  isFileName name ->
  Path.join (tempDirOf root) name = tempDirOf root +:+ "/" +:+ name.
Proof.
  intros Hname.
  assert (Htemp : isFileName "temp").
  { repeat split; try discriminate. repeat (constructor; [discriminate|]). constructor. }
  unfold tempDirOf, Path.joinAll. cbn [List.filter negb bool_decide].
  change (negb (bool_decide (".docusaurus" = ""))) with true.
  change (negb (bool_decide ("temp" = ""))) with true. cbn iota.
  case_bool_decide as Hroot; cbn [negb fold_left].
  - apply (join_below (Js.chars ".docusaurus/") "temp" name); auto.
    right. now exists (Js.chars ".docusaurus").
  - pose proof (join_below (Js.chars root ++ Js.chars "/.docusaurus/") "temp" name) as Hjoin.
    cbn zeta in Hjoin.
    replace (Js.str ((Js.chars root ++ Js.chars "/.docusaurus/") ++ Js.chars "temp"))
      with (((root +:+ "/" +:+ ".docusaurus") +:+ "/" +:+ "temp")) in Hjoin.
    2: { rewrite <- (str_chars (_ +:+ _)), !chars_append, <- !List.app_assoc. reflexivity. }
    apply Hjoin; auto.
    right. exists (Js.chars root ++ Js.chars "/.docusaurus").
    now rewrite <- List.app_assoc.
Qed.

(** [path.join] and [path.normalize] on some paths, and [substring(0, n)]
    on characters of one, two, three and four bytes. *)
Example normalised_paths :
  Path.joinAll ["/site/"; ".docusaurus"; "temp"] = "/site/.docusaurus/temp"
  /\ Path.joinAll [""; ".docusaurus"; "temp"] = ".docusaurus/temp"
  /\ Path.joinAll ["."; ".docusaurus"; "temp"] = ".docusaurus/temp"
  /\ Path.joinAll ["/"; ".docusaurus"; "temp"] = "/.docusaurus/temp"
  /\ Path.joinAll ["../docs"; ".docusaurus"; "temp"] = "../docs/.docusaurus/temp"
  /\ Path.join "/site/.docusaurus/temp" "../../x.png" = "/site/x.png"
  /\ Path.join "" "" = "."
  /\ Path.normalize "/foo/../../../bar" = "/bar"
  /\ Path.normalize "a//b/./c/.." = "a/b"
  /\ Path.normalize "../../x/" = "../../x/"
  /\ Path.normalize "./" = "./".
Proof. repeat split. Qed.

Example first_code_units :
  Js.substring0 8 "8c399ffff145311d" = "8c399fff"
  /\ Js.substring0 8 "ééééééééé" = "éééééééé"
  /\ Js.substring0 2 "a€b" = "a€"
  /\ Js.substring0 3 "a😀b" = "a😀"
  /\ map Js.byte (Js.chars (Js.substring0 2 "a😀b")) = [97; 237; 160; 189].
Proof. repeat split. Qed.

(** No extension the client gives to a download holds a slash, not even
    the text of a member of [Object.prototype]. *)
Lemma extension_no_slash (mimeType : option string) :
  Forall (fun ch => ch <> Path.slash)
    (Js.chars (Js.toString (getExtensionFromMimeType mimeType))).
Proof.
  destruct (getExtensionFromMimeType mimeType) as [e|name] eqn:Hvalue.
  - apply extension_values in Hvalue. cbn [In] in Hvalue.
    destruct Hvalue as [<-|[<-|[<-|[<-|[<-|[<-|[<-|[]]]]]]]];
      repeat (constructor; [discriminate|]); constructor.
  - unfold getExtensionFromMimeType, Js.lookupOr in Hvalue.
    destruct (Js.ownLookup _ _); [destruct (Js.truthy _); discriminate|].
    case_bool_decide as Hname; [|discriminate]. inversion Hvalue; subst name.
    unfold Js.objectPrototypeNames in Hname.
    repeat (apply elem_of_cons in Hname as [->|Hname];
            [repeat (constructor; [discriminate|]); constructor|]).
    now apply elem_of_nil in Hname.
Qed.

Lemma taken_hex_no_slash (n : nat) (data : string) :
  Forall (fun ch => ch <> Path.slash) (take n (Js.chars (Sha256.hex data))).
Proof.
  apply Forall_take, List.Forall_forall. intros ch Hch.
  apply (hexDigit_no_slash ch).
  exact (proj1 (forallb_forall _ _) (hex_digits data) ch Hch).
Qed.

(** The names of the files the client writes are names of files. *)
Lemma temp_name_is_file_name (imageUrl extension : string) :
  Forall (fun ch => ch <> Path.slash) (Js.chars extension) ->
  isFileName ("remote-" +:+ Js.substring0 8 (Sha256.hex imageUrl) +:+ extension).
Proof.
  intros Hext. repeat split; try discriminate.
  rewrite !chars_append, substring0_hex, chars_str.
  apply Forall_app. split; [repeat (constructor; [discriminate|]); constructor|].
  apply Forall_app. split; [apply taken_hex_no_slash|exact Hext].
Qed.

Lemma takeComponent_no_slash (l : list ascii) :
  Forall (fun ch => ch <> Path.slash) (Path.takeComponent l).
Proof.
  induction l as [|ch l IH]; [constructor|]. cbn [Path.takeComponent].
  case_bool_decide; [constructor|]. now constructor.
Qed.

Lemma lastComponent_no_slash (p : string) :
  Forall (fun ch => ch <> Path.slash) (Path.lastComponent p).
Proof. unfold Path.lastComponent. apply Forall_rev, takeComponent_no_slash. Qed.

Lemma basenameExt_no_slash (p ext : string) :
  Forall (fun ch => ch <> Path.slash) (Js.chars (Path.basenameExt p ext)).
Proof.
  unfold Path.basenameExt, Path.basename.
  repeat match goal with |- context [if ?b then _ else _] => destruct b end;
    rewrite ?chars_str; try apply lastComponent_no_slash; try constructor.
  apply Forall_take, lastComponent_no_slash.
Qed.

Lemma png_name_is_file_name (imagePath ext : string) :
  isFileName (Path.basenameExt imagePath ext +:+ ".png").
Proof.
  assert (Hlen : forall s : string, (4 <= length (Js.chars (s +:+ ".png")))%nat).
  { intros s. rewrite chars_append, List.length_app. cbn. lia. }
  repeat split.
  - intros Heq. specialize (Hlen (Path.basenameExt imagePath ext)).
    rewrite Heq in Hlen. cbn in Hlen. lia.
  - intros Heq. specialize (Hlen (Path.basenameExt imagePath ext)).
    rewrite Heq in Hlen. cbn in Hlen. lia.
  - intros Heq. specialize (Hlen (Path.basenameExt imagePath ext)).
    rewrite Heq in Hlen. cbn in Hlen. lia.
  - rewrite chars_append. apply Forall_app. split; [apply basenameExt_no_slash|].
    repeat (constructor; [discriminate|]); constructor.
Qed.

(** The two files the client writes lie right in the temporary directory. *)
Lemma tempFileOf_below (root imageUrl : string) (mimeType : option string) :
  tempFileOf root imageUrl (getExtensionFromMimeType mimeType)
  = tempDirOf root +:+ "/" +:+ "remote-" +:+ Js.substring0 8 (Sha256.hex imageUrl)
    +:+ Js.toString (getExtensionFromMimeType mimeType).
Proof. apply join_tempDir, temp_name_is_file_name, extension_no_slash. Qed.

Lemma pngOf_below (root imagePath : string) :
  pngOf root imagePath
  = tempDirOf root +:+ "/"
    +:+ Path.basenameExt imagePath (Js.toLowerCase (Path.extname imagePath)) +:+ ".png".
Proof. apply join_tempDir, png_name_is_file_name. Qed.

(** The digits of a digest are plain characters, and so the temporary
    file of a download has the extension it was given. *)
Lemma extname_of_temp_file (root imageUrl : string) (e : list ascii) :
  e <> [] ->
  Forall isPlain e ->
  Path.extname (tempFileOf root imageUrl (Js.VString (Js.str (Path.dot :: e))))
  = Js.str (Path.dot :: e).
Proof.
  intros He Hplain. unfold tempFileOf, Js.toString.
  destruct (join_file_name (tempDirOf root)
              ("remote-" +:+ Js.substring0 8 (Sha256.hex imageUrl)
               +:+ Js.str (Path.dot :: e))) as (dir & -> & Hdir).
  { apply temp_name_is_file_name. rewrite chars_str.
    constructor; [discriminate|]. eapply Forall_impl; [exact Hplain|]. now intros ch []. }
  rewrite !chars_append, substring0_hex, !chars_str.
  rewrite (List.app_assoc (Js.chars "remote-")).
  apply extname_of_file_name.
  - exact Hdir.
  - discriminate.
  - apply Forall_app. split; [|apply taken_hex_no_slash].
    repeat (constructor; [discriminate|]); constructor.
  - exact He.
  - exact Hplain.
Qed.

Lemma temp_file_of_extension (root imageUrl e : string) :
  In e [".jpg"; ".png"; ".gif"; ".svg"; ".webp"; ".bmp"; ".tiff"] ->
  Path.extname (tempFileOf root imageUrl (Js.VString e)) = e.
Proof.
  intros Hin. cbn [In] in Hin.
  destruct Hin as [<-|[<-|[<-|[<-|[<-|[<-|[<-|[]]]]]]]].
  - apply (extname_of_temp_file root imageUrl (Js.chars "jpg")); [discriminate|].
    repeat (apply List.Forall_cons; [split; discriminate|]). apply List.Forall_nil.
  - apply (extname_of_temp_file root imageUrl (Js.chars "png")); [discriminate|].
    repeat (apply List.Forall_cons; [split; discriminate|]). apply List.Forall_nil.
  - apply (extname_of_temp_file root imageUrl (Js.chars "gif")); [discriminate|].
    repeat (apply List.Forall_cons; [split; discriminate|]). apply List.Forall_nil.
  - apply (extname_of_temp_file root imageUrl (Js.chars "svg")); [discriminate|].
    repeat (apply List.Forall_cons; [split; discriminate|]). apply List.Forall_nil.
  - apply (extname_of_temp_file root imageUrl (Js.chars "webp")); [discriminate|].
    repeat (apply List.Forall_cons; [split; discriminate|]). apply List.Forall_nil.
  - apply (extname_of_temp_file root imageUrl (Js.chars "bmp")); [discriminate|].
    repeat (apply List.Forall_cons; [split; discriminate|]). apply List.Forall_nil.
  - apply (extname_of_temp_file root imageUrl (Js.chars "tiff")); [discriminate|].
    repeat (apply List.Forall_cons; [split; discriminate|]). apply List.Forall_nil.
Qed.

(** ** Tactics *)

Ltac booleans :=
  repeat match goal with
    | a : unit |- _ => destruct a
    | H : negb ?b = _ |- _ => destruct b eqn:?; try discriminate H; clear H
    end.

(** Filters over the events of a run, the conversion and the clean-up
    known by the kind of their events. *)
Ltac sift :=
  repeat first
    [ progress cbn [List.filter app isBackendCall isStateWritten isHttpGet isWriteStream
                    isReadFile isFilesCreate isRemove]
    | rewrite List.filter_app
    | match goal with
      | Hk : forallb ?g ?l = true |- context [List.filter ?f ?l] =>
          rewrite (filter_none f g l);
          [ | intros ev; destruct ev as [| |? []| | | | | | | | | | | | |[]|];
              cbn; congruence
            | exact Hk ]
      end ].

(** Where an event of a run is: one goal per place. *)
Ltac locate Hin :=
  cbn [app] in Hin;
  repeat match type of Hin with
    | In _ [] => destruct Hin
    | In _ (_ :: _) =>
        destruct Hin as [Hin|Hin];
        [try discriminate Hin; try (inversion Hin; subst; clear Hin)|]
    | In ?ev (?l ++ _) =>
        apply in_app_or in Hin; destruct Hin as [Hin|Hin];
        [ try match goal with
              | Hk : forallb ?g l = true |- _ =>
                  exfalso;
                  let Hc := fresh in
                  pose proof (proj1 (forallb_forall g l) Hk ev Hin) as Hc;
                  discriminate Hc
              end
        | cbn [app] in Hin ]
    end.

Ltac flatten :=
  repeat (progress (rewrite ?List.app_nil_r, <- ?List.app_assoc; cbn [app])).

Ltac member :=
  flatten; repeat first [ left; reflexivity | right | apply in_or_app; right ].

Ltac adjacent :=
  flatten;
  repeat first
    [ apply followedBy_here
    | apply followedBy_cons
    | apply followedBy_app ].

Ltac keyed :=
  first
    [ reflexivity
    | unfold hashedAs; do 3 eexists; split; [eassumption|];
      match goal with H : Js.truthy _ = _ |- _ => rewrite H end; eauto ].

Ltac pruneDead :=
  try match goal with
      | Hd : valueTruthy (getExtensionFromMimeType _) = false |- _ =>
          rewrite extension_is_truthy in Hd; discriminate Hd
      end;
  notInherited.

(** The runs of an upload method, one goal per sequence of answers. *)
Ltac runLive env H :=
  repeat (cbn beta iota zeta in H;
          cbn [world projectRoot imageFolderId uploadedImages withWorld] in H;
          pruneDead; nextStep env H).

Ltac runsOf env H :=
  unfold uploadImage, uploadRemoteImage, adoptRecorded, pathnameOf in H; unfoldMonad;
  runLive env H; inversion H; subst; clear H.

(** The same for a run whose outcome is known. *)
Ltac runKnown env H :=
  unfold uploadImage, uploadRemoteImage, adoptRecorded, pathnameOf in H; unfoldMonad;
  repeat (cbn beta iota zeta in H;
          cbn [world projectRoot imageFolderId uploadedImages withWorld] in H;
          try discriminate H; pruneDead; nextStep env H);
  inversion H; subst; clear H.

Ltac runFolder H :=
  unfold ensureImageFolder in H; unfoldMonad;
  repeat (cbn beta iota zeta in H;
          cbn [world projectRoot imageFolderId uploadedImages withWorld] in H;
          try discriminate H;
          lazymatch type of H with context [match ?x with _ => _ end] => caseOn x end);
  inversion H; subst; clear H.

(** ** A recorded file that is gone *)


Section Recovery.
Context {W : Type} (env : Env W).


End Recovery.

(** * More of the client *)

(** ** [initialize] and [ensureImageFolder] *)

Section Folder.
Context {W : Type} (env : Env W).

Lemma ensureImageFolder_keeps_cache (c c' : Client W) (evs : list Event)
    (r : Result string) :
  ensureImageFolder env c = (c', evs, r) ->
  uploadedImages c' = uploadedImages c /\ projectRoot c' = projectRoot c.
Proof.
  intros H. runFolder H. all: split; reflexivity.
Qed.

(** X1. [initialize] never answers [false]: it returns [true] with the folder
    of the client set to the id [ensureImageFolder] returned, after a line
    on the console, or it throws what [ensureImageFolder] threw, after a
    second error line.  The session cache is not touched. *)
Theorem initialize_outcome (c c' : Client W) (evs : list Event) (r : Result bool) :
  initialize env c = (c', evs, r) ->
  uploadedImages c' = uploadedImages c
  /\ match r with
     | Ok answer =>
         answer = true
         /\ exists evs0 folderId,
             ensureImageFolder env c = (c', evs0, Ok folderId)
             /\ imageFolderId c' = Some folderId
             /\ evs = evs0 ++ [EvConsole Log "✅ Google Drive client initialized successfully"]
     | Throw e =>
         exists evs0,
           ensureImageFolder env c = (c', evs0, Throw e)
           /\ evs = evs0 ++ [EvConsole Error
                               ("❌ Failed to initialize Google Drive client: " +:+ e)]
     end.
Proof.
  unfold initialize. unfoldMonad.
  destruct (ensureImageFolder env c) as [[c1 evs1] [folderId|e]] eqn:Hrun;
    cbn beta iota zeta; intros H; inversion H; subst; clear H.
  - split; [exact (proj1 (ensureImageFolder_keeps_cache _ _ _ _ Hrun))|].
    split; [reflexivity|]. exists evs1, folderId.
    split; [reflexivity|]. split; [|reflexivity].
    pose proof (ensureImageFolder_ensured env _ _ _ _ Hrun) as Hens.
    destruct Hens; assumption.
  - split; [exact (proj1 (ensureImageFolder_keeps_cache _ _ _ _ Hrun))|].
    exists evs1. split; reflexivity.
Qed.

(** X2. After [initialize] has returned, the files an upload method creates go
    into the folder of the client: the one [initialize] found alive or the
    one it created. *)
Theorem uploads_go_to_the_initialized_folder (ref : AssetRef) (c c1 c1' c2 : Client W)
    (evs1 evs2 : list Event) (answer : bool) (r : Result UploadReturn)
    (resource : FileMetadata) (media : option Media) (created : Result CreatedFile) :
  initialize env c = (c1, evs1, Ok answer) ->
  imageFolderId c1' = imageFolderId c1 ->
  resolve env ref c1' = (c2, evs2, r) ->
  In (EvFilesCreate resource media created) evs2 ->
  exists folderId,
    parents resource = [Some folderId]
    /\ ((exists live, In (EvFilesGet folderId (Ok live)) evs1 /\ trashed live = false)
        \/ exists request folder,
            In (EvFilesCreate request None (Ok folder)) evs1 /\ id folder = folderId).
Proof.
  intros Hinit Hsame Hrun Hin.
  unfold initialize in Hinit. unfoldMonad.
  destruct (ensureImageFolder env c) as [[c0 evs0] [folderId|e]] eqn:Hfolder;
    cbn beta iota zeta in Hinit; inversion Hinit; subst; clear Hinit.
  pose proof (ensureImageFolder_ensured env _ _ _ _ Hfolder) as Hens.
  assert (Hsub : forall ev, In ev (backendCalls evs0) ->
                            In ev (evs0 ++ [EvConsole Log
                                     "✅ Google Drive client initialized successfully"])).
  { intros ev Hev. apply in_or_app. left. now apply List.filter_In in Hev. }
  assert (Hparents : parents resource = [imageFolderId c1']).
  { clear Hens Hsub Hfolder Hsame.
    destruct ref as [imagePath given|imageUrl]; cbn [resolve] in *.
    - runsOf env Hrun. all: locate Hin. all: reflexivity.
    - runsOf env Hrun. all: locate Hin. all: reflexivity. }
  exists folderId. rewrite Hparents, Hsame.
  destruct Hens as [? ? live _ _ Hlive ->|? ? ? folder ? _ _ ->|? ? ? ? ? folder ? _ _ _ _ ->].
  - split; [reflexivity|]. left. exists live. split; [|exact Hlive].
    apply Hsub. cbn. auto.
  - split; [reflexivity|]. right. do 2 eexists. split; [|reflexivity].
    apply Hsub. cbn. auto.
  - split; [reflexivity|]. right. do 2 eexists. split; [|reflexivity].
    apply Hsub. cbn. auto.
Qed.

(** X3. When [ensureImageFolder] throws, it passes on the error of the last
    call it made, after a line on the console; the state has not been
    written.  A folder that had been created by then stays the folder of the
    client, although no state records it.  The session cache is not
    touched. *)
Theorem ensureImageFolder_failure (c c' : Client W) (evs : list Event) (e : Exn) :
  ensureImageFolder env c = (c', evs, Throw e) ->
  (exists pre ev,
      evs = pre ++ [ev; EvConsole Error ("❌ Failed to ensure image folder: " +:+ e)]
      /\ thrownBy ev = Some e
      /\ isSwallowed ev = false)
  /\ List.filter isStateWritten evs = []
  /\ (forall resource media folder,
        In (EvFilesCreate resource media (Ok folder)) evs ->
        imageFolderId c' = Some (id folder))
  /\ uploadedImages c' = uploadedImages c.
Proof.
  intros H. runFolder H.
  all: split; [do 2 eexists; split;
               [apply ends_with_two; rewrite ?rev_app_distr; cbn; reflexivity|];
               split; reflexivity|].
  all: split; [reflexivity|].
  all: split; [|reflexivity].
  all: intros resource media folder Hin; cbn in Hin; whichEvent Hin; reflexivity.
Qed.

(** X4. Whatever comes of it, [ensureImageFolder] sends at most one
    files.create: a folder under the root of the Drive, without media, named
    after the clock.  The state write that follows records that name and the
    id Drive gave to the folder. *)
Theorem folder_request (c c' : Client W) (evs : list Event) (r : Result string)
    (resource : FileMetadata) (media : option Media) (answer : Result CreatedFile) :
  ensureImageFolder env c = (c', evs, r) ->
  In (EvFilesCreate resource media answer) evs ->
  List.filter isFilesCreate evs = [EvFilesCreate resource media answer]
  /\ media = None
  /\ metaMimeType resource = Some "application/vnd.google-apps.folder"
  /\ parents resource = [Some "root"]
  /\ (exists now, In (EvDateNow now) evs /\ name resource = "docflu-files-" +:+ pretty now)
  /\ (forall partial written,
        In (EvUpdateState partial written) evs ->
        st_imageFolderName partial = Some (name resource)
        /\ exists folder, answer = Ok folder /\ st_imageFolderId partial = Some (id folder)).
Proof.
  intros H Hin. unfold ensureImageFolder in H. unfoldMonad.
  repeat (cbn beta iota zeta in H;
          cbn [world projectRoot imageFolderId uploadedImages withWorld] in H;
          lazymatch type of H with context [match ?x with _ => _ end] => caseOn x end).
  all: inversion H; subst; clear H.
  all: locate Hin.
  all: split; [reflexivity|]; split; [reflexivity|]; split; [reflexivity|].
  all: split; [reflexivity|]; split; [eexists; split; [member|reflexivity]|].
  all: intros partial written Hw; locate Hw.
  all: split; [reflexivity|]; eexists; split; reflexivity.
Qed.

End Folder.

(** ** [convertImageForGoogleDocs] and [uploadImage] *)

Section Local.
Context {W : Type} (env : Env W).

(** X5. An image that is not an SVG, by its extension and by the content type
    given, is answered as it is, without a call.  For an SVG [sharp] is
    loaded first, and the path of the PNG in the temporary directory is
    answered only after the four steps of the conversion have succeeded. *)
Theorem only_svg_is_converted (imagePath : string) (contentType : option string)
    (c c' : Client W) (evs : list Event) (r : Result string) :
  convertImageForGoogleDocs env imagePath contentType c = (c', evs, r) ->
  let isSvg := Js.toLowerCase (Path.extname imagePath) = ".svg"
               \/ contentType = Some "image/svg+xml" in
  let target := pngOf (projectRoot c) imagePath in
  (~ isSvg -> c' = c /\ evs = [] /\ r = Ok imagePath)
  /\ (isSvg ->
      exists answer rest, evs = EvRequireSharp answer :: rest)
  /\ (r = Ok imagePath
      \/ r = Ok target
         /\ evs = [EvRequireSharp (Ok tt); EvEnsureDir (tempDirOf (projectRoot c)) (Ok tt);
                   EvSharpToFile imagePath target (Ok tt); EvPathExists target true]).
Proof.
  intros H isSvg target. subst isSvg target. unfold convertImageForGoogleDocs in H.
  destruct (bool_decide (Js.toLowerCase (Path.extname imagePath) = ".svg")) eqn:Hext;
    [apply bool_decide_eq_true in Hext|apply bool_decide_eq_false in Hext];
    (destruct (bool_decide (contentType = Some "image/svg+xml")) eqn:Htype;
     [apply bool_decide_eq_true in Htype|apply bool_decide_eq_false in Htype]);
    cbn [orb negb] in H; unfoldMonad.
  4: { inversion H; subst. split; [auto|]. split; [|auto]. intros [?|?]; contradiction. }
  all: repeat (cbn beta iota zeta in H;
               lazymatch type of H with context [match ?x with _ => _ end] => caseOn x end).
  all: inversion H; subst; clear H; booleans.
  all: split; [intros Hno; exfalso; apply Hno; auto|].
  all: split; [intros _; cbn [app]; eauto|].
  all: auto.
Qed.

Lemma convert_png (imagePath : string) (contentType : option string) (c c' : Client W)
    (evs : list Event) (r : Result string) (q : string) :
  convertImageForGoogleDocs env imagePath contentType c = (c', evs, r) ->
  In (EvPathExists q true) evs ->
  r = Ok q /\ q = pngOf (projectRoot c) imagePath.
Proof.
  intros H Hin. unfold convertImageForGoogleDocs in H.
  destruct (negb _); unfoldMonad.
  - inversion H; subst. destruct Hin.
  - repeat (cbn beta iota zeta in H;
            lazymatch type of H with context [match ?x with _ => _ end] => caseOn x end).
    all: inversion H; subst; clear H.
    all: locate Hin.
    all: split; reflexivity.
Qed.

(** X6. When the conversion of a local SVG has produced its PNG, it is the PNG
    that is read for the hash and uploaded; and [uploadImage] removes
    nothing, so that the PNG stays in the temporary directory. *)
Theorem local_svg_is_uploaded_as_png (imagePath : string) (given : option string)
    (c c' : Client W) (evs : list Event) (r : Result UploadReturn) (q : string) :
  uploadImage env imagePath given c = (c', evs, r) ->
  In (EvPathExists q true) evs ->
  q = pngOf (projectRoot c) imagePath
  /\ (forall path answer, In (EvReadFile path answer) evs -> path = q)
  /\ (forall resource media answer,
        In (EvFilesCreate resource media answer) evs ->
        exists m, media = Some m /\ body m = q)
  /\ List.filter isRemove evs = [].
Proof.
  intros H Hin. runsOf env H.
  all: locate Hin.
  all: match goal with
       | Hc : convertImageForGoogleDocs _ _ _ _ = _, Hl : In (EvPathExists _ _) _ |- _ =>
           destruct (convert_png _ _ _ _ _ _ _ Hc Hl) as [Hq ->]; inversion Hq; subst
       end.
  all: split; [reflexivity|].
  all: split; [intros path answer Hread; locate Hread; reflexivity|].
  all: split; [intros resource media answer Hcreate; locate Hcreate;
               eexists; split; reflexivity|].
  all: sift; reflexivity.
Qed.

(** X7. A hash handed in by the caller is taken as it is: the file is not read.
    Without one (or with the empty string) the processed file is read
    exactly once; a remote image is never read back. *)
Theorem given_hash_is_trusted (ref : AssetRef) (c c' : Client W) (evs : list Event)
    (r : Result UploadReturn) :
  resolve env ref c = (c', evs, r) ->
  match ref with
  | LocalPath imagePath given =>
      exists w evs0 processed,
        convertImageForGoogleDocs env imagePath None c = (withWorld w c, evs0, Ok processed)
        /\ if Js.truthy given then List.filter isReadFile evs = []
           else exists answer,
               List.filter isReadFile evs = [EvReadFile processed answer]
  | RemoteUrl _ => List.filter isReadFile evs = []
  end.
Proof.
  intros H. destruct ref as [imagePath given|imageUrl]; cbn [resolve] in *.
  - runsOf env H.
    all: booleans.
    all: do 3 eexists; (split; [eassumption|]).
    all: cbn beta iota.
    all: try eexists; sift; reflexivity.
  - runsOf env H.
    all: sift; reflexivity.
Qed.

End Local.

(** ** The two upload methods *)

Section Both.
Context {W : Type} (env : Env W).

(** X8. Whatever comes of it, an upload method sends at most one files.create;
    the request names the folder of the client as the only parent (none when
    the client has no folder), gives no MIME type in the metadata, takes the
    MIME type of the media from the extension of the uploaded path, and
    names the file after the first eight characters of the key. *)
Theorem upload_request (ref : AssetRef) (c c' : Client W) (evs : list Event)
    (r : Result UploadReturn) (resource : FileMetadata) (media : option Media)
    (answer : Result CreatedFile) :
  resolve env ref c = (c', evs, r) ->
  In (EvFilesCreate resource media answer) evs ->
  List.filter isFilesCreate evs = [EvFilesCreate resource media answer]
  /\ parents resource = [imageFolderId c]
  /\ metaMimeType resource = None
  /\ exists h m,
      keyOf env ref c h
      /\ media = Some m
      /\ mimeType m = getMimeType (body m)
      /\ name resource = uploadName ref h (body m).
Proof.
  intros H Hin. destruct ref as [imagePath given|imageUrl]; cbn [resolve keyOf] in *.
  - runsOf env H.
    all: locate Hin.
    all: booleans.
    all: split; [sift; reflexivity|].
    all: split; [reflexivity|]; split; [reflexivity|].
    all: do 2 eexists; split; [keyed|]; repeat split.
  - runsOf env H.
    all: locate Hin.
    all: booleans.
    all: split; [sift; reflexivity|].
    all: split; [reflexivity|]; split; [reflexivity|].
    all: do 2 eexists; split; [keyed|]; repeat split.
Qed.

(** X9. The state write of an upload method is built on the state read just
    before it: it carries the folder id of the client, the new record under
    the key, and every other record of that state as it was read. *)
Theorem state_write_keeps_other_records (ref : AssetRef) (c c' : Client W)
    (evs : list Event) (r : Result UploadReturn) (partial : GoogleDriveState)
    (answer : Result unit) :
  resolve env ref c = (c', evs, r) ->
  In (EvUpdateState partial answer) evs ->
  exists currentState h res,
    followedBy (EvLoadState (Ok currentState)) (EvUpdateState partial answer) evs
    /\ keyOf env ref c h
    /\ uploadedImages c' !! h = Some res
    /\ st_imageFolderId partial = imageFolderId c
    /\ st_uploadedImages partial ≫= (fun images => images !! h) = Some res
    /\ forall k, k <> h ->
         st_uploadedImages partial ≫= (fun images => images !! k)
         = stateUploadedImage currentState k.
Proof.
  intros H Hin. destruct ref as [imagePath given|imageUrl]; cbn [resolve keyOf] in *.
  - runsOf env H.
    all: locate Hin.
    all: booleans.
    all: do 3 eexists; split; [adjacent|]; split; [keyed|].
    all: cbn [uploadedImages withWorld]; split; [apply lookup_insert_eq|].
    all: split; [reflexivity|]; split; [cbn; apply lookup_insert_eq|].
    all: intros k Hk; apply recordPartial_others; exact Hk.
  - runsOf env H.
    all: locate Hin.
    all: booleans.
    all: do 3 eexists; split; [adjacent|]; split; [keyed|].
    all: cbn [uploadedImages withWorld]; split; [apply lookup_insert_eq|].
    all: split; [reflexivity|]; split; [cbn; apply lookup_insert_eq|].
    all: intros k Hk; apply recordPartial_others; exact Hk.
Qed.

(** X10. Whatever the outcome, an upload method keeps what the session cache
    holds, and leaves [this.imageFolderId] and [this.projectRoot] alone. *)
Theorem session_cache_only_grows (ref : AssetRef) (c c' : Client W)
    (evs : list Event) (r : Result UploadReturn) :
  resolve env ref c = (c', evs, r) ->
  (forall k u, uploadedImages c !! k = Some u -> uploadedImages c' !! k = Some u)
  /\ imageFolderId c' = imageFolderId c
  /\ projectRoot c' = projectRoot c.
Proof.
  intros H. destruct ref as [imagePath given|imageUrl]; cbn [resolve] in H.
  - runsOf env H.
    all: cbn [uploadedImages imageFolderId projectRoot withWorld].
    all: split; [|split; reflexivity].
    all: intros k0 u0 Hk; try exact Hk; now apply lookup_kept.
  - runsOf env H.
    all: cbn [uploadedImages imageFolderId projectRoot withWorld].
    all: split; [|split; reflexivity].
    all: intros k0 u0 Hk; try exact Hk; now apply lookup_kept.
Qed.

(** X11. An upload method that throws passes on the error of the last call it
    made, a call whose errors it does not catch, and calls nothing after
    it; the one error of its own is that of [new URL(imageUrl)]. *)
Theorem upload_error_is_the_failed_call (ref : AssetRef) (c c' : Client W)
    (evs : list Event) (e : Exn) :
  resolve env ref c = (c', evs, Throw e) ->
  (exists pre ev,
      evs = pre ++ ev :: catchLine ref e
      /\ thrownBy ev = Some e
      /\ isSwallowed ev = false)
  \/ (exists imageUrl,
        ref = RemoteUrl imageUrl /\ urlPathname env imageUrl = None /\ e = "Invalid URL").
Proof.
  intros H. destruct ref as [imagePath given|imageUrl]; cbn [resolve catchLine] in *.
  - runKnown env H.
    all: left; do 2 eexists; split;
      [apply ends_with_one; repeat first [rewrite rev_app_distr | progress cbn [rev app]];
       reflexivity|split; reflexivity].
  - runKnown env H.
    all: try (left; do 2 eexists; split;
      [apply ends_with_two; repeat first [rewrite rev_app_distr | progress cbn [rev app]];
       reflexivity|split; reflexivity]).
    all: try (right; eexists; split; [reflexivity|]; split; [assumption|reflexivity]).
Qed.

(** X12. When the permission call of an upload fails, the method throws that
    error: the file that has just been created stays on Drive, is in neither
    the session cache nor the state, and is not made public. *)
Theorem failed_permission_leaves_an_unrecorded_file (ref : AssetRef) (c c' : Client W)
    (evs : list Event) (r : Result UploadReturn) (file role type : string) (e : Exn) :
  resolve env ref c = (c', evs, r) ->
  In (EvPermissionsCreate file role type (Throw e)) evs ->
  r = Throw e
  /\ uploadedImages c' = uploadedImages c
  /\ List.filter isStateWritten evs = []
  /\ exists resource media created,
      followedBy (EvFilesCreate resource (Some media) (Ok created))
                 (EvPermissionsCreate file role type (Throw e)) evs
      /\ id created = file.
Proof.
  intros H Hin. destruct ref as [imagePath given|imageUrl]; cbn [resolve] in *.
  - runsOf env H.
    all: locate Hin.
    all: split; [reflexivity|]; split; [reflexivity|]; split; [sift; reflexivity|].
    all: do 3 eexists; split; [adjacent|reflexivity].
  - runsOf env H.
    all: locate Hin.
    all: split; [reflexivity|]; split; [reflexivity|]; split; [sift; reflexivity|].
    all: do 3 eexists; split; [adjacent|reflexivity].
Qed.

(** X13. When the state read or the state write after a completed upload
    throws, the method throws, the state has not been written, and the new
    file is in the session cache all the same: the next request with the same
    key in this session is answered from the cache, with the id of that
    file, without any backend call. *)
Theorem upload_stays_in_session_when_state_write_fails (ref : AssetRef)
    (c c' : Client W) (evs : list Event) (e : Exn) (file : string) :
  resolve env ref c = (c', evs, Throw e) ->
  In (EvPermissionsCreate file "reader" "anyone" (Ok tt)) evs ->
  List.filter isStateWritten evs = []
  /\ exists h res,
      keyOf env ref c h
      /\ uploadedImages c !! h = None
      /\ uploadedImages c' !! h = Some res
      /\ fileId res = file
      /\ forall ref2 c2,
          uploadedImages c2 = uploadedImages c' ->
          keyOf env ref2 c2 h ->
          exists c3 evs3,
            resolve env ref2 c2 = (c3, evs3, Ok {| recorded := res; cached := true |})
            /\ backendCalls evs3 = [].
Proof.
  intros H Hin. destruct ref as [imagePath given|imageUrl]; cbn [resolve keyOf] in *.
  - runKnown env H.
    all: locate Hin.
    all: booleans.
    all: split; [sift; reflexivity|].
    all: do 2 eexists; split; [keyed|]; split; [eassumption|];
      cbn [uploadedImages withWorld]; split; [apply lookup_insert_eq|];
      split; [reflexivity|].
    all: intros ref2 c2 Hsame Hkey2;
      edestruct (resolve_hit env ref2 c2) as (wnext & evsnext & Hrun & Hq);
      [exact Hkey2
      |rewrite Hsame; cbn [uploadedImages withWorld]; apply lookup_insert_eq|];
      eauto.
  - runKnown env H.
    all: locate Hin.
    all: booleans.
    all: split; [sift; reflexivity|].
    all: do 2 eexists; split; [keyed|]; split; [eassumption|];
      cbn [uploadedImages withWorld]; split; [apply lookup_insert_eq|];
      split; [reflexivity|].
    all: intros ref2 c2 Hsame Hkey2;
      edestruct (resolve_hit env ref2 c2) as (wnext & evsnext & Hrun & Hq);
      [exact Hkey2
      |rewrite Hsame; cbn [uploadedImages withWorld]; apply lookup_insert_eq|];
      eauto.
Qed.

End Both.

(** ** [uploadRemoteImage] *)

Section Remote.
Context {W : Type} (env : Env W).

(** X14. A remote image that is answered as cached costs nothing but the reads
    that check it: nothing is printed, downloaded, written or removed.  One
    that is uploaded is downloaded once and written once. *)
Theorem cached_remote_image_is_not_downloaded (imageUrl : string) (c c' : Client W)
    (evs : list Event) (ret : UploadReturn) :
  uploadRemoteImage env imageUrl c = (c', evs, Ok ret) ->
  if cached ret then backendCalls evs = evs
  else exists response p,
      List.filter isHttpGet evs = [EvHttpGet imageUrl (Ok response)]
      /\ List.filter isWriteStream evs = [EvWriteStream p (data response) (Ok tt)].
Proof.
  intros H. runKnown env H.
  all: cbn [cached].
  all: try reflexivity.
  all: booleans.
  all: do 2 eexists; split; sift; reflexivity.
Qed.

(** X15. What is written to the temporary file is the body of the response that
    has just arrived, and the file is named after the key and the extension
    that belongs to the content type of the response: the extension of the
    address plays no part. *)
Theorem temp_file_named_after_content_type (imageUrl : string) (c c' : Client W)
    (evs : list Event) (r : Result UploadReturn) (p bytes : string)
    (answer : Result unit) :
  uploadRemoteImage env imageUrl c = (c', evs, r) ->
  In (EvWriteStream p bytes answer) evs ->
  exists response,
    followedBy (EvHttpGet imageUrl (Ok response)) (EvWriteStream p bytes answer) evs
    /\ bytes = data response
    /\ p = tempFileOf (projectRoot c) imageUrl
             (getExtensionFromMimeType (contentType response)).
Proof.
  intros H Hin. runsOf env H.
  all: locate Hin.
  all: eexists; split; [adjacent|]; split; reflexivity.
Qed.

Lemma convert_skips (imagePath : string) (contentType : option string) (c : Client W) :
  Js.toLowerCase (Path.extname imagePath) <> ".svg" ->
  contentType <> Some "image/svg+xml" ->
  convertImageForGoogleDocs env imagePath contentType c = (c, [], Ok imagePath).
Proof.
  intros Hext Htype. unfold convertImageForGoogleDocs.
  rewrite (bool_decide_eq_false_2 _ Hext), (bool_decide_eq_false_2 _ Htype).
  reflexivity.
Qed.

(** X16. An image that is not an SVG, by the answer of the server and by the
    address, is uploaded from the temporary file as it was downloaded, under
    a name with the extension of the content type and with the MIME type the
    client's table gives for that extension: the content type itself when it
    is one of the table. *)
Theorem remote_image_keeps_its_content_type (imageUrl : string) (c c' : Client W)
    (evs : list Event) (r : Result UploadReturn) (response : HttpResponse)
    (resource : FileMetadata) (media : option Media) (answer : Result CreatedFile)
    (e : string) :
  uploadRemoteImage env imageUrl c = (c', evs, r) ->
  In (EvHttpGet imageUrl (Ok response)) evs ->
  In (EvFilesCreate resource media answer) evs ->
  getExtensionFromMimeType (contentType response) = Js.VString e ->
  e <> ".svg" ->
  (forall pathname,
      urlPathname env imageUrl = Some pathname ->
      Js.endsWith (Js.toLowerCase pathname) ".svg" = false) ->
  exists m,
    media = Some m
    /\ body m = tempFileOf (projectRoot c) imageUrl (Js.VString e)
    /\ name resource = "remote-" +:+ Js.substring0 8 (Sha256.hex imageUrl) +:+ e
    /\ mimeType m = Js.lookupOr mimeTypes e "image/jpeg"
    /\ (forall t, contentType response = Some t -> In (t, e) extensions ->
                  mimeType m = Js.VString t).
Proof.
  intros H Hget Hcreate Hext Hsvg Hurl.
  pose proof (extension_values _ _ Hext) as Hvalues.
  pose proof (temp_file_of_extension (projectRoot c) imageUrl e Hvalues) as Hname.
  change (Path.extname (Path.join (tempDirOf (projectRoot c))
                          ("remote-" +:+ Js.substring0 8 (Sha256.hex imageUrl) +:+ e)) = e)
    in Hname.
  assert (Hlower : Js.toLowerCase e = e).
  { cbn [In] in Hvalues.
    destruct Hvalues as [<-|[<-|[<-|[<-|[<-|[<-|[<-|[]]]]]]]]; reflexivity. }
  assert (Htype : contentType response <> Some "image/svg+xml").
  { intros Heq. rewrite Heq in Hext. vm_compute in Hext. congruence. }
  runsOf env H.
  all: locate Hget.
  all: locate Hcreate.
  all: rewrite Hext in *; unfold Js.toString, Js.strictEq in *.
  all: match goal with
       | Hc : convertImageForGoogleDocs _ _ _ _ = _ |- _ =>
           rewrite (Hurl _ eq_refl), (bool_decide_eq_false_2 _ Hsvg) in Hc;
           cbn [orb] in Hc;
           rewrite convert_skips in Hc by (rewrite ?Hname, ?Hlower; assumption);
           inversion Hc; subst
       end.
  all: eexists; split; [reflexivity|]; cbn [body mimeType name].
  all: split; [reflexivity|]; split; [now rewrite Hname|].
  all: unfold getMimeType; rewrite Hname, Hlower; split; [reflexivity|].
  all: intros t Ht Hin; clear - Hin; unfold extensions in Hin; cbn [In] in Hin.
  all: destruct Hin as [Hin|[Hin|[Hin|[Hin|[Hin|[Hin|[Hin|[]]]]]]]];
    inversion Hin; reflexivity.
Qed.

(** X17. The clean-up block never throws.  It removes only the two paths it
    is given, each after having seen that it exists; and when the removal of
    the download fails, the converted file is not looked at any more: a
    warning is all that follows. *)
Theorem cleanup_stops_at_first_failure (tempFilePath processedImagePath : string)
    (c c' : Client W) (evs : list Event) (r : Result unit) :
  cleanupTempFiles env tempFilePath processedImagePath c = (c', evs, r) ->
  r = Ok tt
  /\ (forall q answer,
        In (EvRemove q answer) evs ->
        (q = tempFilePath \/ q = processedImagePath) /\ In (EvPathExists q true) evs)
  /\ (forall e,
        In (EvRemove tempFilePath (Throw e)) evs ->
        evs = [EvPathExists tempFilePath true; EvRemove tempFilePath (Throw e);
               EvConsole Warn ("⚠️ Failed to cleanup temp files: " +:+ e)]).
Proof.
  intros H. unfold cleanupTempFiles in H. unfoldMonad.
  repeat (cbn beta iota zeta in H;
          lazymatch type of H with context [match ?x with _ => _ end] => caseOn x end).
  all: inversion H; subst; clear H; booleans.
  all: split; [reflexivity|].
  all: split;
    [ intros q answer Hin; cbn [app In] in Hin;
      repeat (destruct Hin as [Hin|Hin];
              [try discriminate Hin; inversion Hin; subst; cbn; auto 10|]);
      destruct Hin
    | intros e0 Hin; cbn [app In] in Hin;
      repeat (destruct Hin as [Hin|Hin];
              [try discriminate Hin; inversion Hin; subst;
               try reflexivity;
               repeat match goal with
                 | Hb : bool_decide (?x = ?x) = false |- _ =>
                     apply bool_decide_eq_false in Hb; contradiction
                 end|]);
      destruct Hin ].
Qed.

Lemma cleanup_paths (tempFilePath processedImagePath : string) (c : Client W) :
  exists w evs,
    cleanupTempFiles env tempFilePath processedImagePath c = (withWorld w c, evs, Ok tt)
    /\ forallb (isCleanupOf tempFilePath processedImagePath) evs = true.
Proof.
  unfold cleanupTempFiles. unfoldMonad.
  runAll; subst; simplify_eq; cbn [app]; rewrite ?withWorld_withWorld;
    repeat match goal with a : unit |- _ => destruct a end;
    try (do 2 eexists; split; [reflexivity|]).
  all: try (destruct c; do 2 eexists; split; [reflexivity|]).
  all: cbn [forallb isCleanupOf];
    rewrite ?(bool_decide_eq_true_2 (_ = _) eq_refl), ?orb_true_r; reflexivity.
Qed.

Ltac nextPath H :=
  lazymatch type of H with
  | context [convertImageForGoogleDocs env ?p ?t ?c] =>
      let Heq := fresh "Hconvert" in
      let Hkind := fresh "Hkind" in
      let Hshape := fresh "Hshape" in
      destruct (convert_shape env p t c) as (? & ? & ? & Heq & Hkind & Hshape);
      rewrite Heq in H; clear Heq
  | context [cleanupTempFiles env ?p ?t ?c] =>
      let Heq := fresh "Hcleanup" in
      let Hpaths := fresh "Hpaths" in
      destruct (cleanup_paths p t c) as (? & ? & Heq & Hpaths);
      rewrite Heq in H; clear Heq
  | context [match ?x with _ => _ end] => caseOn x
  end.

(** X18. What an upload method removes: nothing for a local image; for a remote
    image only files that lie right in the temporary directory of the
    project, and only after the uploaded file has been made public. *)
Theorem only_temp_files_are_removed (ref : AssetRef) (c c' : Client W)
    (evs : list Event) (r : Result UploadReturn) (q : string) (answer : Result unit) :
  resolve env ref c = (c', evs, r) ->
  In (EvRemove q answer) evs ->
  exists imageUrl name file,
    ref = RemoteUrl imageUrl
    /\ isFileName name
    /\ q = tempDirOf (projectRoot c) +:+ "/" +:+ name
    /\ In (EvPermissionsCreate file "reader" "anyone" (Ok tt)) evs.
Proof.
  intros H Hin. destruct ref as [imagePath given|imageUrl]; cbn [resolve] in *.
  - runsOf env H.
    all: locate Hin.
  - unfold uploadRemoteImage, adoptRecorded, pathnameOf in H; unfoldMonad.
    repeat (cbn beta iota zeta in H;
            cbn [world projectRoot imageFolderId uploadedImages withWorld] in H;
            pruneDead; nextPath H).
    all: inversion H; subst; clear H.
    all: locate Hin.
    all: match goal with
         | Hp : forallb (isCleanupOf _ _) ?l = true, Hl : In _ ?l |- _ =>
             pose proof (proj1 (forallb_forall _ _) Hp _ Hl) as Hq;
             cbn [isCleanupOf] in Hq; apply orb_true_iff in Hq
         end.
    all: cbn [projectRoot withWorld] in *.
    all: destruct Hq as [Hq|Hq]; apply bool_decide_eq_true in Hq;
      [|destruct Hshape as [->|[-> _]]].
    all: match type of Hq with
         | _ = Path.join _ ?n =>
             assert (Hname : isFileName n)
               by first [ apply temp_name_is_file_name, extension_no_slash
                        | apply png_name_is_file_name ];
             exists imageUrl, n
         end.
    all: eexists; split; [reflexivity|]; split; [exact Hname|].
    all: split; [rewrite Hq; apply join_tempDir; exact Hname|].
    all: booleans; cbn [app]; member.
Qed.

End Remote.

(** ** The tables, the statistics and [cleanup] *)

Section Rest.
Context {W : Type} (env : Env W).

(** X19. Every MIME type that [getMimeType] assigns to a path is a key of the
    table of [getExtensionFromMimeType], and the extension found there is
    mapped to the same type by the table of [getMimeType]. *)
Theorem assigned_types_have_extensions (filePath : string) :
  exists t e,
    getMimeType filePath = Js.VString t
    /\ getExtensionFromMimeType (Some t) = Js.VString e
    /\ In (t, e) extensions
    /\ In (e, t) mimeTypes.
Proof.
  destruct (getMimeType_string filePath) as (t & Ht & Hdefault).
  exists t. pose proof Ht as Hrun.
  unfold getMimeType, Js.lookupOr in Ht.
  destruct (Js.ownLookup mimeTypes _) as [v|] eqn:Hown.
  - unfold Js.ownLookup, mimeTypes in Hown. cbn [find fst snd] in Hown.
    repeat (case_bool_decide;
            [cbn in Hown; inversion Hown; subst v; cbn in Ht; inversion Ht; subst t;
             eexists; split; [exact Hrun|]; split; [reflexivity|];
             split; unfold extensions, mimeTypes; cbn [In]; auto 20|]).
    discriminate Hown.
  - rewrite (Hdefault eq_refl) in *. exists ".jpg".
    split; [exact Hrun|]. split; [reflexivity|].
    split; unfold extensions, mimeTypes; cbn [In]; auto 20.
Qed.

(** X20. [sessionUploads] counts the keys of the session cache: a successful
    upload method leaves it as it was when it answered from the session, and
    raises it by one otherwise, for an adopted record as for a new upload.
    [totalCached] and [totalNew] split that number. *)
Theorem stats_count_session_entries (ref : AssetRef) (c c' : Client W)
    (evs : list Event) (r : UploadReturn) :
  resolve env ref c = (c', evs, Ok r) ->
  sessionUploads (getUploadStats c')
  = (sessionUploads (getUploadStats c)
     + match backendCalls evs with [] => 0 | _ => 1 end)%nat
  /\ (totalCached (getUploadStats c') + totalNew (getUploadStats c'))%nat
     = sessionUploads (getUploadStats c').
Proof.
  intros Hrun. split.
  - destruct (resolve_resolved env _ _ _ _ _ Hrun) as (h & _ & Hres & _).
    unfold getUploadStats; cbn [sessionUploads].
    destruct Hres as [u Hu ->|? ? ? Hnone _ _ ->|? ? ? ? ? ? ? Hnone _ _ ->
                      |? ? ? ? ? ? ? ? ? Hnone _ _ _ ->].
    + lia.
    + rewrite (map_size_insert_None _ _ _ Hnone). lia.
    + rewrite (map_size_insert_None _ _ _ Hnone). lia.
    + rewrite (map_size_insert_None _ _ _ Hnone). lia.
  - rewrite sessionUploads_values. unfold getUploadStats; cbn [totalCached totalNew].
    apply filter_partition.
Qed.

(** X21. [cleanup()] empties the session cache and nothing else, without a
    call; after it nothing is answered from the session: whatever an upload
    method then returns as cached has been checked against the state and
    Drive. *)
Theorem cleanup_forgets_the_session (c : Client W) :
  exists c1,
    cleanup c = (c1, [], Ok tt)
    /\ world c1 = world c
    /\ imageFolderId c1 = imageFolderId c
    /\ sessionUploads (getUploadStats c1) = 0%nat
    /\ forall ref c2 evs r,
        resolve env ref c1 = (c2, evs, Ok r) ->
        cached r = true ->
        exists s f,
          backendCalls evs = [EvLoadState (Ok s); EvFilesGet (fileId (recorded r)) (Ok f)]
          /\ trashed f = false.
Proof.
  eexists. split; [reflexivity|].
  split; [reflexivity|]. split; [reflexivity|]. split; [reflexivity|].
  intros ref c2 evs r Hrun Hcached.
  destruct (resolve_resolved env _ _ _ _ _ Hrun) as (h & _ & Hres & _).
  cbn [uploadedImages] in Hres.
  destruct Hres as [u Hu|? ? ? _ _ Hlive _| |]; try discriminate Hcached.
  - rewrite lookup_empty in Hu. discriminate Hu.
  - cbn [recorded]. eauto.
Qed.

End Rest.

(** ** The properties on the concrete world *)

Import Mock Scenario Faults.

(** A key that names a member of [Object.prototype]: the state has no record
    of it, the lookup finds the member all the same, the check is refused
    for want of a file id, and the image is uploaded. *)
Example inherited_key_is_uploaded :
  let run := uploadImage env "/site/static/img/logo.png" (Some "constructor") clientB in
  stateUploadedImage (persisted (world clientB)) "constructor" = None
  /\ recordedImage (persisted (world clientB)) "constructor"
     = Some (InheritedMember "constructor")
  /\ In (EvFilesGetNoId "Missing required parameters: fileId") run.1.2
  /\ uploadCalls run.1.2 = 1%nat
  /\ cached <$> (match run.2 with Ok returned => Some returned | Throw _ => None end)
     = Some false.
Proof.
  cbv zeta. split; [vm_compute; reflexivity|]. split; [vm_compute; reflexivity|].
  split; [|split; vm_compute; reflexivity].
  apply (nth_error_In _ 1). vm_compute. reflexivity.
Qed.

Lemma remoteA_run :
  resolve env (RemoteUrl urlA) clientA = (clientB, remoteARun.1.2, Ok returnedA).
Proof.
  vm_compute. reflexivity.
Qed.

Lemma remoteA_upload :
  uploadRemoteImage env urlA clientA = (clientB, remoteARun.1.2, Ok returnedA).
Proof.
  vm_compute. reflexivity.
Qed.


Lemma initialize_outcome_witness :
  uploadedImages initializeRun.1.1 = uploadedImages client0
  /\ true = true
     /\ exists evs0 folderId,
         ensureImageFolder env client0 = (initializeRun.1.1, evs0, Ok folderId)
         /\ imageFolderId initializeRun.1.1 = Some folderId
         /\ initializeRun.1.2
            = evs0 ++ [EvConsole Log "✅ Google Drive client initialized successfully"].
Proof.
  apply (initialize_outcome env client0 initializeRun.1.1 initializeRun.1.2 (Ok true)).
  vm_compute. reflexivity.
Defined.

Lemma uploads_go_to_the_initialized_folder_witness :
  exists folderId,
    parents resourceA = [Some folderId]
    /\ ((exists live, In (EvFilesGet folderId (Ok live)) initializeRun.1.2
                      /\ trashed live = false)
        \/ exists request folder,
            In (EvFilesCreate request None (Ok folder)) initializeRun.1.2
            /\ id folder = folderId).
Proof.
  apply (uploads_go_to_the_initialized_folder env (RemoteUrl urlA) client0
           initializeRun.1.1 clientA clientB initializeRun.1.2 remoteARun.1.2 true
           (Ok returnedA) resourceA (Some mediaA) (Ok fileA)).
  - vm_compute. reflexivity.
  - reflexivity.
  - exact remoteA_run.
  - apply (nth_error_In _ 6). reflexivity.
Defined.

Lemma ensureImageFolder_failure_witness :
  List.filter isStateWritten readOnlyFolderRun.1.2 = []
  /\ imageFolderId readOnlyFolderRun.1.1 = Some "drive-0".
Proof.
  assert (Hrun : ensureImageFolder readOnlyState client0
                 = (readOnlyFolderRun.1.1, readOnlyFolderRun.1.2, Throw readOnlyError))
    by (vm_compute; reflexivity).
  pose proof (ensureImageFolder_failure readOnlyState client0 readOnlyFolderRun.1.1
                readOnlyFolderRun.1.2 readOnlyError Hrun) as (_ & Hstate & Hfolder & _).
  split; [exact Hstate|].
  apply (Hfolder folderResource None folderFile).
  apply (nth_error_In _ 3). reflexivity.
Defined.

Lemma folder_request_witness :
  List.filter isFilesCreate folderRun.1.2 = [EvFilesCreate folderResource None (Ok folderFile)].
Proof.
  refine (proj1 (folder_request env client0 clientA folderRun.1.2 folderRun.2
                   folderResource None (Ok folderFile) _ _)).
  - vm_compute. reflexivity.
  - apply (nth_error_In _ 3). reflexivity.
Defined.

Lemma only_svg_is_converted_witness :
  convertRun.2 = Ok svgPath
  \/ convertRun.2 = Ok (pngOf (projectRoot clientA) svgPath)
     /\ convertRun.1.2
        = [EvRequireSharp (Ok tt); EvEnsureDir (tempDirOf (projectRoot clientA)) (Ok tt);
           EvSharpToFile svgPath (pngOf (projectRoot clientA) svgPath) (Ok tt);
           EvPathExists (pngOf (projectRoot clientA) svgPath) true].
Proof.
  refine (proj2 (proj2 (only_svg_is_converted env svgPath None clientA convertRun.1.1
                          convertRun.1.2 convertRun.2 _))).
  vm_compute. reflexivity.
Defined.

Lemma local_svg_is_uploaded_as_png_witness :
  pngPath = pngOf (projectRoot clientA) svgPath
  /\ List.filter isRemove svgRun.1.2 = [].
Proof.
  assert (Hrun : uploadImage env svgPath None clientA = (svgRun.1.1, svgRun.1.2, svgRun.2))
    by (vm_compute; reflexivity).
  assert (Hin : In (EvPathExists pngPath true) svgRun.1.2)
    by (apply (nth_error_In _ 3); reflexivity).
  pose proof (local_svg_is_uploaded_as_png env svgPath None clientA svgRun.1.1 svgRun.1.2
                svgRun.2 pngPath Hrun Hin) as (Hpng & _ & _ & Hremove).
  split; assumption.
Defined.

Lemma given_hash_is_trusted_witness :
  exists w evs0 processed,
    convertImageForGoogleDocs env "/site/static/img/logo.png" None clientA
    = (withWorld w clientA, evs0, Ok processed)
    /\ List.filter isReadFile givenRun.1.2 = [].
Proof.
  apply (given_hash_is_trusted env (LocalPath "/site/static/img/logo.png" (Some "cafe"))
           clientA givenRun.1.1 givenRun.1.2 givenRun.2).
  vm_compute. reflexivity.
Defined.

Lemma upload_request_witness :
  parents resourceA = [imageFolderId clientA].
Proof.
  refine (proj1 (proj2 (upload_request env (RemoteUrl urlA) clientA clientB remoteARun.1.2
                          (Ok returnedA) resourceA (Some mediaA) (Ok fileA) _ _))).
  - exact remoteA_run.
  - apply (nth_error_In _ 6). reflexivity.
Defined.

Lemma state_write_keeps_other_records_witness :
  exists currentState,
    followedBy (EvLoadState (Ok currentState)) (EvUpdateState partialA (Ok tt))
      remoteARun.1.2.
Proof.
  pose proof remoteA_run as Hrun.
  assert (Hin : In (EvUpdateState partialA (Ok tt)) remoteARun.1.2)
    by (apply (nth_error_In _ 12); vm_compute; reflexivity).
  pose proof (state_write_keeps_other_records env (RemoteUrl urlA) clientA clientB
                remoteARun.1.2 (Ok returnedA) partialA (Ok tt) Hrun Hin)
    as (currentState & _ & _ & Hnext & _).
  exists currentState. exact Hnext.
Defined.

Lemma session_cache_only_grows_witness :
  uploadedImages remoteBRun.1.1 !! Sha256.hex urlA = Some recordedA.
Proof.
  refine (proj1 (session_cache_only_grows env (RemoteUrl urlB) clientB remoteBRun.1.1
                   remoteBRun.1.2 remoteBRun.2 _) (Sha256.hex urlA) recordedA _).
  - vm_compute. reflexivity.
  - vm_compute. reflexivity.
Defined.

Lemma upload_error_is_the_failed_call_witness :
  (exists pre ev,
      quotaRun.1.2 = pre ++ ev :: catchLine (RemoteUrl urlA) quotaError
      /\ thrownBy ev = Some quotaError
      /\ isSwallowed ev = false)
  \/ (exists imageUrl,
        RemoteUrl urlA = RemoteUrl imageUrl
        /\ urlPathname env imageUrl = None /\ quotaError = "Invalid URL").
Proof.
  apply (upload_error_is_the_failed_call env (RemoteUrl urlA)
           (withWorld (exhaustQuota (world clientA)) clientA) quotaRun.1.1).
  vm_compute. reflexivity.
Defined.

Lemma failed_permission_witness :
  noSharingRun.2 = Throw noSharingError
  /\ uploadedImages noSharingRun.1.1 = uploadedImages clientA.
Proof.
  assert (Hrun : resolve noSharing (RemoteUrl urlA) clientA
                 = (noSharingRun.1.1, noSharingRun.1.2, noSharingRun.2))
    by (vm_compute; reflexivity).
  assert (Hin : In (EvPermissionsCreate "drive-1" "reader" "anyone" (Throw noSharingError))
                   noSharingRun.1.2)
    by (apply (nth_error_In _ 7); reflexivity).
  pose proof (failed_permission_leaves_an_unrecorded_file noSharing (RemoteUrl urlA) clientA
                noSharingRun.1.1 noSharingRun.1.2 noSharingRun.2
                "drive-1" "reader" "anyone" noSharingError Hrun Hin) as (Hr & Hcache & _).
  split; assumption.
Defined.

Lemma upload_stays_in_session_witness :
  List.filter isStateWritten readOnlyUploadRun.1.2 = [].
Proof.
  refine (proj1 (upload_stays_in_session_when_state_write_fails readOnlyState
                   (RemoteUrl urlA) clientA readOnlyUploadRun.1.1 readOnlyUploadRun.1.2
                   readOnlyError "drive-1" _ _)).
  - vm_compute. reflexivity.
  - apply (nth_error_In _ 7). reflexivity.
Defined.

Lemma cached_remote_image_witness :
  exists response p,
    List.filter isHttpGet remoteARun.1.2 = [EvHttpGet urlA (Ok response)]
    /\ List.filter isWriteStream remoteARun.1.2 = [EvWriteStream p (data response) (Ok tt)].
Proof.
  apply (cached_remote_image_is_not_downloaded env urlA clientA clientB remoteARun.1.2
           returnedA).
  exact remoteA_upload.
Defined.

Lemma temp_file_witness :
  exists response,
    followedBy (EvHttpGet urlA (Ok response)) (EvWriteStream tempA logoBytes (Ok tt))
      remoteARun.1.2
    /\ logoBytes = data response
    /\ tempA = tempFileOf (projectRoot clientA) urlA
                 (getExtensionFromMimeType (contentType response)).
Proof.
  apply (temp_file_named_after_content_type env urlA clientA clientB remoteARun.1.2
           (Ok returnedA) tempA logoBytes (Ok tt)).
  - exact remoteA_upload.
  - apply (nth_error_In _ 4). reflexivity.
Defined.

Lemma remote_image_keeps_its_content_type_witness :
  exists m,
    Some mediaA = Some m
    /\ body m = tempFileOf (projectRoot clientA) urlA (Js.VString ".png")
    /\ name resourceA = "remote-" +:+ Js.substring0 8 (Sha256.hex urlA) +:+ ".png"
    /\ mimeType m = Js.lookupOr mimeTypes ".png" "image/jpeg"
    /\ (forall t, contentType responseA = Some t -> In (t, ".png") extensions ->
                  mimeType m = Js.VString t).
Proof.
  apply (remote_image_keeps_its_content_type env urlA clientA clientB remoteARun.1.2
           (Ok returnedA) responseA resourceA (Some mediaA) (Ok fileA) ".png").
  - exact remoteA_upload.
  - apply (nth_error_In _ 3). reflexivity.
  - apply (nth_error_In _ 6). reflexivity.
  - reflexivity.
  - discriminate.
  - intros pathname Hpath. vm_compute in Hpath. inversion Hpath. reflexivity.
Defined.

Lemma cleanup_stops_at_first_failure_witness :
  busyCleanupRun.2 = Ok tt.
Proof.
  refine (proj1 (cleanup_stops_at_first_failure busyDisk tempA tempA quotaRun.1.1
                   busyCleanupRun.1.1 busyCleanupRun.1.2 busyCleanupRun.2 _)).
  vm_compute. reflexivity.
Defined.

Lemma only_temp_files_are_removed_witness :
  exists imageUrl name file,
    RemoteUrl urlA = RemoteUrl imageUrl
    /\ isFileName name
    /\ tempA = tempDirOf (projectRoot clientA) +:+ "/" +:+ name
    /\ In (EvPermissionsCreate file "reader" "anyone" (Ok tt)) remoteARun.1.2.
Proof.
  apply (only_temp_files_are_removed env (RemoteUrl urlA) clientA clientB remoteARun.1.2
           (Ok returnedA) tempA (Ok tt)).
  - exact remoteA_run.
  - apply (nth_error_In _ 10). reflexivity.
Defined.

Lemma stats_count_session_entries_witness :
  sessionUploads (getUploadStats clientB) = (sessionUploads (getUploadStats clientA) + 1)%nat.
Proof.
  refine (proj1 (stats_count_session_entries env (RemoteUrl urlA) clientA clientB
                   remoteARun.1.2 returnedA _)).
  exact remoteA_run.
Defined.
